(** * PdfParser: page classifier, table detector, cross-page table merger

    A shallow embedding of the algorithmic core of the PDF pipeline
    ([pdf_pipeline/utils/geometry.py], [pdf/page_classifier.py],
    [pdf/table_extractor.py], [tables/table_merge.py],
    [tables/table_buffer.py], [postprocess/clean_text.py] and the page
    loop of [main.py]) together with the properties its specification
    states about it and further properties of the code.

    Conventions of the embedding.
    - Python [float] coordinates, densities and ratios are exact rationals
      ([Q]); two coordinates are the same number when they are [Qeq]
      (Python's [==]), and lists of coordinates are compared pointwise
      with [Qeq].  Not-a-number and infinities are outside the model.
    - Python [int] page numbers and counters are [Z] or [nat].
    - Python [str] is a list of code points ([str]).  [str.strip],
      [str.isspace], [str.split] and [len] are written out; the case
      mapping and the letter and digit classes of the Unicode database,
      which [str.lower] and [str.isalnum] read, are parameters of the
      development ([Py.Unicode]): what is proved holds for every such
      table that is right on the Latin-1 range.
    - A Python [list] is a [list]; a [dict] is a [gmap]; objects that are
      mutated in place live in a store addressed by locations.
    - An exception is the result [None].  The OCR engine and the caption
      service that the page loop calls are parameters of the loop. *)

From Stdlib Require Import QArith Qabs Qminmax Qround Lqa ZArith NArith Lia List.
From Stdlib Require Import Permutation Sorted String Ascii.
From stdpp Require Import gmap strings list sorting.
From Equations Require Import Equations.
Import ListNotations.

Local Open Scope Z_scope.

(* ===================================================================== *)
(** * Python builtins used by the pipeline *)
(* ===================================================================== *)

(** A Python [str]: its code points. *)
Abbreviation str := (list N).

Module Py.

(** [min(a, b)] and [max(a, b)]: the first argument is returned unless the
    second is strictly better. *)
Definition min (a b : Q) : Q := if Qlt_le_dec b a then b else a.
Definition max (a b : Q) : Q := if Qlt_le_dec a b then b else a.

(** [a < b] on floats. *)
Definition ltb (a b : Q) : bool := negb (Qle_bool b a).

(** [abs(a - b) <= tol] on floats. *)
Definition within (tol a b : Q) : bool := Qle_bool (Qabs (a - b)) tol.

(** [sorted(l, key)] / [list.sort()]: the stable sort.  A stable sort has
    one possible result, computed here by insertion from the right. *)
Section Sorted.
Context {A : Type} (leb : A -> A -> bool).

Fixpoint insert (x : A) (l : list A) : list A :=
  match l with
  | [] => [x]
  | y :: l' => if leb x y then x :: l else y :: insert x l'
  end.

Definition sorted (l : list A) : list A := fold_right insert [] l.
End Sorted.

(** [str.isspace] on one character: the white space of the Unicode
    database, which is also what [str.strip] removes. *)
Definition isspace (c : N) : bool :=
  ((9 <=? c) && (c <=? 13) || (28 <=? c) && (c <=? 32)
   || (c =? 133) || (c =? 160) || (c =? 5760)
   || (8192 <=? c) && (c <=? 8202)
   || (c =? 8232) || (c =? 8233) || (c =? 8239) || (c =? 8287) || (c =? 12288))%N.

Fixpoint drop_spaces (l : str) : str :=
  match l with
  | [] => []
  | c :: l' => if isspace c then drop_spaces l' else l
  end.

(** [s.strip()]. *)
Definition strip (s : str) : str := rev (drop_spaces (rev (drop_spaces s))).

(** [a == b] on strings. *)
Definition eqb (a b : str) : bool := bool_decide (a = b).

(** [str.lower] and [str.isalnum] on the Latin-1 range: the capitals are
    A to Z and the accented capitals but the multiplication sign; letters
    and digits include the ordinal indicators, the superscript digits, the
    micro sign and the fractions. *)
Definition latin1_lower (c : N) : N :=
  (if (65 <=? c) && (c <=? 90) || (192 <=? c) && (c <=? 214)
      || (216 <=? c) && (c <=? 222)
   then c + 32 else c)%N.

Definition latin1_isalnum (c : N) : bool :=
  ((48 <=? c) && (c <=? 57) || (65 <=? c) && (c <=? 90) || (97 <=? c) && (c <=? 122)
   || (c =? 170) || (178 <=? c) && (c <=? 179) || (c =? 181)
   || (185 <=? c) && (c <=? 186) || (188 <=? c) && (c <=? 190)
   || (192 <=? c) && (c <=? 214) || (216 <=? c) && (c <=? 246)
   || (248 <=? c) && (c <=? 255))%N.

Definition latin1 (s : str) : Prop := Forall (fun c => (c < 256)%N) s.

(** [s.lower()] and [c.isalnum()] for one character [c] read the case
    mapping and the categories of the Unicode database.  The tables are
    not part of the sources; they are taken as a parameter, of which only
    the Latin-1 range is fixed. *)
Class Unicode : Type := mkUnicode {
  lower : str -> str;
  isalnum : N -> bool;
  lower_latin1 : forall s, latin1 s -> lower s = map latin1_lower s;
  isalnum_latin1 : forall c, (c < 256)%N -> isalnum c = latin1_isalnum c
}.

(** The tables cut down to the Latin-1 range, to evaluate the samples. *)
Definition latin1_only : Unicode :=
  {| lower := map latin1_lower;
     isalnum := latin1_isalnum;
     lower_latin1 := fun _ _ => eq_refl;
     isalnum_latin1 := fun _ _ => eq_refl |}.

(** A string literal of the ASCII range as a [str]. *)
Definition lit (s : string) : str := map N_of_ascii (list_ascii_of_string s).

(** Truthiness of a string: non-empty. *)
Definition truthy (s : str) : bool :=
  match s with [] => false | _ :: _ => true end.

(** Truthiness of a list: non-empty. *)
Definition nonempty {A} (l : list A) : bool :=
  match l with [] => false | _ :: _ => true end.

(** [min(iterable)] and [max(iterable)]: the first smallest (largest) item;
    [None] stands for the [ValueError] raised on an empty sequence. *)
Definition min_of (l : list Q) : option Q :=
  match l with
  | [] => None
  | x :: l' => Some (fold_left min l' x)
  end.

Definition max_of (l : list Q) : option Q :=
  match l with
  | [] => None
  | x :: l' => Some (fold_left max l' x)
  end.

(** [s.split(sep)] for a one-character separator: never empty, one piece
    more than there are separators. *)
Fixpoint split (sep : N) (l : str) : list str :=
  match l with
  | [] => [[]]
  | c :: l' =>
      if (c =? sep)%N then [] :: split sep l'
      else match split sep l' with
           | piece :: pieces => (c :: piece) :: pieces
           | [] => [[c]]
           end
  end.

(** [len(s)]. *)
Definition len (s : str) : nat := length s.

End Py.

(* ===================================================================== *)
(** * Geometry ([pdf_pipeline/utils/geometry.py]) *)
(* ===================================================================== *)

(** A bounding box is the tuple [(x0, y0, x1, y1)]. *)
Record BBox : Type := mkBBox { bx0 : Q; by0 : Q; bx1 : Q; by1 : Q }.

Module Geometry.

(** The inner [for col in columns] loop: is [coord] within [tolerance] of
    a column already recorded? *)
Definition found (tolerance coord : Q) (columns : list Q) : bool :=
  existsb (fun col => Py.within tolerance coord col) columns.

(** One iteration of [for coord in x_coords]. *)
Definition add_coord (tolerance : Q) (columns : list Q) (coord : Q) : list Q :=
  if found tolerance coord columns then columns else columns ++ [coord].

Definition get_column_positions (bboxes : list BBox) (tolerance : Q) : list Q :=
  match bboxes with
  | [] => []
  | _ :: _ =>
      let x_coords := Py.sorted Qle_bool (map bx0 bboxes) in
      let columns := fold_left (add_coord tolerance) x_coords [] in
      Py.sorted Qle_bool columns
  end.

Definition bbox_overlap (bbox1 bbox2 : BBox) : Q :=
  let inter_x0 := Py.max (bx0 bbox1) (bx0 bbox2) in
  let inter_y0 := Py.max (by0 bbox1) (by0 bbox2) in
  let inter_x1 := Py.min (bx1 bbox1) (bx1 bbox2) in
  let inter_y1 := Py.min (by1 bbox1) (by1 bbox2) in
  if Qle_bool inter_x1 inter_x0 || Qle_bool inter_y1 inter_y0 then 0
  else
    let inter_area := ((inter_x1 - inter_x0) * (inter_y1 - inter_y0))%Q in
    let area1 := ((bx1 bbox1 - bx0 bbox1) * (by1 bbox1 - by0 bbox1))%Q in
    let area2 := ((bx1 bbox2 - bx0 bbox2) * (by1 bbox2 - by0 bbox2))%Q in
    let union_area := (area1 + area2 - inter_area)%Q in
    if Py.ltb 0 union_area then (inter_area / union_area)%Q else 0.

Definition is_aligned_horizontally (bbox1 bbox2 : BBox) (tolerance : Q) : bool :=
  let center1 := ((by0 bbox1 + by1 bbox1) / 2)%Q in
  let center2 := ((by0 bbox2 + by1 bbox2) / 2)%Q in
  Qle_bool (Qabs (center1 - center2)) tolerance.

Definition is_aligned_vertically (bbox1 bbox2 : BBox) (tolerance : Q) : bool :=
  let center1 := ((bx0 bbox1 + bx1 bbox1) / 2)%Q in
  let center2 := ((bx0 bbox2 + bx1 bbox2) / 2)%Q in
  Qle_bool (Qabs (center1 - center2)) tolerance.

End Geometry.

(* ===================================================================== *)
(** * Table area detector ([pdf_pipeline/pdf/table_extractor.py]) *)
(* ===================================================================== *)

(** A text span of the layout provider: [{"text", "bbox", "size"}]. *)
Record Span : Type := mkSpan { span_text : str; span_bbox : BBox; span_size : Q }.

(** A line: [{"spans", "bbox"}]. *)
Record Line : Type := mkLine { line_spans : list Span; line_bbox : BBox }.

(** The table candidate of one page. *)
Record TableBlock : Type := mkTableBlock {
  page_start : Z;
  page_end : Z;
  columns : list str;
  rows : list (list str);
  bbox : BBox;
  x_coordinates : list Q
}.

Module TableExtractor.

(** [spans1[i]["bbox"][0]] is compared with [spans2[i]["bbox"][0]] for
    [i] in [range(min(len(spans1), len(spans2)))]: the pairs of [combine]. *)
Definition x_aligned (tolerance : Q) (p : Span * Span) : bool :=
  Py.within tolerance (bx0 (span_bbox (fst p))) (bx0 (span_bbox (snd p))).

Definition count_matches (tolerance : Q) (spans1 spans2 : list Span) : nat :=
  length (List.filter (x_aligned tolerance) (combine spans1 spans2)).

Definition lines_align_as_table (line1 line2 : Line) (tolerance : Q) : bool :=
  let spans1 := line_spans line1 in
  let spans2 := line_spans line2 in
  if 1 <? Z.abs (Z.of_nat (length spans1) - Z.of_nat (length spans2)) then false
  else
    let min_matches := Nat.min (length spans1) (length spans2) in
    let matches := count_matches tolerance spans1 spans2 in
    (min_matches / 2 <=? matches)%nat.

(** The default [tolerance=5.0], the one [group_lines_into_tables] uses. *)
Definition default_tolerance : Q := 5.

(** [group_lines_into_tables].  [current_group] is never empty, so
    [current_group[-1]] always exists; the [None] branch stands for the
    [IndexError] an empty group would raise. *)
Fixpoint group_loop (table_groups : list (list Line)) (current_group : list Line)
    (lines : list Line) : list (list Line) :=
  match lines with
  | [] =>
      if (1 <? length current_group)%nat
      then table_groups ++ [current_group] else table_groups
  | curr_line :: lines' =>
      match last current_group with
      | None => table_groups
      | Some prev_line =>
          if lines_align_as_table prev_line curr_line default_tolerance
          then group_loop table_groups (current_group ++ [curr_line]) lines'
          else
            let table_groups' :=
              if (1 <? length current_group)%nat
              then table_groups ++ [current_group] else table_groups in
            group_loop table_groups' [curr_line] lines'
      end
  end.

Definition group_lines_into_tables (lines : list Line) : list (list Line) :=
  match lines with
  | [] => []
  | first :: lines' => group_loop [] [first] lines'
  end.

Definition extract_headers_from_group (group : list Line) : list str :=
  match group with
  | [] => []
  | first_line :: _ => map span_text (line_spans first_line)
  end.

Definition extract_rows_from_group (group : list Line) (headers : list str)
    : list (list str) :=
  let start_idx := if Py.nonempty headers then 1%nat else 0%nat in
  map (fun line => map span_text (line_spans line)) (drop start_idx group).

Definition extract_column_coordinates (group : list Line) : list Q :=
  match group with
  | [] => []
  | first_line :: _ => map (fun span => bx0 (span_bbox span)) (line_spans first_line)
  end.

(** The spans [find_table_areas] keeps of a line: those whose stripped text
    is not empty, with the stripped text, sorted by left edge. *)
Definition kept_spans (line : Line) : list Span :=
  let spans :=
    flat_map (fun span =>
                let text := Py.strip (span_text span) in
                if Py.truthy text
                then [mkSpan text (span_bbox span) (span_size span)] else [])
             (line_spans line) in
  Py.sorted (fun s1 s2 => Qle_bool (bx0 (span_bbox s1)) (bx0 (span_bbox s2))) spans.

(** The dictionary [find_table_areas] builds for a group. *)
Record TableData : Type := mkTableData {
  td_headers : list str;
  td_rows : list (list str);
  td_bbox : BBox;
  td_x_coords : list Q
}.

(** The bounding box of a group; [None] when a [min] or [max] meets an
    empty sequence. *)
Definition group_bbox (table_group : list Line) : option BBox :=
  inner_min ← mapM (fun line => Py.min_of (map (fun span => bx0 (span_bbox span))
                                               (line_spans line))) table_group;
  min_x ← Py.min_of inner_min;
  inner_max ← mapM (fun line => Py.max_of (map (fun span => bx1 (span_bbox span))
                                               (line_spans line))) table_group;
  max_x ← Py.max_of inner_max;
  min_y ← Py.min_of (map (fun line => by0 (line_bbox line)) table_group);
  max_y ← Py.max_of (map (fun line => by1 (line_bbox line)) table_group);
  Some (mkBBox min_x min_y max_x max_y).

Definition table_data_of (table_group : list Line) : option (list TableData) :=
  if (2 <=? length table_group)%nat
  then
    let headers := extract_headers_from_group table_group in
    let rows := extract_rows_from_group table_group headers in
    box ← group_bbox table_group;
    let x_coords := extract_column_coordinates table_group in
    Some [mkTableData headers rows box x_coords]
  else Some [].

End TableExtractor.

(* ===================================================================== *)
(** * Page classifier ([pdf_pipeline/pdf/page_classifier.py]) *)
(* ===================================================================== *)

(** A block of [page.get_text("dict")["blocks"]]: text blocks carry
    ["lines"], image blocks do not. *)
Record Block : Type := mkBlock { block_lines : option (list Line) }.

(** The [line_info] dictionaries the classifier collects. *)
Record LineInfo : Type := mkLineInfo {
  li_bbox : BBox;
  li_spans : list (Q * str)
}.

(** What the pipeline reads of a [fitz.Page]: its number, the size of its
    rectangle, its plain text, its images and drawings, and the blocks of
    its layout dictionary. *)
Record Page : Type := mkPage {
  page_number : Z;
  page_width : Q;
  page_height : Q;
  page_text : str;
  page_images : list Z;
  page_drawings : list Z;
  page_blocks : list Block
}.

Record PageProfile : Type := mkPageProfile {
  page_num : Z;
  has_text : bool;
  has_table : bool;
  has_images : bool;
  is_scan : bool;
  text_density : Q;
  image_count : Z;
  char_count : Z
}.

Module PageClassifier.

(** [round(x_pos, -1)]: the nearest multiple of ten, a tie going to the
    even multiple. *)
Definition round_half_even (q : Q) : Z :=
  let f := Qfloor q in
  match Qcompare (q - inject_Z f) (1 # 2) with
  | Lt => f
  | Gt => f + 1
  | Eq => if Z.even f then f else f + 1
  end.

Definition round_to_ten (x_pos : Q) : Z := 10 * round_half_even (x_pos / 10).

Definition line_info_of (line : Line) : list LineInfo :=
  let spans := line_spans line in
  if (1 <? length spans)%nat
  then [ mkLineInfo (line_bbox line)
           (map (fun span => (bx0 (span_bbox span), span_text span)) spans) ]
  else [].

Definition collect_lines (blocks : list Block) : list LineInfo :=
  flat_map (fun block =>
              match block_lines block with
              | Some lines => flat_map line_info_of lines
              | None => []
              end) blocks.

(** [if rounded_x not in column_candidates: column_candidates[rounded_x] = 0]
    followed by [column_candidates[rounded_x] += 1]. *)
Definition count_span (column_candidates : gmap Z nat) (sp : Q * str) : gmap Z nat :=
  let rounded_x := round_to_ten (fst sp) in
  let cc :=
    match column_candidates !! rounded_x with
    | Some _ => column_candidates
    | None => <[rounded_x := 0%nat]> column_candidates
    end in
  alter S rounded_x cc.

Definition count_line (column_candidates : gmap Z nat) (line : LineInfo) : gmap Z nat :=
  fold_left count_span (li_spans line) column_candidates.

Definition frequent_columns (column_candidates : gmap Z nat) : nat :=
  length (List.filter (fun kv => (3 <=? snd kv)%nat) (map_to_list column_candidates)).

Definition detect_table_structure (blocks : list Block) : bool :=
  let lines := collect_lines blocks in
  if (length lines <? 3)%nat then false
  else
    let column_candidates := fold_left count_line lines ∅ in
    (2 <=? frequent_columns column_candidates)%nat.

Section Classify.
Context {U : Py.Unicode}.

(** The number of characters [c] of [raw_text] with
    [not c.isalnum() and c != ' ']. *)
Definition special_char (c : N) : bool :=
  negb (Py.isalnum c) && negb (c =? 32)%N.

Definition special_chars_ratio (raw_text : str) : Q :=
  inject_Z (Z.of_nat (length (List.filter special_char raw_text)))
  / inject_Z (Z.of_nat (Nat.max (length raw_text) 1)).

Definition determine_if_scan {P : Type} (char_count : Z) (text_density : Q)
    (image_count : Z) (drawing_paths : list P) (raw_text : str) : bool :=
  if char_count <? 10 then true
  else if Py.ltb text_density (5 # 100) && (0 <? image_count) then true
  else if Py.ltb text_density (1 # 10)
          && Py.ltb (3 # 10) (special_chars_ratio raw_text) then true
  else false.

Definition calculate_text_density (text_lines : list str) (page_area : Q) : Q :=
  if Qle_bool page_area 0 then 0
  else
    let non_empty_lines :=
      length (List.filter (fun line => Py.truthy (Py.strip line)) text_lines) in
    let avg_line_length :=
      (inject_Z (Z.of_nat (list_sum (map Py.len text_lines)))
       / inject_Z (Z.of_nat (Nat.max (length text_lines) 1)))%Q in
    let estimated_char_area :=
      (inject_Z (Z.of_nat non_empty_lines) * avg_line_length * 6 * 12)%Q in
    Py.min (estimated_char_area / page_area) 1.

Definition classify_page (page : Page) (page_num : Z) : PageProfile :=
  let page_area := (page_width page * page_height page)%Q in
  let text := page_text page in
  let char_count := Z.of_nat (Py.len (Py.strip text)) in
  let text_lines := Py.split 10%N text in
  let text_density := calculate_text_density text_lines page_area in
  let image_count := Z.of_nat (length (page_images page)) in
  let drawing_paths := page_drawings page in
  let has_table := detect_table_structure (page_blocks page) in
  let has_text := 20 <? char_count in
  let is_scan := determine_if_scan char_count text_density image_count drawing_paths text in
  let has_images := 0 <? image_count in
  mkPageProfile page_num has_text has_table has_images is_scan
                text_density image_count char_count.

End Classify.

End PageClassifier.

(* ===================================================================== *)
(** * Table areas of a page ([pdf_pipeline/pdf/table_extractor.py]) *)
(* ===================================================================== *)

Module TableAreas.
Import TableExtractor.

(** The [lines] list [find_table_areas] builds: only lines that have text. *)
Definition text_lines_of (blocks : list Block) : list Line :=
  flat_map (fun block =>
              match block_lines block with
              | Some lines =>
                  flat_map (fun line =>
                              let spans := kept_spans line in
                              if Py.nonempty spans
                              then [mkLine spans (line_bbox line)] else [])
                           lines
              | None => []
              end) blocks.

(** [find_table_areas(words_data, page_bbox)], on the blocks of
    [words_data]; [None] when an exception is raised. *)
Definition find_table_areas (blocks : list Block) (page_bbox : BBox)
    : option (list TableData) :=
  let lines := text_lines_of blocks in
  let table_groups := group_lines_into_tables lines in
  potential_tables ← mapM table_data_of table_groups;
  Some (List.concat potential_tables).

(** [extract_tables(page)] of [table_extractor.py]: one [TableBlock] on the
    page's number for each table area; [None] when an exception is raised. *)
Definition extract_tables (page : Page) : option (list TableBlock) :=
  let page_bbox := mkBBox 0 0 (page_width page) (page_height page) in
  potential_tables ← find_table_areas (page_blocks page) page_bbox;
  Some (map (fun table_data =>
               mkTableBlock (page_number page) (page_number page)
                            (td_headers table_data)
                            (td_rows table_data)
                            (td_bbox table_data)
                            (td_x_coords table_data))
            potential_tables).

End TableAreas.

(* ===================================================================== *)
(** * Table merging ([pdf_pipeline/tables/table_merge.py]) *)
(* ===================================================================== *)

Module TableMerge.

(** The fields of the [TableBlock] that [merge_tables_if_compatible]
    constructs; the caller allocates it as a new object. *)
Definition merge_tables_if_compatible (table1 table2 : TableBlock) : TableBlock :=
  let '(first_table, second_table) :=
    if page_start table1 <=? page_start table2
    then (table1, table2) else (table2, table1) in
  let merged_rows := rows first_table ++ rows second_table in
  let merged_page_start := Z.min (page_start first_table) (page_start second_table) in
  let merged_page_end := Z.max (page_end first_table) (page_end second_table) in
  let merged_columns :=
    if Py.nonempty (columns first_table)
    then columns first_table else columns second_table in
  let merged_bbox :=
    mkBBox (Py.min (bx0 (bbox first_table)) (bx0 (bbox second_table)))
           (Py.min (by0 (bbox first_table)) (by0 (bbox second_table)))
           (Py.max (bx1 (bbox first_table)) (bx1 (bbox second_table)))
           (Py.max (by1 (bbox first_table)) (by1 (bbox second_table))) in
  let merged_x_coords :=
    if Py.nonempty (x_coordinates first_table)
    then x_coordinates first_table else x_coordinates second_table in
  mkTableBlock merged_page_start merged_page_end merged_columns merged_rows
               merged_bbox merged_x_coords.

Section Headers.
Context {U : Py.Unicode}.

(** [h1.strip().lower() == h2.strip().lower()]. *)
Definition header_match (p : str * str) : bool :=
  Py.eqb (Py.lower (Py.strip (fst p))) (Py.lower (Py.strip (snd p))).

Definition compare_headers (headers1 headers2 : list str) : Q :=
  if negb (length headers1 =? length headers2)%nat then 0
  else
    let matches := length (List.filter header_match (combine headers1 headers2)) in
    if Py.nonempty headers1
    then inject_Z (Z.of_nat matches) / inject_Z (Z.of_nat (length headers1))
    else 1.

(** [len(table1.rows) > 0 and len(table1.rows[0]) == len(table2.columns)]. *)
Definition first_row_fits (table1 table2 : TableBlock) : bool :=
  match rows table1 with
  | [] => false
  | row0 :: _ => (length row0 =? length (columns table2))%nat
  end.

(** The column-count check; [false] is the early [return False]. *)
Definition column_counts_ok (table1 table2 : TableBlock) : bool :=
  if negb (length (columns table1) =? length (columns table2))%nat
  then
    if first_row_fits table1 table2 then true
    else if first_row_fits table2 table1 then true
    else false
  else true.

(** The x-coordinate check. *)
Definition alignment_ok (column_tolerance : Q) (table1 table2 : TableBlock) : bool :=
  if Py.nonempty (x_coordinates table1) && Py.nonempty (x_coordinates table2)
  then
    if negb (length (x_coordinates table1) =? length (x_coordinates table2))%nat
    then false
    else
      forallb (fun p => negb (Py.ltb column_tolerance (Qabs (fst p - snd p))))
              (combine (x_coordinates table1) (x_coordinates table2))
  else true.

(** The header check. *)
Definition headers_ok (table1 table2 : TableBlock) : bool :=
  if Py.nonempty (columns table1) && Py.nonempty (columns table2)
  then negb (Py.ltb (compare_headers (columns table1) (columns table2)) (7 # 10))
  else true.

Definition is_table_continuation (table1 table2 : TableBlock)
    (max_page_gap : Z) (column_tolerance : Q) : bool :=
  let page_gap := Z.abs (page_start table2 - page_end table1) in
  if max_page_gap <? page_gap then false
  else if negb (column_counts_ok table1 table2) then false
  else if negb (alignment_ok column_tolerance table1 table2) then false
  else if negb (headers_ok table1 table2) then false
  else true.

End Headers.

(** [normalize_merged_table]: every cell here is a [str], so the
    [isinstance] tests always take the [strip] branch. *)
Definition normalize_merged_table (table : TableBlock) : TableBlock :=
  let cleaned_rows := map (map Py.strip) (rows table) in
  let filtered_rows := List.filter (fun row => existsb Py.truthy row) cleaned_rows in
  mkTableBlock (page_start table) (page_end table)
               (map Py.strip (columns table)) filtered_rows
               (bbox table) (x_coordinates table).

End TableMerge.

(* ===================================================================== *)
(** * Table buffer ([pdf_pipeline/tables/table_buffer.py]) *)
(* ===================================================================== *)

(** [TableBlock] objects are mutable and shared by reference: [add] assigns
    to the attributes of the object it is given.  The store is the sequence
    of the [TableBlock] objects allocated so far and a location is an index
    into it. *)
Abbreviation loc := nat (only parsing).
Abbreviation store := (list TableBlock) (only parsing).

Record MergedTable : Type := mkMergedTable {
  original_tables : list loc;
  merged_columns : list str;
  merged_rows : list (list str);
  page_range : Z * Z
}.

Module TableBuffer.

(** The buffer object ([self.tables], [self.merged_tables]) and the store
    its references point into. *)
Record State : Type := mkState {
  objects : store;
  tables : list loc;
  merged_tables : list MergedTable
}.

(** [TableBuffer()] over a store of already constructed candidates. *)
Definition init (σ : store) : State := mkState σ [] [].

Definition null_table : TableBlock := mkTableBlock 0 0 [] [] (mkBBox 0 0 0 0) [].

(** Reading the object behind a reference. *)
Definition deref (σ : store) (l : loc) : TableBlock := default null_table (σ !! l).

(** Constructing a new object. *)
Definition alloc (σ : store) (t : TableBlock) : store * loc := (σ ++ [t], length σ).

Definition set_page_start (p : Z) (t : TableBlock) : TableBlock :=
  mkTableBlock p (page_end t) (columns t) (rows t) (bbox t) (x_coordinates t).
Definition set_page_end (p : Z) (t : TableBlock) : TableBlock :=
  mkTableBlock (page_start t) p (columns t) (rows t) (bbox t) (x_coordinates t).

Definition add (table : loc) (page_num : option Z) (s : State) : State :=
  let σ :=
    match page_num with
    | Some p => alter (set_page_end p) table (alter (set_page_start p) table (objects s))
    | None => objects s
    end in
  mkState σ (tables s ++ [table]) (merged_tables s).

Section Merge.
Context {U : Py.Unicode}.

Definition _compare_headers (headers1 headers2 : list str) : Q :=
  if negb (length headers1 =? length headers2)%nat then 0
  else
    let matches :=
      length (List.filter TableMerge.header_match (combine headers1 headers2)) in
    if Py.nonempty headers1
    then inject_Z (Z.of_nat matches) / inject_Z (Z.of_nat (length headers1))
    else 1.

Definition _can_merge_tables (table1 table2 : TableBlock) : bool :=
  if 1 <? Z.abs (page_start table2 - page_end table1) then false
  else if negb (TableMerge.column_counts_ok table1 table2) then false
  else if negb (TableMerge.alignment_ok 10 table1 table2) then false
  else if Py.nonempty (columns table1) && Py.nonempty (columns table2)
       then
         let header_similarity :=
           _compare_headers (columns table1) (columns table2) in
         if Py.ltb header_similarity (7 # 10) then false else true
  else true.

(** The inner [while j < len(sorted_tables)] loop, over
    [sorted_tables[i + 1:]]: the store, the current table and the number of
    tables absorbed ([j - (i + 1)]) when it ends. *)
Fixpoint absorb (σ : store) (current_table : loc) (rest : list loc)
    : store * loc * nat :=
  match rest with
  | [] => (σ, current_table, 0%nat)
  | next_table :: rest' =>
      if _can_merge_tables (deref σ current_table) (deref σ next_table)
      then
        let '(σ1, merged) :=
          alloc σ (TableMerge.merge_tables_if_compatible
                     (deref σ current_table) (deref σ next_table)) in
        let '(σ2, current_table', k) := absorb σ1 merged rest' in
        (σ2, current_table', S k)
      else (σ, current_table, 0%nat)
  end.

(** The [MergedTable] appended for the group starting at [first]
    ([sorted_tables[i]]) after [k] absorptions.  No [TableBlock] has an
    [original_tables] attribute, so the [hasattr] test is false. *)
Definition group_result (σ : store) (first : loc) (rest : list loc)
    (current_table : loc) (k : nat) : MergedTable :=
  let original_tables0 := [first] in
  let original_tables1 :=
    if (0 <? k)%nat then first :: take k rest else original_tables0 in
  mkMergedTable original_tables1
                (columns (deref σ current_table))
                (rows (deref σ current_table))
                (page_start (deref σ current_table), page_end (deref σ current_table)).

(** The outer [while i < len(sorted_tables)] loop, over [sorted_tables[i:]]. *)
Equations? merge_loop (σ : store) (sorted_tables : list loc)
    : store * list MergedTable by wf (length sorted_tables) lt :=
merge_loop σ [] := (σ, []);
merge_loop σ (first :: rest) :=
  let r := absorb σ first rest in
  let tail := merge_loop (fst (fst r)) (drop (snd r) rest) in
  (fst tail, group_result (fst (fst r)) first rest (snd (fst r)) (snd r) :: snd tail).
Proof. rewrite length_drop. simpl. lia. Qed.

Definition by_page_start (σ : store) (a b : loc) : bool :=
  page_start (deref σ a) <=? page_start (deref σ b).

Definition merge (s : State) : State * list MergedTable :=
  match tables s with
  | [] => (s, [])
  | _ :: _ =>
      let sorted_tables := Py.sorted (by_page_start (objects s)) (tables s) in
      let '(σ, merged) := merge_loop (objects s) sorted_tables in
      (mkState σ (tables s) merged, merged)
  end.

End Merge.

Definition normalize_table (table : MergedTable) : MergedTable :=
  let cleaned_rows :=
    flat_map (fun row =>
                if existsb (fun cell => Py.truthy (Py.strip cell)) row
                then [map Py.strip row] else [])
             (merged_rows table) in
  mkMergedTable (original_tables table) (merged_columns table)
                cleaned_rows (page_range table).

(** A run of buffer operations. *)
Inductive op : Type :=
| Add (table : loc) (page_num : option Z)
| Merge.

Section Run.
Context {U : Py.Unicode}.

Definition step (s : State) (o : op) : State :=
  match o with
  | Add table page_num => add table page_num s
  | Merge => fst (merge s)
  end.

Definition run (ops : list op) (s : State) : State := fold_left step ops s.

End Run.

End TableBuffer.

(* ===================================================================== *)
(** * Text cleaning ([pdf_pipeline/postprocess/clean_text.py]) *)
(* ===================================================================== *)

Module CleanText.

(** [clean_text(text)].  The empty text is returned at once.  Any other
    text reaches [fix_common_ocr_errors], whose third [re.sub] has the
    replacement [r'\11']: the template names group 11 of a pattern with one
    group, and [re.sub] raises [re.error] when it reads the template,
    before it looks at the text.  [None] stands for the exception. *)
Definition clean_text (text : str) : option str :=
  if Py.truthy text then None else Some [].

End CleanText.

(* ===================================================================== *)
(** * The page loop ([pdf_pipeline/main.py]) *)
(* ===================================================================== *)

(** The dictionaries [process_single_pdf] appends to [doc_blocks]. *)
Inductive DocBlock : Type :=
| TextBlock (content : str)
| ImageCaption (content : str)
| TableDoc (columns : list str) (rows : list (list str)) (pages : Z * Z).

Module Main.
Import PageClassifier TableAreas TableBuffer CleanText.

(** The branch of the [if ... elif ... elif] chain that follows the table
    extraction: [extract_text], [ocr_page], [caption_images], or none. *)
Inductive branch : Type := ExtractText | OcrPage | CaptionImages | NoContent.

Definition content_branch (profile : PageProfile) : branch :=
  if has_text profile && negb (has_table profile) then ExtractText
  else if is_scan profile then OcrPage
  else if has_images profile && negb (has_text profile) && negb (has_table profile)
       then CaptionImages
  else NoContent.

(** The objects of the [TableBlock]s a call of [extract_tables] constructs. *)
Fixpoint alloc_all (σ : store) (new_tables : list TableBlock) : store * list loc :=
  match new_tables with
  | [] => (σ, [])
  | t :: new_tables' =>
      let '(σ1, l) := alloc σ t in
      let '(σ2, ls) := alloc_all σ1 new_tables' in
      (σ2, l :: ls)
  end.

(** [extract_text(page)] of [text_extractor.py] is [page.get_text("text")],
    the text the classifier reads. *)
Definition extract_text (page : Page) : str := page_text page.

(** [if text.strip(): doc_blocks.append({"type": "text", "content":
    clean_text(text)})]. *)
Definition append_text (text : str) (doc_blocks : list DocBlock)
    : option (list DocBlock) :=
  if Py.truthy (Py.strip text)
  then content ← clean_text text; Some (doc_blocks ++ [TextBlock content])
  else Some doc_blocks.

Section Loop.
Context {U : Py.Unicode}.

(** The OCR engine and the caption service.  [ocr_page] catches every
    exception and returns a text; [caption_images] belongs to a module
    that is not among the sources and may raise. *)
Variable ocr_page : Page -> str.
Variable caption_images : Page -> option (list str).

(** [if profile.has_table: tables = extract_tables(page); for table in
    tables: table_buffer.add(table, page_idx)]; [None] when
    [extract_tables] raises. *)
Definition buffer_tables (page : Page) (page_idx : Z) (table_buffer : State)
    : option State :=
  let profile := classify_page page page_idx in
  if has_table profile then
    new_tables ← extract_tables page;
    let '(σ, refs) := alloc_all (objects table_buffer) new_tables in
    Some (fold_left (fun s table => add table (Some page_idx) s) refs
                    (mkState σ (tables table_buffer) (merged_tables table_buffer)))
  else Some table_buffer.

(** The [if ... elif ... elif] chain on the profile. *)
Definition add_content (page : Page) (page_idx : Z) (doc_blocks : list DocBlock)
    : option (list DocBlock) :=
  match content_branch (classify_page page page_idx) with
  | ExtractText => append_text (extract_text page) doc_blocks
  | OcrPage => append_text (ocr_page page) doc_blocks
  | CaptionImages =>
      captions ← caption_images page;
      Some (doc_blocks ++ map ImageCaption captions)
  | NoContent => Some doc_blocks
  end.

(** [for page_idx in range(len(doc))], from [page_idx] on, over the pages
    [doc[page_idx:]]; [None] when a call raises. *)
Fixpoint page_loop (doc : list Page) (page_idx : Z)
    (table_buffer : State) (doc_blocks : list DocBlock)
    : option (State * list DocBlock) :=
  match doc with
  | [] => Some (table_buffer, doc_blocks)
  | page :: doc' =>
      table_buffer' ← buffer_tables page page_idx table_buffer;
      doc_blocks' ← add_content page page_idx doc_blocks;
      page_loop doc' (page_idx + 1) table_buffer' doc_blocks'
  end.

(** The buffer and the blocks when the loop is left. *)
Definition collected (doc : list Page) : option (State * list DocBlock) :=
  page_loop doc 0 (init []) [].

(** [x.get('page_num', 0)]: none of the dictionaries has the key. *)
Definition get_page_num (x : DocBlock) : Z := 0.

(** [merged_tables = table_buffer.merge()], the blocks appended for the
    merged tables, and [doc_blocks.sort(key=...)]: the list handed to
    [assemble_document]. *)
Definition process_single_pdf_blocks (doc : list Page) : option (list DocBlock) :=
  '(table_buffer, doc_blocks) ← collected doc;
  let merged_tables := snd (merge table_buffer) in
  let doc_blocks :=
    doc_blocks
    ++ map (fun table => TableDoc (merged_columns table) (merged_rows table)
                                  (page_range table))
           merged_tables in
  Some (Py.sorted (fun x y => get_page_num x <=? get_page_num y) doc_blocks).

End Loop.

End Main.

(* ===================================================================== *)
(** * The properties, in the words of the specification *)
(* ===================================================================== *)

Module Spec.

(** ** Column positions *)

(** Pointwise equality of lists of coordinates. *)
Definition Qeq_list : relation (list Q) := Forall2 Qeq.

(** Two columns are [tol]-apart when the later exceeds the earlier by more
    than [tol]. *)
Definition apart (tol : Q) (a b : Q) : Prop := (tol < b - a)%Q.

(** ** Merge test *)

Section Headers.
Context {U : Py.Unicode}.

(** Case- and whitespace-insensitive equality of two headers: they are
    the same once stripped and lowered. *)
Definition same_header (a b : str) : bool :=
  bool_decide (Py.lower (Py.strip a) = Py.lower (Py.strip b)).

(** The positions at which two header lists agree. *)
Definition agree_at (h1 h2 : list str) (i : nat) : bool :=
  match h1 !! i, h2 !! i with
  | Some a, Some b => same_header a b
  | _, _ => false
  end.

(** The per-position equality rate; lists of unequal length have
    similarity 0. *)
Definition header_similarity (h1 h2 : list str) : Q :=
  if decide (length h1 = length h2)
  then inject_Z (Z.of_nat (length (List.filter (agree_at h1 h2) (seq 0 (length h1)))))
       / inject_Z (Z.of_nat (length h1))
  else 0.

End Headers.

Definition page_gap_ok (t1 t2 : TableBlock) : Prop :=
  Z.abs (page_start t2 - page_end t1) <= 1.

Definition first_row_has (t : TableBlock) (n : nat) : Prop :=
  exists row, head (rows t) = Some row /\ length row = n.

Definition column_counts_compatible (t1 t2 : TableBlock) : Prop :=
  length (columns t1) = length (columns t2)
  \/ first_row_has t1 (length (columns t2))
  \/ first_row_has t2 (length (columns t1)).

Definition coordinates_aligned (tol : Q) (t1 t2 : TableBlock) : Prop :=
  x_coordinates t1 <> [] -> x_coordinates t2 <> [] ->
  length (x_coordinates t1) = length (x_coordinates t2)
  /\ Forall2 (fun a b => (Qabs (a - b) <= tol)%Q)
             (x_coordinates t1) (x_coordinates t2).

Section Similar.
Context {U : Py.Unicode}.

Definition headers_similar (t1 t2 : TableBlock) : Prop :=
  columns t1 <> [] -> columns t2 <> [] ->
  (7 # 10 <= header_similarity (columns t1) (columns t2))%Q.

Definition can_merge (t1 t2 : TableBlock) : Prop :=
  page_gap_ok t1 t2
  /\ column_counts_compatible t1 t2
  /\ coordinates_aligned 10 t1 t2
  /\ headers_similar t1 t2.

(** ** Scan detection *)

(** A special character: neither a letter or digit nor the space. *)
Definition special (c : N) : Prop := Py.isalnum c = false /\ c <> 32%N.

#[export] Instance special_dec (c : N) : Decision (special c) := _.

(** The fraction of the characters of the raw text that are special; the
    empty text has none. *)
Definition special_fraction (raw_text : str) : Q :=
  inject_Z (Z.of_nat (length (filter special raw_text)))
  / inject_Z (Z.of_nat (length raw_text)).

End Similar.

(** ** Table detection on a page *)

(** The lines of the text blocks that hold at least two runs. *)
Definition all_lines (blocks : list Block) : list Line :=
  flat_map (fun block => default [] (block_lines block)) blocks.

Definition qualifying_lines (blocks : list Block) : list Line :=
  List.filter (fun line => (2 <=? length (line_spans line))%nat) (all_lines blocks).

(** The 10-unit bin of a run: its left edge rounded to the nearest ten. *)
Definition bin_of (sp : Span) : Z := PageClassifier.round_to_ten (bx0 (span_bbox sp)).

Definition in_bin (b : Z) (sp : Span) : bool := bin_of sp =? b.

(** The number of lines with a run in bin [b], and the number of runs in
    bin [b]. *)
Definition lines_with_bin (lines : list Line) (b : Z) : nat :=
  length (List.filter (fun line => existsb (in_bin b) (line_spans line)) lines).

Definition runs_in_bin (lines : list Line) (b : Z) : nat :=
  length (List.filter (in_bin b) (flat_map line_spans lines)).

(** At least two distinct bins reach the count 3. *)
Definition two_frequent_bins (count : Z -> nat) : Prop :=
  exists b1 b2 : Z, b1 <> b2 /\ (3 <= count b1)%nat /\ (3 <= count b2)%nat.

(** The table test as the specification words it: bins are counted by the
    lines they recur in. *)
Definition has_table_by_lines (blocks : list Block) : Prop :=
  (3 <= length (qualifying_lines blocks))%nat
  /\ two_frequent_bins (lines_with_bin (qualifying_lines blocks)).

(** The table test with bins counted by the runs they hold. *)
Definition has_table_by_runs (blocks : list Block) : Prop :=
  (3 <= length (qualifying_lines blocks))%nat
  /\ two_frequent_bins (runs_in_bin (qualifying_lines blocks)).

(** ** Line grouping *)

(** The runs matched by position, up to the shorter line's length, whose
    left edges are within [tol] of each other. *)
Definition matched_runs (tol : Q) (line1 line2 : Line) : nat :=
  length (List.filter
            (fun i => match line_spans line1 !! i, line_spans line2 !! i with
                      | Some s1, Some s2 =>
                          Qle_bool (Qabs (bx0 (span_bbox s1) - bx0 (span_bbox s2))) tol
                      | _, _ => false
                      end)
            (seq 0 (Nat.min (length (line_spans line1)) (length (line_spans line2))))).

(** Same group: run counts differ by at most one and at least half of the
    position-matched runs are aligned. *)
Definition same_group (tol : Q) (line1 line2 : Line) : Prop :=
  Z.abs (Z.of_nat (length (line_spans line1)) - Z.of_nat (length (line_spans line2))) <= 1
  /\ (Nat.min (length (line_spans line1)) (length (line_spans line2))
      <= 2 * matched_runs tol line1 line2)%nat.

(** ** Normalisation *)

(** A row all of whose cells are empty once stripped. *)
Definition blank_row (row : list str) : bool :=
  forallb (fun cell => negb (Py.truthy (Py.strip cell))) row.

(** ** Buffer *)

(** No buffer operation changes an object the buffer already holds. *)
Definition buffered_candidates_frozen : Prop :=
  forall (U : Py.Unicode)
         (s : TableBuffer.State) (o : TableBuffer.op) (l : loc) (t : TableBlock),
    l ∈ TableBuffer.tables s ->
    TableBuffer.objects s !! l = Some t ->
    TableBuffer.objects (TableBuffer.step s o) !! l = Some t.

(** The operation [o] does not stamp the object at [l]. *)
Definition leaves (l : loc) (o : TableBuffer.op) : Prop :=
  match o with
  | TableBuffer.Add table (Some _) => table <> l
  | _ => True
  end.

(** The singleton result for a candidate that absorbed nothing. *)
Definition singleton_of (σ : store) (l : loc) : MergedTable :=
  mkMergedTable [l]
                (columns (TableBuffer.deref σ l))
                (rows (TableBuffer.deref σ l))
                (page_start (TableBuffer.deref σ l), page_end (TableBuffer.deref σ l)).

(** Three candidates on consecutive pages with the same headers collapse
    into one table whose page range ends where the last of them ends. *)
Definition chain_ends_with_last : Prop :=
  forall (U : Py.Unicode) (s : TableBuffer.State) (a b c : loc) (A B C : TableBlock),
    TableBuffer.tables s ≡ₚ [a; b; c] ->
    TableBuffer.objects s !! a = Some A ->
    TableBuffer.objects s !! b = Some B ->
    TableBuffer.objects s !! c = Some C ->
    page_start A < page_start B < page_start C ->
    Z.abs (page_start B - page_end A) <= 1 ->
    Z.abs (page_start C - page_end B) <= 1 ->
    columns A <> [] -> columns B = columns A -> columns C = columns A ->
    coordinates_aligned 10 A B -> coordinates_aligned 10 B C ->
    coordinates_aligned 10 A C ->
    snd (TableBuffer.merge s)
    = [ mkMergedTable [a; b; c] (columns A) (rows A ++ rows B ++ rows C)
                      (page_start A, page_end C) ].

(** ** Reading the classifier's data *)

(** The count the classifier's dictionary records for a bin, and the
    [line_info] it builds from a line. *)
Definition tally (column_candidates : gmap Z nat) (b : Z) : nat :=
  default 0%nat (column_candidates !! b).

Definition info_of (line : Line) : LineInfo :=
  mkLineInfo (line_bbox line)
             (map (fun span => (bx0 (span_bbox span), span_text span)) (line_spans line)).

End Spec.

(* ===================================================================== *)
(** * Sample inputs *)
(* ===================================================================== *)

Module Sample.

Definition box (x : Q) : BBox := mkBBox x 0 (x + 1) 1.

Definition run (x : Q) : Span := mkSpan (Py.lit "t") (box x) 10.

Definition line (xs : list Q) : Line := mkLine (map run xs) (mkBBox 0 0 1 1).

(** Three lines: six narrow runs crowded into two bins on the first, two
    runs each on the others, all in bins of their own. *)
Definition crowded_page : list Block :=
  [ mkBlock (Some [ line [100; 102; 104; 300; 302; 304]%Q;
                    line [500; 600]%Q;
                    line [700; 800]%Q ]) ].

(** Three lines with runs at 10, 100 and 200. *)
Definition table_page : list Block :=
  [ mkBlock (Some [ line [10; 100; 200]%Q;
                    line [11; 101; 199]%Q;
                    line [9; 100; 201]%Q ]) ].

(** Two one-run lines a hundred units apart. *)
Definition lone_left : Line := line [0%Q].
Definition lone_right : Line := line [100%Q].

(** Three one-page candidates on pages 1, 2 and 3 with the same headers. *)
Definition tA : TableBlock :=
  mkTableBlock 1 1 (map Py.lit ["name"; "qty"]%string)
               [map Py.lit ["a"; "1"]%string] (box 10) [10; 100]%Q.
Definition tB : TableBlock :=
  mkTableBlock 2 2 (map Py.lit ["name"; "qty"]%string)
               [map Py.lit ["b"; "2"]%string] (box 11) [11; 101]%Q.
Definition tC : TableBlock :=
  mkTableBlock 3 3 (map Py.lit ["name"; "qty"]%string)
               [map Py.lit ["c"; "3"]%string] (box 12) [12; 102]%Q.

(** The buffer after the three candidates were added out of page order. *)
Definition chain : TableBuffer.State := TableBuffer.mkState [tA; tB; tC] [2; 0; 1]%nat [].

(** The same candidates as the detector leaves them, all on page 0, and the
    calls that add them to a fresh buffer with their page numbers. *)
Definition unstamped (t : TableBlock) : TableBlock :=
  mkTableBlock 0 0 (columns t) (rows t) (bbox t) (x_coordinates t).
Definition adds : list TableBuffer.op :=
  [ TableBuffer.Add 2%nat (Some 3); TableBuffer.Add 0%nat (Some 1);
    TableBuffer.Add 1%nat (Some 2) ].

(** A merged table with padded headers and cells and a blank row. *)
Definition padded : MergedTable :=
  mkMergedTable [0%nat] (map Py.lit [" name "; "qty  "]%string)
                (map (map Py.lit) [[" a "; "1 "]; ["  "; ""]; ["b"; " 2"]]%string)
                (1, 1).

(** Ten headers, and ten headers that agree with them at seven positions. *)
Definition ten : list str :=
  map Py.lit ["a"; "b"; "c"; "d"; "e"; "f"; "g"; "h"; "i"; "j"]%string.
Definition seven_of_ten : list str :=
  map Py.lit [" A"; "b "; "C"; "d"; "e"; "f"; "g"; "x"; "y"; "z"]%string.
Definition six_of_ten : list str :=
  map Py.lit [" A"; "b "; "C"; "d"; "e"; "f"; "w"; "x"; "y"; "z"]%string.
Definition headed (page : Z) (headers : list str) : TableBlock :=
  mkTableBlock page page headers [] (box 0) [].

(** Three candidates of which the first two run over several pages:
    pages 1 to 3, 2 to 4, and 3. *)
Definition long_chain : TableBuffer.State :=
  TableBuffer.mkState
    [ mkTableBlock 1 3 (columns tA) (rows tA) (bbox tA) (x_coordinates tA);
      mkTableBlock 2 4 (columns tB) (rows tB) (bbox tB) (x_coordinates tB);
      tC ]
    [0; 1; 2]%nat [].

(** Headers in capitals and in small letters with accents: [É] is the code
    point 201 and [é] is 233. *)
Definition capitals : list str := [Py.lit " NAME"; [201; 84; 201]%N].
Definition smalls : list str := [Py.lit "name "; [233; 116; 233]%N].

End Sample.

(** Case analysis on a comparison of two rationals. *)
Ltac case_leb x y :=
  let E := fresh "E" in
  destruct (Qle_bool x y) eqn:E;
  [ apply Qle_bool_iff in E
  | apply not_true_iff_false in E; rewrite Qle_bool_iff in E;
    apply Qnot_le_lt in E ].

Ltac split_leb :=
  repeat match goal with
         | |- context [Qle_bool ?u ?v] => case_leb u v; try (exfalso; lra)
         end.

(** Texts given by their code points lie in the Latin-1 range. *)
Ltac latin1_texts := vm_compute; repeat constructor.

(* ===================================================================== *)
(** * Further notions used to state what the code does *)
(* ===================================================================== *)

Module Notions.

(** ** Boxes *)

(** Width and height of the intersection of two boxes (not positive when
    the boxes do not overlap), and the area of a box. *)
Definition inter_w (a b : BBox) : Q := (Qmin (bx1 a) (bx1 b) - Qmax (bx0 a) (bx0 b))%Q.
Definition inter_h (a b : BBox) : Q := (Qmin (by1 a) (by1 b) - Qmax (by0 a) (by0 b))%Q.
Definition inter_area (a b : BBox) : Q := (inter_w a b * inter_h a b)%Q.
Definition box_area (a : BBox) : Q := ((bx1 a - bx0 a) * (by1 a - by0 a))%Q.
Definition union_area (a b : BBox) : Q := (box_area a + box_area b - inter_area a b)%Q.

(** The same box, as numbers. *)
Definition same_box (a b : BBox) : Prop :=
  (bx0 a == bx0 b /\ by0 a == by0 b /\ bx1 a == bx1 b /\ by1 a == by1 b)%Q.

(** A box with an interior. *)
Definition solid (a : BBox) : Prop := (bx0 a < bx1 a /\ by0 a < by1 a)%Q.

(** The centre lines of a box. *)
Definition center_x (a : BBox) : Q := ((bx0 a + bx1 a) / 2)%Q.
Definition center_y (a : BBox) : Q := ((by0 a + by1 a) / 2)%Q.

(** ** Runs of lines *)

Section Runs.
Context {A : Type} (R : A -> A -> bool).

(** Each element is related to the next one. *)
Definition chained (l : list A) : Prop :=
  forall (i : nat) (a b : A),
    l !! i = Some a -> l !! S i = Some b -> R a b = true.

(** Between two adjacent chunks the relation fails: the last element of
    the one is not related to the first of the next. *)
Definition broken (chunks : list (list A)) : Prop :=
  forall (i : nat) (c1 c2 : list A) (a b : A),
    chunks !! i = Some c1 -> chunks !! S i = Some c2 ->
    last c1 = Some a -> head c2 = Some b -> R a b = false.

(** The maximal runs of a list: cut wherever an element is not related to
    the next. *)
Fixpoint runs (l : list A) : list (list A) :=
  match l with
  | [] => []
  | x :: l' =>
      match runs l' with
      | (y :: g) :: gs => if R x y then (x :: y :: g) :: gs else [x] :: (y :: g) :: gs
      | _ => [[x]]
      end
  end.

End Runs.

(** The alignment test of the detector, at its default tolerance. *)
Definition aligned (line1 line2 : Line) : bool :=
  TableExtractor.lines_align_as_table line1 line2 TableExtractor.default_tolerance.

(** A chunk with at least two lines. *)
Definition plural {A} (l : list A) : bool := (1 <? length l)%nat.

(** ** Text *)

(** A text without surrounding whitespace, and a text that is a cell with
    something in it. *)
Definition stripped (s : str) : Prop := Py.strip s = s.
Definition filled (s : str) : Prop := Py.strip s = s /\ s <> [].

(** A blank text: nothing but whitespace. *)
Definition blank (s : str) : Prop := Forall (fun c => Py.isspace c = true) s.

(** ** Candidates of a page *)

(** The texts and the left edges of the runs of a line. *)
Definition texts (line : Line) : list str := map span_text (line_spans line).
Definition lefts (line : Line) : list Q :=
  map (fun span => bx0 (span_bbox span)) (line_spans line).

(** A line as [find_table_areas] builds it: it has runs, their texts are
    stripped and not empty, and they go from left to right. *)
Definition clean_line (line : Line) : Prop :=
  line_spans line <> []
  /\ Forall filled (texts line)
  /\ StronglySorted Qle (lefts line).

(** The candidate built from a group of lines on a page: the first line
    gives the headers and the x-coordinates, the other lines the rows. *)
Definition built_from (page : Z) (group : list Line) (t : TableBlock) : Prop :=
  exists first rest,
    group = first :: rest
    /\ page_start t = page /\ page_end t = page
    /\ columns t = texts first
    /\ rows t = map texts rest
    /\ x_coordinates t = lefts first
    /\ TableExtractor.group_bbox group = Some (bbox t).

(** What every candidate of a page looks like. *)
Definition well_shaped (t : TableBlock) : Prop :=
  page_end t = page_start t
  /\ columns t <> []
  /\ length (x_coordinates t) = length (columns t)
  /\ rows t <> []
  /\ Forall filled (columns t)
  /\ Forall (fun row => row <> [] /\ Forall filled row) (rows t)
  /\ StronglySorted Qle (x_coordinates t)
  /\ Forall (fun x => (bx0 (bbox t) <= x)%Q) (x_coordinates t).

(** ** Groups of the buffer *)

(** Every reference the buffer holds points to an object of the store. *)
Definition references_ok (s : TableBuffer.State) : Prop :=
  Forall (fun l => (l < length (TableBuffer.objects s))%nat) (TableBuffer.tables s).

(** The first header list that is not empty. *)
Fixpoint first_columns (ts : list TableBlock) : list str :=
  match ts with
  | [] => []
  | t :: ts' => if Py.nonempty (columns t) then columns t else first_columns ts'
  end.

(** The table [t] is what the candidates [ts] give when they are taken
    together in this order: their rows one after the other, the first
    headers that are not empty, from the first page of the first candidate
    to the last page any of them ends on. *)
Definition taken_together (ts : list TableBlock) (t : TableBlock) : Prop :=
  rows t = List.concat (map rows ts)
  /\ columns t = first_columns ts
  /\ (exists t0, head ts = Some t0 /\ page_start t = page_start t0)
  /\ Forall (fun c => page_end c <= page_end t) ts
  /\ Exists (fun c => page_end c = page_end t) ts.

(** The same for the record [merge] returns. *)
Definition merged_from (ts : list TableBlock) (m : MergedTable) : Prop :=
  merged_rows m = List.concat (map rows ts)
  /\ merged_columns m = first_columns ts
  /\ (exists t0, head ts = Some t0 /\ fst (page_range m) = page_start t0)
  /\ Forall (fun c => page_end c <= snd (page_range m)) ts
  /\ Exists (fun c => page_end c = snd (page_range m)) ts.

(** ** The page loop *)

(** A candidate after [add] stamped it with a page. *)
Definition stamped (page_idx : Z) (t : TableBlock) : TableBlock :=
  TableBuffer.set_page_end page_idx (TableBuffer.set_page_start page_idx t).

(** Blocks that are image captions, all of them. *)
Definition captions_only (doc_blocks : list DocBlock) : Prop :=
  Forall (fun x => exists caption, x = ImageCaption caption) doc_blocks.

(** The block appended for a merged table. *)
Definition table_doc (table : MergedTable) : DocBlock :=
  TableDoc (merged_columns table) (merged_rows table) (page_range table).

Section Pages.
Context {U : Py.Unicode}.
Variable ocr_page : Page -> str.
Variable caption_images : Page -> option (list str).

(** The page at the index [page_idx] lets the loop go on: it does not take
    the text branch; if it takes the OCR branch, the engine finds nothing
    but whitespace on it; if it takes the caption branch, the caption
    service returns. *)
Definition passes (page : Page) (page_idx : Z) : Prop :=
  let branch := Main.content_branch (PageClassifier.classify_page page page_idx) in
  branch <> Main.ExtractText
  /\ (branch = Main.OcrPage -> blank (ocr_page page))
  /\ (branch = Main.CaptionImages -> is_Some (caption_images page)).

End Pages.

End Notions.

(* ===================================================================== *)
(** * Further sample inputs *)
(* ===================================================================== *)

Module Sample2.

Definition cell (text : string) (x : Q) : Span :=
  mkSpan (Py.lit text) (mkBBox x 0 (x + 20) 10) 10.

Definition row_at (y : Q) (c1 c2 c3 : string) : Line :=
  mkLine [cell c2 100; cell c1 10; cell c3 200] (mkBBox 10 y 220 (y + 10)).

(** Page 4: four lines of three runs at 10, 100 and 200, given out of
    order within the line and with padded texts. *)
Definition grid_page : Page :=
  mkPage 4 600 800 [] [] []
         [ mkBlock (Some [ row_at 0 " name " "qty" "unit";
                           row_at 12 "a" "1" "kg";
                           row_at 24 "b" " 2" "kg";
                           row_at 36 "c" "3" "l " ]) ].

(** The candidate of that page, and the buffer that holds it for the
    pages 0 and 1. *)
Definition grid_table (page : Z) : TableBlock :=
  mkTableBlock page page (map Py.lit ["name"; "qty"; "unit"]%string)
               (map (map Py.lit)
                    [["a"; "1"; "kg"]; ["b"; "2"; "kg"]; ["c"; "3"; "l"]]%string)
               (mkBBox 10 0 220 46) [10; 100; 200]%Q.

Definition grid_tables : list TableBlock := [grid_table 4].

Definition grid_buffer : TableBuffer.State :=
  TableBuffer.mkState [grid_table 0; grid_table 1] [0; 1]%nat [].

(** A fourth candidate, four pages after [Sample.tC], and a buffer that
    holds the four out of page order. *)
Definition tD : TableBlock :=
  mkTableBlock 7 7 (map Py.lit ["name"; "qty"]%string) [map Py.lit ["d"; "4"]%string]
               (Sample.box 13) [13; 103]%Q.

Definition two_groups : TableBuffer.State :=
  TableBuffer.mkState [Sample.tA; Sample.tB; Sample.tC; tD] [3; 2; 0; 1]%nat [].

(** An OCR engine that finds nothing and a caption service that returns
    no caption. *)
Definition no_text (page : Page) : str := [].
Definition no_captions (page : Page) : option (list str) := Some [].

(** A page of nothing but forty letters [a]. *)
Definition letter_page : Page :=
  mkPage 0 600 800 (repeat 97%N 40) [] [] [].

End Sample2.
(* ===================================================================== *)
(** * Facts about the Python builtins *)
(* ===================================================================== *)

Module PyFacts.
Import Spec.

Lemma ltb_lt (a b : Q) : Py.ltb a b = true <-> (a < b)%Q.
Proof.
  unfold Py.ltb. rewrite negb_true_iff, <- not_true_iff_false, Qle_bool_iff.
  split; intros H; lra.
Qed.

Lemma ltb_ge (a b : Q) : Py.ltb a b = false <-> (b <= a)%Q.
Proof.
  unfold Py.ltb. rewrite negb_false_iff, Qle_bool_iff. tauto.
Qed.

Lemma within_spec (tol a b : Q) : Py.within tol a b = true <-> (Qabs (a - b) <= tol)%Q.
Proof. unfold Py.within. apply Qle_bool_iff. Qed.

Lemma leb_false (a b : Q) : Qle_bool a b = false <-> (b < a)%Q.
Proof.
  rewrite <- not_true_iff_false, Qle_bool_iff. split; intros H; lra.
Qed.

Lemma nonempty_true {A} (l : list A) : Py.nonempty l = true <-> l <> [].
Proof. destruct l; simpl; split; congruence. Qed.

Lemma nonempty_false {A} (l : list A) : Py.nonempty l = false <-> l = [].
Proof. destruct l; simpl; split; congruence. Qed.

(** Counting the pairs of [zip(l1, l2)] that satisfy a test is counting
    the positions, up to the shorter length, at which the test holds. *)
Lemma filter_seq_shift (f : nat -> bool) n k :
  length (List.filter f (seq (S k) n))
  = length (List.filter (fun i => f (S i)) (seq k n)).
Proof.
  revert k. induction n as [|n IH]; intros k; simpl; [done|].
  destruct (f (S k)); simpl; by rewrite IH.
Qed.

Lemma filter_combine_positions {A B} (f : A * B -> bool) (l1 : list A) (l2 : list B) :
  length (List.filter f (combine l1 l2))
  = length (List.filter
              (fun i => match l1 !! i, l2 !! i with
                        | Some a, Some b => f (a, b)
                        | _, _ => false
                        end)
              (seq 0 (Nat.min (length l1) (length l2)))).
Proof.
  revert l2. induction l1 as [|a l1 IH]; intros [|b l2]; try done.
  cbn [length combine List.filter seq Nat.min].
  change ((a :: l1) !! 0%nat) with (Some a). change ((b :: l2) !! 0%nat) with (Some b).
  destruct (f (a, b)); cbn [length]; rewrite filter_seq_shift, IH; done.
Qed.

(** The stable sort permutes its input, whatever the comparison. *)
Lemma insert_perm {A} (leb : A -> A -> bool) x l : Py.insert leb x l ≡ₚ x :: l.
Proof.
  induction l as [|y l IH]; simpl; [reflexivity|].
  destruct (leb x y); [reflexivity|].
  rewrite IH. apply perm_swap.
Qed.

Lemma sorted_perm {A} (leb : A -> A -> bool) l : Py.sorted leb l ≡ₚ l.
Proof.
  induction l as [|x l IH]; simpl; [reflexivity|].
  rewrite insert_perm. by constructor.
Qed.

(** Inserting in front of a list whose head is not smaller leaves the
    list in place. *)
Lemma insert_head {A} (leb : A -> A -> bool) x l :
  Forall (fun y => leb x y = true) l -> Py.insert leb x l = x :: l.
Proof. destruct 1 as [|y l Hy _]; simpl; [done|]. by rewrite Hy. Qed.

Lemma sorted_fixed {A} (leb : A -> A -> bool) l :
  StronglySorted (fun a b => leb a b = true) l -> Py.sorted leb l = l.
Proof.
  induction 1 as [|x l Hl IH Hx]; simpl; [done|].
  rewrite IH. by apply insert_head.
Qed.

(** Sortedness. *)
Lemma StronglySorted_impl {A} (R R' : relation A) l :
  (forall a b, R a b -> R' a b) -> StronglySorted R l -> StronglySorted R' l.
Proof.
  intros HR. induction 1 as [|x l _ IH Hx]; constructor; [done|].
  eapply Forall_impl; [exact Hx|]. auto.
Qed.

Lemma StronglySorted_lookup_lt {A} (R : relation A) l i j a b :
  StronglySorted R l -> (i < j)%nat -> l !! i = Some a -> l !! j = Some b -> R a b.
Proof.
  intros H. revert i j. induction H as [|x l _ IH Hx]; intros i j Hij Hi Hj.
  - done.
  - destruct j as [|j]; [lia|]. simpl in Hj. destruct i as [|i]; simpl in Hi.
    + injection Hi as ->. rewrite Forall_forall in Hx. apply Hx.
      by eapply list_elem_of_lookup_2.
    + apply (IH i j); [lia|done|done].
Qed.

(** Sorting by an integer key. *)
Lemma insert_key_sorted {A} (key : A -> Z) x l :
  StronglySorted (fun a b => key a <= key b) l ->
  StronglySorted (fun a b => key a <= key b)
                 (Py.insert (fun a b => key a <=? key b) x l).
Proof.
  induction 1 as [|y l Hl IH Hy]; simpl.
  - repeat constructor.
  - destruct (Z.leb_spec (key x) (key y)) as [Hle|Hlt].
    + constructor; [by constructor|].
      constructor; [done|]. eapply Forall_impl; [exact Hy|].
      intros z Hz. simpl in Hz. lia.
    + constructor; [done|].
      rewrite (insert_perm _ x l). constructor; [lia|done].
Qed.

Lemma sorted_key_sorted {A} (key : A -> Z) l :
  StronglySorted (fun a b => key a <= key b)
                 (Py.sorted (fun a b => key a <=? key b) l).
Proof.
  induction l as [|x l IH]; simpl; [constructor|]. by apply insert_key_sorted.
Qed.

(** A list that is already in strictly ascending key order is what sorting
    any of its permutations gives. *)
Lemma sorted_key_unique {A} (key : A -> Z) l l' :
  l ≡ₚ l' ->
  StronglySorted (fun a b => key a < key b) l' ->
  Py.sorted (fun a b => key a <=? key b) l = l'.
Proof.
  intros HP Hl'.
  assert (Hinj : forall x y, x ∈ l' -> y ∈ l' -> key x = key y -> x = y).
  { clear HP. induction Hl' as [|z l' _ IH Hz]; intros x y Hx Hy Hk.
    - by apply elem_of_nil in Hx.
    - rewrite Forall_forall in Hz.
      apply elem_of_cons in Hx as [->|Hx]; apply elem_of_cons in Hy as [->|Hy].
      + done.
      + specialize (Hz _ Hy). lia.
      + specialize (Hz _ Hx). lia.
      + by apply IH. }
  apply (StronglySorted_unique_strong (fun a b => key a <= key b)).
  - intros x1 x2 Hx1 Hx2 H12 H21. apply Hinj; [|done|lia].
    by rewrite sorted_perm, HP in Hx1.
  - apply sorted_key_sorted.
  - clear -Hl'. induction Hl' as [|z l' _ IH Hz]; constructor; [done|].
    eapply Forall_impl; [exact Hz|]. simpl. intros. lia.
  - by rewrite sorted_perm.
Qed.

(** Sorting rationals. *)
Lemma insert_Qle_sorted x l :
  StronglySorted Qle l -> StronglySorted Qle (Py.insert Qle_bool x l).
Proof.
  induction 1 as [|y l Hl IH Hy]; simpl.
  - repeat constructor.
  - case_leb x y.
    + constructor; [by constructor|].
      constructor; [done|]. eapply Forall_impl; [exact Hy|].
      intros z Hz. simpl in Hz. lra.
    + constructor; [done|].
      rewrite (insert_perm Qle_bool x l). constructor; [lra|done].
Qed.

Lemma sorted_Qle_sorted l : StronglySorted Qle (Py.sorted Qle_bool l).
Proof.
  induction l as [|x l IH]; simpl; [constructor|]. by apply insert_Qle_sorted.
Qed.

(** Pointwise equality of lists of rationals. *)
Lemma Qeq_list_refl l : Qeq_list l l.
Proof. induction l; constructor; [reflexivity|done]. Qed.

Lemma Qeq_list_sym l k : Qeq_list l k -> Qeq_list k l.
Proof. induction 1; constructor; [by symmetry|done]. Qed.

Lemma Qeq_list_trans l k m : Qeq_list l k -> Qeq_list k m -> Qeq_list l m.
Proof.
  intros H. revert m. induction H as [|x y l k Hxy _ IH]; intros m Hm.
  - done.
  - inversion Hm as [|y' z k' m' Hyz Hkm]; subst.
    constructor; [by rewrite Hxy|by apply IH].
Qed.

Lemma insert_Qeq x x' l l' :
  (x == x')%Q -> Qeq_list l l' ->
  Qeq_list (Py.insert Qle_bool x l) (Py.insert Qle_bool x' l').
Proof.
  intros Hx H. induction H as [|y y' l l' Hy Hl IH]; simpl.
  - by repeat constructor.
  - case_leb x y; case_leb x' y'; try (exfalso; lra).
    + constructor; [done|]. by constructor.
    + by constructor.
Qed.

Lemma insert_insert x y l :
  Qeq_list (Py.insert Qle_bool x (Py.insert Qle_bool y l))
           (Py.insert Qle_bool y (Py.insert Qle_bool x l)).
Proof.
  assert (Hxy : forall u v k, (u == v)%Q -> Qeq_list (u :: v :: k) (v :: u :: k)).
  { intros u v k Huv. constructor; [done|].
    constructor; [by symmetry|apply Qeq_list_refl]. }
  induction l as [|a l IH]; simpl.
  - split_leb; simpl; split_leb; (apply Qeq_list_refl || (apply Hxy; lra)).
  - case_leb y a; case_leb x a; simpl; split_leb; simpl; split_leb;
      try apply Qeq_list_refl; try (apply Hxy; lra).
    constructor; [reflexivity|exact IH].
Qed.

Lemma sorted_Qeq l l' :
  l ≡ₚ l' -> Qeq_list (Py.sorted Qle_bool l) (Py.sorted Qle_bool l').
Proof.
  induction 1 as [|x l l' _ IH|x y l|l k m _ IH1 _ IH2]; simpl.
  - constructor.
  - by apply insert_Qeq.
  - apply insert_insert.
  - by eapply Qeq_list_trans.
Qed.

Lemma sorted_Qeq_list l l' :
  Qeq_list l l' -> Qeq_list (Py.sorted Qle_bool l) (Py.sorted Qle_bool l').
Proof.
  induction 1 as [|x y l l' Hxy _ IH]; simpl; [constructor|].
  by apply insert_Qeq.
Qed.

End PyFacts.

(* ===================================================================== *)
(** * Column clustering *)
(* ===================================================================== *)

Module GeometryFacts.
Import Geometry PyFacts Spec Sample.

Lemma found_true tol coord cols :
  found tol coord cols = true <->
  exists col, col ∈ cols /\ (Qabs (coord - col) <= tol)%Q.
Proof.
  unfold found. rewrite existsb_exists. setoid_rewrite within_spec.
  setoid_rewrite <- list_elem_of_In. tauto.
Qed.

Lemma found_Qeq tol coord coord' cols cols' :
  (coord == coord')%Q -> Qeq_list cols cols' ->
  found tol coord cols = found tol coord' cols'.
Proof.
  intros Hc H. induction H as [|c c' l l' Hcc _ IH]; simpl; [done|].
  rewrite IH. f_equal. unfold Py.within.
  apply eq_true_iff_eq. rewrite !Qle_bool_iff. by rewrite Hc, Hcc.
Qed.

Lemma add_coord_Qeq tol cols cols' coord coord' :
  (coord == coord')%Q -> Qeq_list cols cols' ->
  Qeq_list (add_coord tol cols coord) (add_coord tol cols' coord').
Proof.
  intros Hc H. unfold add_coord. rewrite (found_Qeq tol _ _ _ _ Hc H).
  destruct (found tol coord' cols'); [done|].
  apply Forall2_app; [done|]. by repeat constructor.
Qed.

Lemma cluster_Qeq tol xs xs' :
  Qeq_list xs xs' -> forall cols cols', Qeq_list cols cols' ->
  Qeq_list (fold_left (add_coord tol) xs cols) (fold_left (add_coord tol) xs' cols').
Proof.
  induction 1 as [|x x' l l' Hx _ IH]; simpl; intros cols cols' Hc; [done|].
  apply IH. by apply add_coord_Qeq.
Qed.

(** The output does not depend on the order of the boxes. *)
Lemma get_column_positions_Permutation bboxes bboxes' tol :
  bboxes ≡ₚ bboxes' ->
  Qeq_list (get_column_positions bboxes tol) (get_column_positions bboxes' tol).
Proof.
  intros HP. unfold get_column_positions.
  destruct bboxes as [|b bs], bboxes' as [|b' bs'].
  - constructor.
  - by apply Permutation_nil_cons in HP.
  - symmetry in HP. by apply Permutation_nil_cons in HP.
  - apply sorted_Qeq_list, cluster_Qeq; [|constructor].
    apply sorted_Qeq. by apply Permutation_map.
Qed.

(** The clustering loop over ascending coordinates keeps the columns
    ascending and [tol]-apart. *)
Lemma cluster_apart tol xs :
  (0 <= tol)%Q -> StronglySorted Qle xs ->
  forall cols,
    StronglySorted (apart tol) cols ->
    (forall c x, c ∈ cols -> x ∈ xs -> (c <= x)%Q) ->
    StronglySorted (apart tol) (fold_left (add_coord tol) xs cols).
Proof.
  intros Htol Hxs. induction Hxs as [|x xs Hxs IH Hx]; simpl; intros cols Hc Hle.
  - done.
  - rewrite Forall_forall in Hx.
    assert (Hle' : forall c x', c ∈ cols -> x' ∈ xs -> (c <= x')%Q).
    { intros c x' ? ?. apply Hle; [done|]. by right. }
    unfold add_coord at 2. destruct (found tol x cols) eqn:Hf.
    + by apply IH.
    + apply IH.
      * apply StronglySorted_app_2; [|done|repeat constructor].
        intros c x' Hcin ->%list_elem_of_singleton. unfold apart.
        assert (Hcx : (c <= x)%Q) by (apply Hle; [done|by left]).
        assert (Hn : ~ (Qabs (x - c) <= tol)%Q).
        { intros Habs. apply not_true_iff_false in Hf. apply Hf.
          apply found_true. eauto. }
        rewrite Qabs_pos in Hn by lra. lra.
      * intros c x' [Hcin| ->%list_elem_of_singleton]%elem_of_app Hx'.
        -- by apply Hle'.
        -- by apply Hx.
Qed.

(** The loop only appends, and only coordinates it was given. *)
Lemma cluster_appends tol xs : forall cols,
  exists ext, fold_left (add_coord tol) xs cols = cols ++ ext
              /\ forall c, c ∈ ext -> c ∈ xs.
Proof.
  induction xs as [|x xs IH]; intros cols; simpl.
  - exists []. split; [by rewrite app_nil_r|]. intros c Hc. by apply elem_of_nil in Hc.
  - unfold add_coord at 2. destruct (found tol x cols).
    + destruct (IH cols) as (ext & -> & Hext). exists ext. split; [done|].
      intros c Hc. right. by apply Hext.
    + destruct (IH (cols ++ [x])) as (ext & -> & Hext). exists (x :: ext).
      split; [by rewrite <- app_assoc|].
      intros c [->|Hc]%elem_of_cons; [left|right; by apply Hext].
Qed.

(** Over ascending coordinates, every coordinate ends up within [tol] above
    a recorded column: the representative of a cluster is its smallest
    member. *)
Lemma cluster_covers tol xs :
  (0 <= tol)%Q -> StronglySorted Qle xs ->
  forall cols,
    (forall c x, c ∈ cols -> x ∈ xs -> (c <= x)%Q) ->
    forall x, x ∈ xs ->
      exists c, c ∈ fold_left (add_coord tol) xs cols
                /\ (c <= x)%Q /\ (x - c <= tol)%Q.
Proof.
  intros Htol Hxs. induction Hxs as [|y xs Hxs IH Hy]; intros cols Hle x Hx.
  - by apply elem_of_nil in Hx.
  - rewrite Forall_forall in Hy. simpl.
    assert (Hle' : forall c x', c ∈ cols -> x' ∈ xs -> (c <= x')%Q).
    { intros c x' ? ?. apply Hle; [done|]. by right. }
    apply elem_of_cons in Hx as [->|Hx].
    + unfold add_coord at 2. destruct (found tol y cols) eqn:Hf.
      * apply found_true in Hf as (col & Hcol & Habs).
        assert (col <= y)%Q by (apply Hle; [done|by left]).
        rewrite Qabs_pos in Habs by lra.
        destruct (cluster_appends tol xs cols) as (ext & -> & _).
        exists col. split; [apply elem_of_app; by left|]. split; lra.
      * destruct (cluster_appends tol xs (cols ++ [y])) as (ext & -> & _).
        exists y. split; [|split; lra].
        apply elem_of_app. left. apply elem_of_app. right. by left.
    + apply IH; [|done]. unfold add_coord. destruct (found tol y cols); [done|].
      intros c x' [Hc| ->%list_elem_of_singleton]%elem_of_app Hx'.
      * by apply Hle'.
      * by apply Hy.
Qed.

Lemma get_column_positions_members bboxes tol c :
  c ∈ get_column_positions bboxes tol -> c ∈ map bx0 bboxes.
Proof.
  unfold get_column_positions. destruct bboxes as [|b bs].
  - intros Hc. by apply elem_of_nil in Hc.
  - rewrite sorted_perm.
    destruct (cluster_appends tol (Py.sorted Qle_bool (map bx0 (b :: bs))) [])
      as (ext & -> & Hext).
    intros Hc. apply Hext in Hc. by rewrite sorted_perm in Hc.
Qed.

Lemma get_column_positions_covers bboxes tol x :
  (0 <= tol)%Q -> x ∈ map bx0 bboxes ->
  exists c, c ∈ get_column_positions bboxes tol /\ (c <= x)%Q /\ (x - c <= tol)%Q.
Proof.
  intros Htol Hx. unfold get_column_positions. destruct bboxes as [|b bs].
  - by apply elem_of_nil in Hx.
  - destruct (cluster_covers tol (Py.sorted Qle_bool (map bx0 (b :: bs)))
                             Htol (sorted_Qle_sorted _) []) with (x := x)
      as (c & Hc & Hcx).
    + intros c' x' Hc'. by apply elem_of_nil in Hc'.
    + by rewrite sorted_perm.
    + exists c. split; [|done]. by rewrite sorted_perm.
Qed.

(** On a non-negative tolerance the columns come out ascending and
    [tol]-apart. *)
Lemma get_column_positions_apart bboxes tol :
  (0 <= tol)%Q -> StronglySorted (apart tol) (get_column_positions bboxes tol).
Proof.
  intros Htol. unfold get_column_positions.
  destruct bboxes as [|b bs]; [constructor|].
  set (xs := Py.sorted Qle_bool (map bx0 (b :: bs))).
  assert (H : StronglySorted (apart tol) (fold_left (add_coord tol) xs [])).
  { apply cluster_apart; [done|apply sorted_Qle_sorted|constructor|].
    intros c x Hc. by apply elem_of_nil in Hc. }
  rewrite sorted_fixed; [done|].
  eapply StronglySorted_impl; [|exact H].
  intros a c Hac. unfold apart in Hac. apply Qle_bool_iff. lra.
Qed.

(** C10.  For a non-negative tolerance the returned columns are strictly
    increasing, each is the left edge [x0] of some input box, and any two
    of them (at different positions of the result) differ by strictly more
    than the tolerance. *)
Theorem get_column_positions_invariant (bboxes : list BBox) (tolerance : Q) :
  (0 <= tolerance)%Q ->
  StronglySorted Qlt (get_column_positions bboxes tolerance) /\
  Forall (fun c => exists b, b ∈ bboxes /\ bx0 b = c)
         (get_column_positions bboxes tolerance) /\
  (forall (i j : nat) (a b : Q),
      i <> j ->
      get_column_positions bboxes tolerance !! i = Some a ->
      get_column_positions bboxes tolerance !! j = Some b ->
      (tolerance < Qabs (a - b))%Q).
Proof.
  intros Htol. pose proof (get_column_positions_apart bboxes tolerance Htol) as H1.
  split; [|split].
  - eapply StronglySorted_impl; [|exact H1].
    intros a b Hab. unfold apart in Hab. lra.
  - apply Forall_forall. intros c Hc%get_column_positions_members.
    apply list_elem_of_fmap in Hc as (b & -> & Hb). eauto.
  - intros i j a b Hij Hi Hj.
    destruct (Nat.lt_total i j) as [Hlt|[->|Hlt]]; [| done |].
    + pose proof (StronglySorted_lookup_lt _ _ _ _ _ _ H1 Hlt Hi Hj) as Hab.
      unfold apart in Hab. rewrite Qabs_neg by lra. lra.
    + pose proof (StronglySorted_lookup_lt _ _ _ _ _ _ H1 Hlt Hj Hi) as Hab.
      unfold apart in Hab. rewrite Qabs_pos by lra. lra.
Qed.

Lemma get_column_positions_invariant_witness :
  (0 <= 10)%Q /\
  StronglySorted Qlt (get_column_positions [box 12; box 0; box 5; box 30] 10).
Proof.
  assert (H : (0 <= 10)%Q) by (unfold Qle; simpl; lia).
  split; [exact H|].
  exact (proj1 (get_column_positions_invariant [box 12; box 0; box 5; box 30] 10 H)).
Defined.

(** C9 as amended.  The left edges are sorted before they are clustered, so
    the result does not depend on the order of the input: boxes given in
    two different orders yield the same columns.  Each column is the left
    edge of an input box, not a centroid, and (for a non-negative
    tolerance) every left edge lies at most the tolerance above some
    column: a cluster is represented by its smallest member. *)
Theorem get_column_positions_order_insensitive
    (bboxes bboxes' : list BBox) (tolerance : Q) :
  bboxes ≡ₚ bboxes' ->
  Qeq_list (get_column_positions bboxes tolerance)
           (get_column_positions bboxes' tolerance)
  /\ (forall c, c ∈ get_column_positions bboxes tolerance ->
                exists b, b ∈ bboxes /\ bx0 b = c)
  /\ ((0 <= tolerance)%Q ->
      forall b, b ∈ bboxes ->
        exists c, c ∈ get_column_positions bboxes tolerance
                  /\ (c <= bx0 b)%Q /\ (bx0 b - c <= tolerance)%Q).
Proof.
  intros HP. split; [by apply get_column_positions_Permutation|]. split.
  - intros c Hc%get_column_positions_members.
    apply list_elem_of_fmap in Hc as (b & -> & Hb). eauto.
  - intros Htol b Hb. apply get_column_positions_covers; [done|].
    apply list_elem_of_fmap. eauto.
Qed.

Lemma get_column_positions_order_insensitive_witness :
  Qeq_list (get_column_positions [box 12; box 0] 10)
           (get_column_positions [box 0; box 12] 10).
Proof.
  refine (proj1 (get_column_positions_order_insensitive
                   [box 12; box 0] [box 0; box 12] 10 _)).
  apply perm_swap.
Defined.

(** C9 as stated fails: no two permuted inputs give different outputs. *)
Lemma get_column_positions_order_sensitive_refuted :
  ~ (exists (bboxes bboxes' : list BBox) (tolerance : Q),
        bboxes ≡ₚ bboxes' /\
        ~ Qeq_list (get_column_positions bboxes tolerance)
                   (get_column_positions bboxes' tolerance)).
Proof.
  intros (bboxes & bboxes' & tol & HP & Hne).
  apply Hne. by apply get_column_positions_Permutation.
Qed.

End GeometryFacts.

(* ===================================================================== *)
(** * Merging two tables, and the merge test *)
(* ===================================================================== *)

Module TableMergeFacts.
Import TableMerge PyFacts Spec.

Lemma min_Qmin a b : (Py.min a b == Qmin a b)%Q.
Proof.
  unfold Py.min. destruct (Qlt_le_dec b a) as [H|H].
  - symmetry. apply Q.min_r. lra.
  - symmetry. by apply Q.min_l.
Qed.

Lemma max_Qmax a b : (Py.max a b == Qmax a b)%Q.
Proof.
  unfold Py.max. destruct (Qlt_le_dec a b) as [H|H].
  - symmetry. apply Q.max_r. lra.
  - symmetry. by apply Q.max_l.
Qed.

(** C3.  [merge_tables_if_compatible] puts the table with the smaller or
    equal [page_start] first; the rows are the first table's followed by
    the second's, the columns and x-coordinates are the first table's
    unless empty, the page range goes from the smaller start to the larger
    end, and the bounding box is the component-wise minimum and maximum. *)
Theorem merge_tables_if_compatible_spec (t1 t2 : TableBlock) :
  let first := if page_start t1 <=? page_start t2 then t1 else t2 in
  let second := if page_start t1 <=? page_start t2 then t2 else t1 in
  let m := merge_tables_if_compatible t1 t2 in
  page_start first <= page_start second
  /\ rows m = rows first ++ rows second
  /\ columns m = (if decide (columns first = []) then columns second else columns first)
  /\ page_start m = Z.min (page_start t1) (page_start t2)
  /\ page_end m = Z.max (page_end t1) (page_end t2)
  /\ (bx0 (bbox m) == Qmin (bx0 (bbox t1)) (bx0 (bbox t2)))%Q
  /\ (by0 (bbox m) == Qmin (by0 (bbox t1)) (by0 (bbox t2)))%Q
  /\ (bx1 (bbox m) == Qmax (bx1 (bbox t1)) (bx1 (bbox t2)))%Q
  /\ (by1 (bbox m) == Qmax (by1 (bbox t1)) (by1 (bbox t2)))%Q
  /\ x_coordinates m =
       (if decide (x_coordinates first = [])
        then x_coordinates second else x_coordinates first).
Proof.
  unfold merge_tables_if_compatible.
  destruct (Z.leb_spec (page_start t1) (page_start t2)) as [Hle|Hlt]; simpl.
  - repeat split; try done; try lia.
    + by destruct (columns t1).
    + apply min_Qmin.
    + apply min_Qmin.
    + apply max_Qmax.
    + apply max_Qmax.
    + by destruct (x_coordinates t1).
  - repeat split; try done; try lia.
    + by destruct (columns t2).
    + rewrite min_Qmin. apply Q.min_comm.
    + rewrite min_Qmin. apply Q.min_comm.
    + rewrite max_Qmax. apply Q.max_comm.
    + rewrite max_Qmax. apply Q.max_comm.
    + by destruct (x_coordinates t2).
Qed.

Section WithUnicode.
Context {U : Py.Unicode}.

(** ** The header similarity *)

Lemma compare_headers_same h1 h2 :
  TableBuffer._compare_headers h1 h2 = compare_headers h1 h2.
Proof. reflexivity. Qed.

Lemma matches_positions h1 h2 :
  length h1 = length h2 ->
  length (List.filter header_match (combine h1 h2))
  = length (List.filter (agree_at h1 h2) (seq 0 (length h1))).
Proof.
  intros Hlen. rewrite filter_combine_positions, <- Hlen, Nat.min_id. done.
Qed.

Lemma compare_headers_similarity h1 h2 :
  h1 <> [] -> compare_headers h1 h2 = header_similarity h1 h2.
Proof.
  intros Hne. unfold compare_headers, header_similarity.
  destruct (Nat.eqb_spec (length h1) (length h2)) as [Hlen|Hlen]; simpl.
  - rewrite decide_True by done. apply nonempty_true in Hne. rewrite Hne.
    by rewrite matches_positions.
  - by rewrite decide_False.
Qed.

(** ** The four checks *)

Lemma first_row_fits_spec t1 t2 :
  first_row_fits t1 t2 = true <-> first_row_has t1 (length (columns t2)).
Proof.
  unfold first_row_fits, first_row_has. destruct (rows t1) as [|row0 rs]; simpl.
  - split; [done|]. by intros (row & ? & _).
  - rewrite Nat.eqb_eq. split.
    + intros H. by exists row0.
    + by intros (row & [= <-] & H).
Qed.

Lemma column_counts_ok_spec t1 t2 :
  column_counts_ok t1 t2 = true <-> column_counts_compatible t1 t2.
Proof.
  unfold column_counts_ok, column_counts_compatible.
  rewrite <- !first_row_fits_spec.
  destruct (Nat.eqb_spec (length (columns t1)) (length (columns t2))); simpl.
  - tauto.
  - destruct (first_row_fits t1 t2), (first_row_fits t2 t1); intuition congruence.
Qed.

Lemma all_within tol xs ys :
  length xs = length ys ->
  forallb (fun p => negb (Py.ltb tol (Qabs (fst p - snd p)))) (combine xs ys) = true
  <-> Forall2 (fun a b => (Qabs (a - b) <= tol)%Q) xs ys.
Proof.
  revert ys. induction xs as [|x xs IH]; intros [|y ys] Hlen; try done.
  injection Hlen as Hlen. cbn [combine forallb fst snd].
  rewrite andb_true_iff, negb_true_iff, ltb_ge, IH by done.
  split.
  - intros [Hxy Hall]. constructor; [exact Hxy|exact Hall].
  - intros H. inversion H; subst. split; assumption.
Qed.

Lemma alignment_ok_spec tol t1 t2 :
  alignment_ok tol t1 t2 = true <-> coordinates_aligned tol t1 t2.
Proof.
  unfold alignment_ok, coordinates_aligned.
  destruct (x_coordinates t1) as [|x xs] eqn:E1; simpl; [by split|].
  destruct (x_coordinates t2) as [|y ys] eqn:E2; simpl; [by split|].
  destruct (Nat.eqb_spec (length xs) (length ys)) as [Hlen|Hlen]; simpl.
  - rewrite (all_within tol (x :: xs) (y :: ys)) by (simpl; congruence).
    split.
    + intros H _ _. split; [congruence|done].
    + intros H. by apply H.
  - split; [done|]. intros H. destruct H as [H _]; [done|done|]. congruence.
Qed.

Lemma headers_ok_spec t1 t2 :
  headers_ok t1 t2 = true <-> headers_similar t1 t2.
Proof.
  unfold headers_ok, headers_similar.
  destruct (columns t1) as [|a h1] eqn:E1; simpl; [by split|].
  destruct (columns t2) as [|b h2] eqn:E2; simpl; [by split|].
  rewrite negb_true_iff, ltb_ge, compare_headers_similarity by done.
  split; [by intros H _ _|]. intros H. by apply H.
Qed.

Lemma can_merge_tables_checks t1 t2 :
  TableBuffer._can_merge_tables t1 t2 =
  (Z.abs (page_start t2 - page_end t1) <=? 1)
  && column_counts_ok t1 t2 && alignment_ok 10 t1 t2 && headers_ok t1 t2.
Proof.
  unfold TableBuffer._can_merge_tables, headers_ok.
  rewrite compare_headers_same, Z.leb_antisym.
  destruct (1 <? _); simpl; [done|].
  destruct (column_counts_ok t1 t2); simpl; [|done].
  destruct (alignment_ok 10 t1 t2); simpl; [|done].
  destruct (Py.nonempty (columns t1) && Py.nonempty (columns t2)); [|done].
  by destruct (Py.ltb _ _).
Qed.

Lemma is_table_continuation_default t1 t2 :
  is_table_continuation t1 t2 1 10 = TableBuffer._can_merge_tables t1 t2.
Proof.
  rewrite can_merge_tables_checks. unfold is_table_continuation.
  rewrite Z.leb_antisym.
  destruct (1 <? _); simpl; [done|].
  destruct (column_counts_ok t1 t2); simpl; [|done].
  destruct (alignment_ok 10 t1 t2); simpl; [|done].
  by destruct (headers_ok t1 t2).
Qed.

Lemma can_merge_tables_spec t1 t2 :
  TableBuffer._can_merge_tables t1 t2 = true <-> can_merge t1 t2.
Proof.
  rewrite can_merge_tables_checks. unfold can_merge, page_gap_ok.
  rewrite !andb_true_iff, Z.leb_le, column_counts_ok_spec,
    alignment_ok_spec, headers_ok_spec.
  tauto.
Qed.

(** ** Headers of the Latin-1 range *)

(** What holds of every character of a text holds of the stripped text. *)
Lemma drop_spaces_Forall (P : N -> Prop) l : Forall P l -> Forall P (Py.drop_spaces l).
Proof.
  induction 1 as [|c l Hc Hl IH]; simpl; [constructor|].
  destruct (Py.isspace c); [done|by constructor].
Qed.

Lemma strip_Forall (P : N -> Prop) s : Forall P s -> Forall P (Py.strip s).
Proof.
  intros H. unfold Py.strip.
  by apply Forall_rev, drop_spaces_Forall, Forall_rev, drop_spaces_Forall.
Qed.

Lemma same_header_latin1 a b :
  Py.latin1 a -> Py.latin1 b ->
  (same_header a b = true
   <-> map Py.latin1_lower (Py.strip a) = map Py.latin1_lower (Py.strip b)).
Proof.
  intros Ha Hb. unfold same_header. rewrite bool_decide_eq_true.
  by rewrite !Py.lower_latin1 by (by apply strip_Forall).
Qed.

(** On Latin-1 headers the tests do not depend on the rest of the table. *)
Lemma header_match_table p :
  Py.latin1 (fst p) -> Py.latin1 (snd p) ->
  header_match p = header_match (U := Py.latin1_only) p.
Proof.
  intros Ha Hb. unfold header_match.
  by rewrite !Py.lower_latin1 by (by apply strip_Forall).
Qed.

Lemma matches_table h1 : forall h2,
  Forall Py.latin1 h1 -> Forall Py.latin1 h2 ->
  List.filter header_match (combine h1 h2)
  = List.filter (header_match (U := Py.latin1_only)) (combine h1 h2).
Proof.
  induction h1 as [|a h1 IH]; intros [|b h2] H1 H2; simpl; try done.
  apply Forall_cons in H1 as [Ha H1]. apply Forall_cons in H2 as [Hb H2].
  rewrite (header_match_table (a, b)) by done. by rewrite IH.
Qed.

Lemma compare_headers_table h1 h2 :
  Forall Py.latin1 h1 /\ Forall Py.latin1 h2 ->
  compare_headers h1 h2 = compare_headers (U := Py.latin1_only) h1 h2.
Proof.
  intros [H1 H2]. unfold compare_headers. by rewrite matches_table.
Qed.

Lemma can_merge_tables_table t1 t2 :
  Forall Py.latin1 (columns t1) /\ Forall Py.latin1 (columns t2) ->
  TableBuffer._can_merge_tables t1 t2
  = TableBuffer._can_merge_tables (U := Py.latin1_only) t1 t2.
Proof.
  intros H. unfold TableBuffer._can_merge_tables, TableBuffer._compare_headers.
  by rewrite matches_table by apply H.
Qed.

(** C1.  Both merge tests ([TableBuffer._can_merge_tables] and
    [is_table_continuation] with its default gap 1 and tolerance 10) accept
    a pair of tables exactly when the page gap is at most 1 in absolute
    value, the column counts are compatible, the x-coordinates (when both
    tables have some) are equally many and pairwise within 10 units, and
    the headers (when both tables have some) agree at a rate of at least
    0.7; header lists of unequal length have similarity 0, and a similarity
    of exactly 0.7 passes.  Two headers agree when they are equal once
    stripped and lowered; on the Latin-1 range the lowering is that of the
    capitals A to Z and of the accented capitals, so that headers in
    capitals with accents agree with the same headers in small letters;
    seven agreeing headers of ten pass the test and six do not. *)
Theorem can_merge_tables_iff (t1 t2 : TableBlock) :
  (TableBuffer._can_merge_tables t1 t2 = true <->
     Z.abs (page_start t2 - page_end t1) <= 1
     /\ (length (columns t1) = length (columns t2)
         \/ (exists row, head (rows t1) = Some row
                         /\ length row = length (columns t2))
         \/ (exists row, head (rows t2) = Some row
                         /\ length row = length (columns t1)))
     /\ (x_coordinates t1 <> [] -> x_coordinates t2 <> [] ->
         length (x_coordinates t1) = length (x_coordinates t2)
         /\ Forall2 (fun a b => (Qabs (a - b) <= 10)%Q)
                    (x_coordinates t1) (x_coordinates t2))
     /\ (columns t1 <> [] -> columns t2 <> [] ->
         (7 # 10 <= header_similarity (columns t1) (columns t2))%Q))
  /\ is_table_continuation t1 t2 1 10 = TableBuffer._can_merge_tables t1 t2
  /\ (columns t1 <> [] ->
      TableBuffer._compare_headers (columns t1) (columns t2)
      = header_similarity (columns t1) (columns t2))
  /\ (length (columns t1) <> length (columns t2) ->
      header_similarity (columns t1) (columns t2) = 0%Q)
  /\ ((header_similarity (columns t1) (columns t2) == 7 # 10)%Q ->
      TableBuffer._can_merge_tables t1 t2
      = (Z.abs (page_start t2 - page_end t1) <=? 1)
        && column_counts_ok t1 t2 && alignment_ok 10 t1 t2)
  /\ (forall a b : str,
        same_header a b = true
        <-> Py.lower (Py.strip a) = Py.lower (Py.strip b))
  /\ (forall a b : str,
        Py.latin1 a -> Py.latin1 b ->
        (same_header a b = true
         <-> map Py.latin1_lower (Py.strip a) = map Py.latin1_lower (Py.strip b)))
  /\ (header_similarity Sample.capitals Sample.smalls == 1)%Q
  /\ (header_similarity Sample.ten Sample.seven_of_ten == 7 # 10)%Q
  /\ TableBuffer._can_merge_tables (Sample.headed 1 Sample.ten)
                                   (Sample.headed 2 Sample.seven_of_ten) = true
  /\ TableBuffer._can_merge_tables (Sample.headed 1 Sample.ten)
                                   (Sample.headed 2 Sample.six_of_ten) = false.
Proof.
  split; [apply can_merge_tables_spec|].
  split; [apply is_table_continuation_default|].
  split; [apply compare_headers_similarity|].
  split.
  { intros Hlen. unfold header_similarity. by rewrite decide_False. }
  split.
  { intros Hsim. rewrite can_merge_tables_checks.
    assert (headers_ok t1 t2 = true) as ->; [|by rewrite andb_true_r].
    apply headers_ok_spec. intros _ _. rewrite Hsim. apply Qle_refl. }
  split; [intros a b; apply bool_decide_eq_true|].
  split; [apply same_header_latin1|].
  split.
  { rewrite <- compare_headers_similarity by done.
    rewrite compare_headers_table by latin1_texts. by vm_compute. }
  split.
  { rewrite <- compare_headers_similarity by done.
    rewrite compare_headers_table by latin1_texts. by vm_compute. }
  split.
  - rewrite can_merge_tables_table by latin1_texts. by vm_compute.
  - rewrite can_merge_tables_table by latin1_texts. by vm_compute.
Qed.

End WithUnicode.

End TableMergeFacts.

(* ===================================================================== *)
(** * Page classifier *)
(* ===================================================================== *)

Module PageClassifierFacts.
Import PageClassifier PyFacts Spec.

(** ** Scan detection *)

Section WithUnicode.
Context {U : Py.Unicode}.

Lemma special_char_spec c : special_char c = true <-> special c.
Proof.
  unfold special_char, special.
  rewrite andb_true_iff, !negb_true_iff, N.eqb_neq. done.
Qed.

Lemma count_special raw_text :
  length (List.filter special_char raw_text) = length (filter special raw_text).
Proof.
  induction raw_text as [|c l IH]; [done|]. cbn [List.filter].
  destruct (special_char c) eqn:E.
  - rewrite filter_cons_True by (by apply special_char_spec). simpl. by rewrite IH.
  - rewrite filter_cons_False; [done|].
    rewrite <- special_char_spec. by rewrite E.
Qed.

Lemma special_chars_ratio_fraction raw_text :
  special_chars_ratio raw_text = special_fraction raw_text.
Proof.
  unfold special_chars_ratio, special_fraction. rewrite count_special.
  destruct raw_text as [|c chars]; [reflexivity|].
  by rewrite Nat.max_l by (simpl; lia).
Qed.

(** On a text of the Latin-1 range the ratio does not depend on the rest
    of the table. *)
Lemma special_chars_ratio_table raw_text :
  Py.latin1 raw_text ->
  special_chars_ratio raw_text = special_chars_ratio (U := Py.latin1_only) raw_text.
Proof.
  intros H. unfold special_chars_ratio.
  assert (List.filter special_char raw_text
          = List.filter (special_char (U := Py.latin1_only)) raw_text) as ->; [|done].
  induction H as [|c l Hc _ IH]; simpl; [done|].
  rewrite IH. unfold special_char. by rewrite !Py.isalnum_latin1 by done.
Qed.

(** C5.  [determine_if_scan] answers [true] exactly when the character count
    is below 10, or the density is below 0.05 and the page has an image, or
    the density is below 0.1 and more than 0.3 of the raw text is special
    characters; a character count below 10 alone decides.  The special
    characters are those that are neither letters or digits nor the space:
    on the Latin-1 range an accented letter is not special, and a text of
    two [é] at density 0.09 is not a scan. *)
Theorem determine_if_scan_iff {P : Type} (char_count : Z) (text_density : Q)
    (image_count : Z) (drawing_paths : list P) (raw_text : str) :
  (determine_if_scan char_count text_density image_count drawing_paths raw_text = true
   <-> char_count < 10
       \/ ((text_density < 5 # 100)%Q /\ 0 < image_count)
       \/ ((text_density < 1 # 10)%Q /\ (3 # 10 < special_fraction raw_text)%Q))
  /\ (char_count < 10 ->
      forall (density' : Q) (images' : Z) (paths' : list P) (text' : str),
        determine_if_scan char_count density' images' paths' text' = true)
  /\ (forall c : N,
        (c < 256)%N -> (special c <-> Py.latin1_isalnum c = false /\ c <> 32%N))
  /\ (special_fraction [233; 233]%N == 0)%Q
  /\ (special_fraction (Py.lit "a, b!") == 2 # 5)%Q
  /\ determine_if_scan 10 (9 # 100) 0 drawing_paths [233; 233]%N = false.
Proof.
  split; [|split; [|split; [|split; [|split]]]].
  - unfold determine_if_scan. rewrite special_chars_ratio_fraction.
    destruct (Z.ltb_spec char_count 10) as [Hc|Hc]; [tauto|].
    destruct (Py.ltb text_density (5 # 100)) eqn:Hd5.
    + apply ltb_lt in Hd5.
      destruct (Z.ltb_spec 0 image_count) as [Hi|Hi]; simpl; [tauto|].
      assert (Hd1 : Py.ltb text_density (1 # 10) = true) by (apply ltb_lt; lra).
      rewrite Hd1. simpl.
      destruct (Py.ltb (3 # 10) (special_fraction raw_text)) eqn:Hs.
      * apply ltb_lt in Hs. split; [|done]. intros _. right; right. split; [lra|done].
      * apply ltb_ge in Hs. split; [done|].
        intros [?|[[_ ?]|[_ ?]]]; [lia|lia|lra].
    + apply ltb_ge in Hd5. simpl.
      destruct (Py.ltb text_density (1 # 10)) eqn:Hd1; simpl.
      * apply ltb_lt in Hd1.
        destruct (Py.ltb (3 # 10) (special_fraction raw_text)) eqn:Hs.
        -- apply ltb_lt in Hs. split; [|done]. intros _. right; right. by split.
        -- apply ltb_ge in Hs. split; [done|].
           intros [?|[[? _]|[_ ?]]]; [lia|lra|lra].
      * apply ltb_ge in Hd1. split; [done|].
        intros [?|[[? _]|[? _]]]; [lia|lra|lra].
  - intros Hc density' images' paths' text'. unfold determine_if_scan.
    by destruct (Z.ltb_spec char_count 10); [|lia].
  - intros c Hc. unfold special. by rewrite Py.isalnum_latin1.
  - rewrite <- special_chars_ratio_fraction.
    rewrite special_chars_ratio_table by latin1_texts. by vm_compute.
  - rewrite <- special_chars_ratio_fraction.
    rewrite special_chars_ratio_table by latin1_texts. by vm_compute.
  - unfold determine_if_scan.
    rewrite special_chars_ratio_table by latin1_texts. by vm_compute.
Qed.

End WithUnicode.

(** ** Table detection *)

Lemma tally_count_span cc sp b :
  tally (count_span cc sp) b
  = (tally cc b + if (round_to_ten (fst sp) =? b)%Z then 1 else 0)%nat.
Proof.
  unfold tally, count_span.
  destruct (Z.eqb_spec (round_to_ten sp.1) b) as [->|Hne].
  - destruct (cc !! b) as [n|] eqn:E.
    + rewrite lookup_alter_eq, E. simpl. lia.
    + rewrite lookup_alter_eq, lookup_insert_eq. simpl. lia.
  - destruct (cc !! round_to_ten sp.1) as [n|] eqn:E.
    + rewrite lookup_alter_ne by done. lia.
    + rewrite lookup_alter_ne, lookup_insert_ne by done. lia.
Qed.

Lemma tally_spans sps cc b :
  tally (fold_left count_span sps cc) b
  = (tally cc b
     + length (List.filter (fun sp => (round_to_ten (fst sp) =? b)%Z) sps))%nat.
Proof.
  revert cc. induction sps as [|sp sps IH]; intros cc; simpl; [lia|].
  rewrite IH, tally_count_span. destruct (_ =? b); simpl; lia.
Qed.

Lemma tally_lines lines cc b :
  tally (fold_left count_line lines cc) b
  = (tally cc b
     + length (List.filter (fun sp => (round_to_ten (fst sp) =? b)%Z)
                           (flat_map li_spans lines)))%nat.
Proof.
  revert cc. induction lines as [|line lines IH]; intros cc; simpl; [lia|].
  rewrite IH. unfold count_line. rewrite tally_spans.
  rewrite List.filter_app, length_app. lia.
Qed.

(** The collected [line_info]s are the qualifying lines. *)
Lemma collect_lines_qualifying blocks :
  collect_lines blocks = map info_of (qualifying_lines blocks).
Proof.
  unfold collect_lines, qualifying_lines, all_lines.
  induction blocks as [|block blocks IH]; simpl; [done|].
  rewrite List.filter_app, map_app, IH. f_equal.
  destruct (block_lines block) as [lines|]; simpl; [|done].
  induction lines as [|line lines IHl]; simpl; [done|].
  rewrite IHl. unfold line_info_of.
  destruct (line_spans line) as [|s1 [|s2 spans]] eqn:E; simpl; try done.
  unfold info_of. by rewrite E.
Qed.

Lemma runs_collected lines b :
  length (List.filter (fun sp => (round_to_ten (fst sp) =? b)%Z)
                      (flat_map li_spans (map info_of lines)))
  = runs_in_bin lines b.
Proof.
  unfold runs_in_bin. induction lines as [|line lines IH]; simpl; [done|].
  rewrite !List.filter_app, !length_app, IH. f_equal.
  induction (line_spans line) as [|sp sps IHs]; simpl; [done|].
  unfold in_bin at 1, bin_of. destruct (_ =? b); simpl; by rewrite IHs.
Qed.

(** Two or more entries of the dictionary reach the count 3. *)
Lemma frequent_columns_two cc :
  (2 <= frequent_columns cc)%nat <-> two_frequent_bins (tally cc).
Proof.
  unfold frequent_columns, two_frequent_bins, tally.
  set (f := fun kv : Z * nat => (3 <=? snd kv)%nat).
  assert (Hin : forall k v, (k, v) ∈ List.filter f (map_to_list cc)
                            <-> cc !! k = Some v /\ (3 <= v)%nat).
  { intros k v. rewrite list_elem_of_In, filter_In, <- list_elem_of_In.
    rewrite elem_of_map_to_list. unfold f. cbn [snd]. by rewrite Nat.leb_le. }
  assert (Hnd : NoDup (List.filter f (map_to_list cc))).
  { apply NoDup_ListNoDup, List.NoDup_filter, NoDup_ListNoDup, NoDup_map_to_list. }
  split.
  - destruct (List.filter f (map_to_list cc)) as [|[k1 v1] [|[k2 v2] l]] eqn:E;
      simpl; try lia.
    intros _. exists k1, k2.
    assert (H1 : (k1, v1) ∈ (k1, v1) :: (k2, v2) :: l) by left.
    assert (H2 : (k2, v2) ∈ (k1, v1) :: (k2, v2) :: l) by (right; left).
    apply Hin in H1 as [H1 ?]. apply Hin in H2 as [H2 ?].
    rewrite H1, H2. simpl. split; [|done].
    intros ->. rewrite H1 in H2. injection H2 as ->.
    apply NoDup_cons in Hnd as [Hnd _]. apply Hnd. left.
  - intros (b1 & b2 & Hne & H1 & H2).
    destruct (cc !! b1) as [v1|] eqn:E1; simpl in H1; [|lia].
    destruct (cc !! b2) as [v2|] eqn:E2; simpl in H2; [|lia].
    assert (Hb1 : (b1, v1) ∈ List.filter f (map_to_list cc)) by by apply Hin.
    assert (Hb2 : (b2, v2) ∈ List.filter f (map_to_list cc)) by by apply Hin.
    destruct (List.filter f (map_to_list cc)) as [|p [|q l]]; simpl; try lia.
    + by apply elem_of_nil in Hb1.
    + apply list_elem_of_singleton in Hb1, Hb2. congruence.
Qed.

Lemma tally_runs lines b :
  tally (fold_left count_line (map info_of lines) ∅) b = runs_in_bin lines b.
Proof.
  rewrite tally_lines, runs_collected. unfold tally. by rewrite lookup_empty.
Qed.

Lemma detect_table_structure_by_runs blocks :
  detect_table_structure blocks = true <-> has_table_by_runs blocks.
Proof.
  unfold detect_table_structure, has_table_by_runs.
  rewrite collect_lines_qualifying, length_map.
  destruct (Nat.ltb_spec (length (qualifying_lines blocks)) 3) as [Hlt|Hge].
  - split; [done|]. intros [? _]. lia.
  - rewrite Nat.leb_le, frequent_columns_two. unfold two_frequent_bins.
    split.
    + intros (b1 & b2 & Hne & H1 & H2). rewrite tally_runs in H1, H2. eauto 6.
    + intros [_ (b1 & b2 & Hne & H1 & H2)]. exists b1, b2.
      by rewrite !tally_runs.
Qed.

Lemma crowded_page_no_bin_in_three_lines :
  ~ has_table_by_lines Sample.crowded_page.
Proof.
  intros [_ (b1 & _ & _ & H1 & _)].
  revert H1. unfold lines_with_bin. cbn.
  unfold in_bin, bin_of. cbn [Sample.run Sample.box span_bbox bx0].
  change (round_to_ten 500) with 500. change (round_to_ten 600) with 600.
  change (round_to_ten 700) with 700. change (round_to_ten 800) with 800.
  destruct (Z.eqb_spec 500 b1) as [<-|?]; [vm_compute; lia|].
  destruct (Z.eqb_spec 600 b1) as [<-|?]; [vm_compute; lia|].
  cbn [orb].
  repeat match goal with |- context [if ?c then _ else _] => destruct c end;
    simpl; lia.
Qed.

Example detect_table_page : detect_table_structure Sample.table_page = true.
Proof. by vm_compute. Qed.

(** C4.  The classifier reports a table exactly when at least three lines
    hold two or more runs and at least two distinct 10-unit bins each hold
    three or more runs of those lines; a page with fewer than three such
    lines never has a table.  The bins are counted run by run and not line
    by line: on the crowded page every bin occurs in one line only, and a
    table is reported all the same. *)
Theorem detect_table_structure_counts_runs :
  (forall blocks : list Block,
      detect_table_structure blocks = true <->
      (3 <= length (qualifying_lines blocks))%nat
      /\ exists b1 b2 : Z,
           b1 <> b2
           /\ (3 <= runs_in_bin (qualifying_lines blocks) b1)%nat
           /\ (3 <= runs_in_bin (qualifying_lines blocks) b2)%nat)
  /\ (forall blocks : list Block,
        (length (qualifying_lines blocks) <= 2)%nat ->
        detect_table_structure blocks = false)
  /\ detect_table_structure Sample.crowded_page = true
  /\ ~ has_table_by_lines Sample.crowded_page.
Proof.
  split; [apply detect_table_structure_by_runs|]. split.
  - intros blocks Hle. apply not_true_iff_false.
    rewrite detect_table_structure_by_runs. intros [? _]. lia.
  - split; [by vm_compute|apply crowded_page_no_bin_in_three_lines].
Qed.

End PageClassifierFacts.

(* ===================================================================== *)
(** * Table area detector *)
(* ===================================================================== *)

Module TableExtractorFacts.
Import TableExtractor PyFacts Spec.

Lemma count_matches_matched tol line1 line2 :
  count_matches tol (line_spans line1) (line_spans line2)
  = matched_runs tol line1 line2.
Proof. unfold count_matches. by rewrite filter_combine_positions. Qed.

(** What the grouping predicate computes: the threshold is the half of the
    shorter run count rounded down. *)
Lemma lines_align_as_table_floor line1 line2 tol :
  lines_align_as_table line1 line2 tol = true <->
  Z.abs (Z.of_nat (length (line_spans line1)) - Z.of_nat (length (line_spans line2))) <= 1
  /\ (Nat.min (length (line_spans line1)) (length (line_spans line2)) / 2
      <= matched_runs tol line1 line2)%nat.
Proof.
  unfold lines_align_as_table. rewrite count_matches_matched.
  destruct (Z.ltb_spec 1 (Z.abs (Z.of_nat (length (line_spans line1))
                                 - Z.of_nat (length (line_spans line2)))))
    as [Hgt|Hle].
  - split; [done|]. intros [? _]. lia.
  - rewrite Nat.leb_le. tauto.
Qed.

(** C6.  The grouping predicate asks for the run counts to differ by at
    most one and for the aligned position-matched runs to reach half of the
    shorter run count rounded down; so two one-run lines a hundred units
    apart, none of whose runs is aligned, are put in the same group,
    although less than half of their matched runs are aligned. *)
Theorem lines_align_as_table_below_half :
  (forall (line1 line2 : Line) (tolerance : Q),
      lines_align_as_table line1 line2 tolerance = true <->
      Z.abs (Z.of_nat (length (line_spans line1))
             - Z.of_nat (length (line_spans line2))) <= 1
      /\ (Nat.min (length (line_spans line1)) (length (line_spans line2)) / 2
          <= matched_runs tolerance line1 line2)%nat)
  /\ lines_align_as_table Sample.lone_left Sample.lone_right default_tolerance = true
  /\ group_lines_into_tables [Sample.lone_left; Sample.lone_right]
     = [[Sample.lone_left; Sample.lone_right]]
  /\ matched_runs default_tolerance Sample.lone_left Sample.lone_right = 0%nat
  /\ ~ same_group default_tolerance Sample.lone_left Sample.lone_right.
Proof.
  split; [apply lines_align_as_table_floor|].
  split; [by vm_compute|]. split; [by vm_compute|]. split; [by vm_compute|].
  intros [_ H]. vm_compute in H. lia.
Qed.

(** When the shorter line has an even number of runs the predicate is the
    one the specification words. *)
Lemma lines_align_as_table_even line1 line2 tol :
  Nat.Even (Nat.min (length (line_spans line1)) (length (line_spans line2))) ->
  lines_align_as_table line1 line2 tol = true <-> same_group tol line1 line2.
Proof.
  intros [k Hk]. rewrite lines_align_as_table_floor. unfold same_group.
  rewrite Hk. replace (2 * k / 2)%nat with k by (rewrite Nat.mul_comm, Nat.div_mul; lia).
  split; intros [? ?]; (split; [done|lia]).
Qed.

End TableExtractorFacts.

(* ===================================================================== *)
(** * Table buffer *)
(* ===================================================================== *)

Module TableBufferFacts.
Import TableBuffer TableMerge PyFacts TableMergeFacts Spec.

(** ** The store *)

Lemma deref_Some σ l t : σ !! l = Some t -> deref σ l = t.
Proof. unfold deref. by intros ->. Qed.

Lemma deref_old σ ext l : (l < length σ)%nat -> deref (σ ++ ext) l = deref σ l.
Proof. intros Hl. unfold deref. by rewrite lookup_app_l. Qed.

Lemma deref_new σ t : deref (σ ++ [t]) (length σ) = t.
Proof. unfold deref. by rewrite list_lookup_middle. Qed.

(** ** Normalisation *)

Lemma normalize_table_rows table :
  merged_rows (normalize_table table)
  = map (map Py.strip)
        (List.filter (fun row => negb (blank_row row)) (merged_rows table)).
Proof.
  unfold normalize_table. simpl.
  induction (merged_rows table) as [|row rs IH]; simpl; [done|].
  rewrite IH. unfold blank_row.
  assert (forallb (fun cell => negb (Py.truthy (Py.strip cell))) row
          = negb (existsb (fun cell => Py.truthy (Py.strip cell)) row)) as ->.
  { induction row as [|cell row IHr]; simpl; [done|].
    rewrite IHr. by destruct (Py.truthy (Py.strip cell)). }
  rewrite negb_involutive. by destruct (existsb _ row).
Qed.

(** The sibling normaliser of [table_merge.py] strips the headers. *)
Lemma normalize_merged_table_columns t :
  columns (normalize_merged_table t) = map Py.strip (columns t).
Proof. reflexivity. Qed.

(** C7.  [normalize_table] strips every cell, drops the rows that are blank
    once stripped, keeps every cell of the rows it keeps, and leaves the
    page range and the original tables as they are; but it returns the
    headers as they came: the padded headers of the sample table are not
    stripped. *)
Theorem normalize_table_keeps_headers :
  (forall table : MergedTable,
      merged_rows (normalize_table table)
      = map (map Py.strip)
            (List.filter (fun row => negb (blank_row row)) (merged_rows table))
      /\ original_tables (normalize_table table) = original_tables table
      /\ page_range (normalize_table table) = page_range table
      /\ merged_columns (normalize_table table) = merged_columns table)
  /\ merged_columns (normalize_table Sample.padded)
     = map Py.lit [" name "; "qty  "]%string
  /\ map Py.strip (merged_columns Sample.padded) = map Py.lit ["name"; "qty"]%string
  /\ merged_rows (normalize_table Sample.padded)
     = map (map Py.lit) [["a"; "1"]; ["b"; "2"]]%string.
Proof.
  split.
  - intros table. split; [apply normalize_table_rows|]. by repeat split.
  - by vm_compute.
Qed.

Section WithUnicode.
Context {U : Py.Unicode}.

(** ** The sweep only allocates *)

Lemma absorb_extends rest : forall σ current,
  exists ext, fst (fst (absorb σ current rest)) = σ ++ ext.
Proof.
  induction rest as [|next rest IH]; intros σ current; simpl.
  - exists []. by rewrite app_nil_r.
  - destruct (_can_merge_tables _ _).
    + unfold alloc.
      destruct (IH (σ ++ [merge_tables_if_compatible (deref σ current) (deref σ next)])
                   (length σ)) as [ext Hext].
      destruct (absorb _ _ rest) as [[σ2 cur'] k]. simpl in *.
      exists ([merge_tables_if_compatible (deref σ current) (deref σ next)] ++ ext).
      by rewrite Hext, <- app_assoc.
    + exists []. by rewrite app_nil_r.
Qed.

(** A sweep that absorbs nothing leaves the store and the current table. *)
Lemma absorb_none σ current rest :
  snd (absorb σ current rest) = 0%nat -> absorb σ current rest = (σ, current, 0%nat).
Proof.
  destruct rest as [|next rest]; simpl; [done|].
  destruct (_can_merge_tables _ _); [|done].
  unfold alloc. by destruct (absorb _ _ rest) as [[σ2 cur'] k].
Qed.

Lemma absorb_count σ current rest : (snd (absorb σ current rest) <= length rest)%nat.
Proof.
  revert σ current. induction rest as [|next rest IH]; intros σ current; simpl; [done|].
  destruct (_can_merge_tables _ _); simpl; [|lia].
  unfold alloc.
  specialize (IH (σ ++ [merge_tables_if_compatible (deref σ current) (deref σ next)])
                 (length σ)).
  destruct (absorb _ _ rest) as [[σ2 cur'] k]. simpl in *. lia.
Qed.

Lemma merge_loop_extends sorted_tables : forall σ,
  exists ext, fst (merge_loop σ sorted_tables) = σ ++ ext.
Proof.
  induction sorted_tables as [sorted_tables IH] using (induction_ltof1 _ (@length loc)).
  intros σ. destruct sorted_tables as [|first rest]; simp merge_loop.
  - exists []. by rewrite app_nil_r.
  - simpl. destruct (absorb_extends rest σ first) as [ext1 H1].
    destruct (IH (drop (snd (absorb σ first rest)) rest)) with
      (σ := fst (fst (absorb σ first rest))) as [ext2 H2].
    { unfold ltof. rewrite length_drop. simpl. lia. }
    exists (ext1 ++ ext2). by rewrite H2, H1, <- app_assoc.
Qed.

Lemma merge_extends s :
  exists ext, objects (fst (merge s)) = objects s ++ ext.
Proof.
  unfold merge. destruct (tables s) as [|l ls] eqn:E.
  - exists []. by rewrite app_nil_r.
  - destruct (merge_loop_extends (Py.sorted (by_page_start (objects s)) (l :: ls))
                                 (objects s)) as [ext Hext].
    destruct (merge_loop _ _) as [σ merged]. simpl in *. by exists ext.
Qed.

Lemma merge_keeps s l t :
  objects s !! l = Some t -> objects (fst (merge s)) !! l = Some t.
Proof.
  intros Hl. destruct (merge_extends s) as [ext ->].
  rewrite lookup_app_l; [done|]. by eapply lookup_lt_Some.
Qed.

Lemma merge_tables s : tables (fst (merge s)) = tables s.
Proof.
  unfold merge. destruct (tables s) as [|l ls] eqn:E; [done|].
  by destruct (merge_loop _ _).
Qed.

(** A group of one candidate is the candidate as it is stored. *)
Lemma singleton_of_old σ ext c :
  (c < length σ)%nat -> singleton_of (σ ++ ext) c = singleton_of σ c.
Proof. intros Hc. unfold singleton_of. by rewrite deref_old. Qed.

Lemma merge_loop_singletons sorted_tables : forall σ m c,
  Forall (fun l => (l < length σ)%nat) sorted_tables ->
  m ∈ snd (merge_loop σ sorted_tables) -> original_tables m = [c] ->
  c ∈ sorted_tables /\ m = singleton_of σ c.
Proof.
  induction sorted_tables as [sorted_tables IH] using (induction_ltof1 _ (@length loc)).
  intros σ m c Hvalid. destruct sorted_tables as [|first rest]; simp merge_loop.
  - intros Hm. by apply elem_of_nil in Hm.
  - simpl. intros Hm Hc. apply Forall_cons_1 in Hvalid as [Hfirst Hrest].
    apply elem_of_cons in Hm as [->|Hm].
    + unfold group_result in Hc. simpl in Hc.
      pose proof (absorb_count σ first rest) as Hk.
      destruct (snd (absorb σ first rest)) as [|k] eqn:Ek.
      * apply absorb_none in Ek. injection Hc as <-. rewrite Ek. simpl.
        split; [left|done].
      * destruct rest as [|next rest]; simpl in *; [lia|done].
    + destruct (absorb_extends rest σ first) as [ext Hext].
      destruct (IH (drop (snd (absorb σ first rest)) rest)) with
        (σ := fst (fst (absorb σ first rest))) (m := m) (c := c) as [Hin ->];
        try done.
      * unfold ltof. rewrite length_drop. simpl. lia.
      * rewrite Hext. apply Forall_drop. eapply Forall_impl; [exact Hrest|].
        intros l Hl. simpl in Hl. rewrite length_app. lia.
      * split.
        -- right. revert Hin. apply subseteq_drop.
        -- rewrite Hext. apply singleton_of_old.
           rewrite Forall_forall in Hrest. apply Hrest.
           revert Hin. apply subseteq_drop.
Qed.

Lemma merge_singletons s m c :
  Forall (fun l => (l < length (objects s))%nat) (tables s) ->
  m ∈ snd (merge s) -> original_tables m = [c] ->
  c ∈ tables s /\ m = singleton_of (objects s) c.
Proof.
  intros Hvalid. unfold merge. destruct (tables s) as [|l ls] eqn:E.
  - intros Hm. by apply elem_of_nil in Hm.
  - pose proof (merge_loop_singletons
                  (Py.sorted (by_page_start (objects s)) (l :: ls)) (objects s) m c) as H.
    destruct (merge_loop _ _) as [σ merged]. cbn [fst snd] in *.
    intros Hm Hc. destruct H as [Hin ->]; try done.
    + by rewrite sorted_perm.
    + split; [|done]. by rewrite sorted_perm in Hin.
Qed.

(** ** [add] *)

Lemma add_stamps s l p t :
  objects s !! l = Some t ->
  objects (add l (Some p) s) !! l
  = Some (mkTableBlock p p (columns t) (rows t) (bbox t) (x_coordinates t)).
Proof.
  intros Hl. unfold add. simpl.
  rewrite list_lookup_alter_eq, list_lookup_alter_eq, Hl. done.
Qed.

Lemma add_other s l o l' :
  leaves l' (Add l o) -> objects (add l o s) !! l' = objects s !! l'.
Proof.
  intros Hne. unfold add. destruct o as [p|]; simpl in *; [|done].
  by rewrite !list_lookup_alter_ne.
Qed.

Lemma step_keeps s o l t :
  leaves l o -> objects s !! l = Some t -> objects (step s o) !! l = Some t.
Proof.
  intros Hne Hl. destruct o as [table page_num|]; unfold step.
  - by rewrite add_other.
  - by apply merge_keeps.
Qed.

Lemma run_keeps ops : forall s l t,
  Forall (leaves l) ops -> objects s !! l = Some t ->
  objects (run ops s) !! l = Some t.
Proof.
  induction ops as [|o ops IH]; intros s l t Hops Hl; simpl; [done|].
  apply Forall_cons_1 in Hops as [Ho Hops].
  apply IH; [done|]. by apply step_keeps.
Qed.

(** C8 as amended.  [add] with a page number stamps both page fields of the
    object it is given, leaves its other fields alone and appends it to the
    buffer; no later operation changes a stored object except an [add] of
    that same object with a page number: [merge] only allocates new records,
    and a candidate that absorbed nothing is reported as it is stored. *)
Theorem buffer_frame :
  (forall (s : State) (l : loc) (p : Z) (t : TableBlock),
      objects s !! l = Some t ->
      objects (add l (Some p) s) !! l
      = Some (mkTableBlock p p (columns t) (rows t) (bbox t) (x_coordinates t))
      /\ tables (add l (Some p) s) = tables s ++ [l])
  /\ (forall (s : State) (o : op) (l : loc) (t : TableBlock),
        leaves l o ->
        objects s !! l = Some t -> objects (step s o) !! l = Some t)
  /\ (forall (ops : list op) (s : State) (l : loc) (t : TableBlock),
        Forall (leaves l) ops ->
        objects s !! l = Some t -> objects (run ops s) !! l = Some t)
  /\ (forall s : State,
        tables (fst (merge s)) = tables s
        /\ exists new_records, objects (fst (merge s)) = objects s ++ new_records)
  /\ (forall (s : State) (m : MergedTable) (c : loc),
        Forall (fun l => (l < length (objects s))%nat) (tables s) ->
        m ∈ snd (merge s) -> original_tables m = [c] ->
        c ∈ tables s /\ m = singleton_of (objects s) c).
Proof.
  split; [|split; [|split; [|split]]].
  - intros s l p t Hl. split; [by apply add_stamps|done].
  - intros s o l t. apply step_keeps.
  - intros ops s l t. apply run_keeps.
  - intros s. split; [apply merge_tables|apply merge_extends].
  - intros s m c. apply merge_singletons.
Qed.

End WithUnicode.

(** C8 as stated fails: adding an object that the buffer already holds
    stamps it again. *)
Lemma buffered_candidate_restamped : ~ buffered_candidates_frozen.
Proof.
  intros H.
  specialize (H Py.latin1_only
                (add 0%nat (Some 1) (init [Sample.tA])) (Add 0%nat (Some 2))
                0%nat (mkTableBlock 1 1 (columns Sample.tA) (rows Sample.tA)
                                    (bbox Sample.tA) (x_coordinates Sample.tA))).
  simpl in H. discriminate H; [by left|done].
Qed.

End TableBufferFacts.

(* ===================================================================== *)
(** * Merging a chain of candidates *)
(* ===================================================================== *)

Module MergeChainFacts.
Import TableBuffer TableMerge PyFacts TableMergeFacts TableBufferFacts Spec.

Section WithUnicode.
Context {U : Py.Unicode}.

Lemma absorb_merges σ current next rest :
  _can_merge_tables (deref σ current) (deref σ next) = true ->
  absorb σ current (next :: rest)
  = let merged := merge_tables_if_compatible (deref σ current) (deref σ next) in
    let r := absorb (σ ++ [merged]) (length σ) rest in
    (fst (fst r), snd (fst r), S (snd r)).
Proof.
  intros H. simpl. rewrite H. unfold alloc.
  by destruct (absorb _ _ rest) as [[σ2 cur'] k].
Qed.

Lemma absorb_stops σ current next rest :
  _can_merge_tables (deref σ current) (deref σ next) = false ->
  absorb σ current (next :: rest) = (σ, current, 0%nat).
Proof. intros H. simpl. by rewrite H. Qed.

(** Identical non-empty header lists have similarity 1. *)
Lemma header_similarity_same h : h <> [] -> (header_similarity h h == 1)%Q.
Proof.
  intros Hne. rewrite <- compare_headers_similarity by done.
  unfold compare_headers. rewrite Nat.eqb_refl. simpl.
  apply nonempty_true in Hne as Hne'. rewrite Hne'.
  assert (length (List.filter header_match (combine h h)) = length h) as ->.
  { clear. induction h as [|a h IH]; simpl; [done|].
    unfold header_match at 1, Py.eqb. cbn [fst snd].
    rewrite bool_decide_eq_true_2 by done. simpl. by rewrite IH. }
  apply Qmult_inv_r. destruct h; [done|]. by unfold Qeq.
Qed.

(** Tables with the same non-empty headers on adjacent pages, with aligned
    coordinates, pass the merge test. *)
Lemma can_merge_same_headers t1 t2 :
  Z.abs (page_start t2 - page_end t1) <= 1 ->
  columns t1 <> [] -> columns t2 = columns t1 ->
  coordinates_aligned 10 t1 t2 ->
  _can_merge_tables t1 t2 = true.
Proof.
  intros Hgap Hne Hcols Hx. apply can_merge_tables_spec.
  split; [done|]. split; [left; by rewrite Hcols|]. split; [done|].
  intros _ _. rewrite Hcols, header_similarity_same by done. by unfold Qle.
Qed.

(** C2 as amended.  A buffer holding three candidates [A], [B], [C] whose
    first pages ascend, each starting at most one page from where the one
    before ends, with the same non-empty headers and pairwise aligned
    x-coordinates, merges into exactly one table: its rows are those of
    [A], [B] and [C] in that order, its original tables are [A], [B], [C],
    and its page range goes from [A]'s first page to the last page any of
    the three ends on, which is [C]'s when neither [A] nor [B] ends after
    [C].  A candidate that absorbs nothing gives a singleton listing
    itself, and each absorption tests the table merged so far against the
    next candidate. *)
Theorem merge_chain_of_three (s : State) (a b c : loc) (A B C : TableBlock) :
  tables s ≡ₚ [a; b; c] ->
  objects s !! a = Some A -> objects s !! b = Some B -> objects s !! c = Some C ->
  page_start A < page_start B < page_start C ->
  Z.abs (page_start B - page_end A) <= 1 ->
  Z.abs (page_start C - page_end B) <= 1 ->
  columns A <> [] -> columns B = columns A -> columns C = columns A ->
  coordinates_aligned 10 A B -> coordinates_aligned 10 B C ->
  coordinates_aligned 10 A C ->
  snd (merge s)
  = [ mkMergedTable [a; b; c] (columns A) (rows A ++ rows B ++ rows C)
                    (page_start A,
                     Z.max (Z.max (page_end A) (page_end B)) (page_end C)) ]
  /\ (page_end A <= page_end C -> page_end B <= page_end C ->
      snd (merge s)
      = [ mkMergedTable [a; b; c] (columns A) (rows A ++ rows B ++ rows C)
                        (page_start A, page_end C) ])
  /\ (forall σ first rest,
        snd (absorb σ first rest) = 0%nat ->
        snd (merge_loop σ (first :: rest))
        = singleton_of σ first :: snd (merge_loop σ rest))
  /\ (forall σ current next rest,
        _can_merge_tables (deref σ current) (deref σ next) = true ->
        let merged := merge_tables_if_compatible (deref σ current) (deref σ next) in
        let σ1 := σ ++ [merged] in
        deref σ1 (length σ) = merged
        /\ absorb σ current (next :: rest)
           = (fst (fst (absorb σ1 (length σ) rest)),
              snd (fst (absorb σ1 (length σ) rest)),
              S (snd (absorb σ1 (length σ) rest)))).
Proof.
  intros HP Ha Hb Hc [HAB HBC] HgAB HgBC Hne HcB HcC HxAB HxBC HxAC.
  assert (Hchain : snd (merge s)
    = [ mkMergedTable [a; b; c] (columns A) (rows A ++ rows B ++ rows C)
                      (page_start A,
                       Z.max (Z.max (page_end A) (page_end B)) (page_end C)) ]).
  { (* the chain *)
    assert (Hsorted : Py.sorted (by_page_start (objects s)) (tables s) = [a; b; c]).
    { apply (sorted_key_unique (fun l => page_start (deref (objects s) l))); [done|].
      rewrite !StronglySorted_cons, !Forall_cons, !Forall_nil.
      rewrite (deref_Some _ _ _ Ha), (deref_Some _ _ _ Hb), (deref_Some _ _ _ Hc).
      repeat split; try lia; constructor. }
    unfold merge. destruct (tables s) as [|l ls] eqn:E.
    { apply Permutation_nil_cons in HP. done. }
    rewrite Hsorted. set (σ := objects s) in *.
    pose proof (lookup_lt_Some _ _ _ Ha) as Hla.
    pose proof (lookup_lt_Some _ _ _ Hb) as Hlb.
    pose proof (lookup_lt_Some _ _ _ Hc) as Hlc.
    set (AB := merge_tables_if_compatible A B).
    set (ABC := merge_tables_if_compatible AB C).
    assert (HmAB : _can_merge_tables A B = true) by by apply can_merge_same_headers.
    assert (HAB_fields : page_start AB = page_start A
                         /\ page_end AB = Z.max (page_end A) (page_end B)
                         /\ columns AB = columns A /\ rows AB = rows A ++ rows B
                         /\ x_coordinates AB
                            = if Py.nonempty (x_coordinates A)
                              then x_coordinates A else x_coordinates B).
    { unfold AB, merge_tables_if_compatible.
      destruct (Z.leb_spec (page_start A) (page_start B)); [|lia]. simpl.
      apply nonempty_true in Hne as ->. repeat split; lia. }
    destruct HAB_fields as (HABs & HABe & HABc & HABr & HABx).
    assert (HmABC : _can_merge_tables AB C = true).
    { apply can_merge_same_headers.
      - rewrite HABe. lia.
      - by rewrite HABc.
      - by rewrite HABc.
      - unfold coordinates_aligned. rewrite HABx.
        destruct (Py.nonempty (x_coordinates A)) eqn:EA; [exact HxAC|exact HxBC]. }
    assert (HABC_fields : page_start ABC = page_start A
                          /\ page_end ABC
                             = Z.max (Z.max (page_end A) (page_end B)) (page_end C)
                          /\ columns ABC = columns A
                          /\ rows ABC = rows A ++ rows B ++ rows C).
    { unfold ABC, merge_tables_if_compatible.
      destruct (Z.leb_spec (page_start AB) (page_start C)); [|lia]. simpl.
      rewrite HABc. apply nonempty_true in Hne as ->.
      rewrite HABs, HABe, HABr, <- app_assoc. repeat split; lia. }
    destruct HABC_fields as (HABCs & HABCe & HABCc & HABCr).
    assert (Habs : absorb σ a [b; c] = (σ ++ [AB] ++ [ABC], S (length σ), 2%nat)).
    { rewrite absorb_merges;
        rewrite (deref_Some _ _ _ Ha), (deref_Some _ _ _ Hb); [|done].
      cbn zeta. fold AB.
      rewrite absorb_merges; rewrite deref_new, deref_old, (deref_Some _ _ _ Hc);
        try done.
      cbn zeta. fold ABC. simpl. rewrite length_app, <- app_assoc. simpl.
      by rewrite Nat.add_1_r. }
    destruct (merge_loop σ [a; b; c]) as [σ' merged] eqn:Eloop.
    revert Eloop. simp merge_loop. rewrite Habs. simpl. simp merge_loop. simpl.
    intros [= <- <-]. simpl. unfold group_result. simpl.
    assert (Hd : deref (σ ++ AB :: [ABC]) (S (length σ)) = ABC).
    { change (AB :: [ABC]) with ([AB] ++ [ABC]). rewrite app_assoc.
      replace (S (length σ)) with (length (σ ++ [AB])) by (rewrite length_app; simpl; lia).
      apply deref_new. }
    rewrite Hd, HABCs, HABCe, HABCc, HABCr. done. }
  split; [exact Hchain|]. split; [|split].
  - (* no earlier candidate ends after the last *)
    intros HAC HBCe. rewrite Hchain. do 3 f_equal. lia.
  - (* the singleton *)
    intros σ first rest Hk. apply absorb_none in Hk.
    simp merge_loop. rewrite Hk. simpl. by rewrite drop_0.
  - (* the cumulative comparison *)
    intros σ current next rest Hm. split; [apply deref_new|].
    by rewrite absorb_merges.
Qed.

End WithUnicode.

Lemma merge_chain_of_three_witness :
  snd (merge (U := Py.latin1_only) Sample.long_chain)
  = [ mkMergedTable [0; 1; 2]%nat (columns Sample.tA)
                    (rows Sample.tA ++ rows Sample.tB ++ rows Sample.tC)
                    (1, Z.max (Z.max 3 4) 3) ].
Proof.
  refine (proj1 (merge_chain_of_three (U := Py.latin1_only)
                   Sample.long_chain 0%nat 1%nat 2%nat
                   _ _ _ _ eq_refl eq_refl eq_refl _ _ _ _ _ _ _ _ _));
    try reflexivity; try (split; reflexivity); try discriminate.
  - intros _ _. split; [reflexivity|]. repeat constructor; discriminate.
  - intros _ _. split; [reflexivity|]. repeat constructor; discriminate.
  - intros _ _. split; [reflexivity|]. repeat constructor; discriminate.
Defined.

(** C2 as stated fails: with candidates on the pages 1 to 3, 2 to 4 and 3
    the one merged table ends on page 4, not on page 3 where the last
    candidate ends. *)
Lemma chain_ends_after_last : ~ chain_ends_with_last.
Proof.
  intros H.
  specialize (H Py.latin1_only Sample.long_chain 0%nat 1%nat 2%nat
                _ _ _ (Permutation_refl _) eq_refl eq_refl eq_refl).
  assert (E : snd (merge (U := Py.latin1_only) Sample.long_chain)
              = [ mkMergedTable [0; 1; 2]%nat (columns Sample.tA)
                    (rows Sample.tA ++ rows Sample.tB ++ rows Sample.tC) (1, 3) ]).
  { apply H; try reflexivity; try (split; reflexivity); try discriminate.
    - intros _ _. split; [reflexivity|]. repeat constructor; discriminate.
    - intros _ _. split; [reflexivity|]. repeat constructor; discriminate.
    - intros _ _. split; [reflexivity|]. repeat constructor; discriminate. }
  vm_compute in E. discriminate E.
Qed.

(** Three one-page candidates, buffered out of page order, give the table
    of the pages 1 to 3. *)
Example merge_chain_out_of_order :
  snd (merge (U := Py.latin1_only) Sample.chain)
  = [ mkMergedTable [0; 1; 2]%nat (columns Sample.tA)
                    (rows Sample.tA ++ rows Sample.tB ++ rows Sample.tC) (1, 3) ].
Proof. by vm_compute. Qed.

(** The same chain from the calls: three candidates added out of page order
    with the pages 3, 1 and 2 merge into the one table of pages 1 to 3. *)
Example merge_after_adds :
  snd (merge (U := Py.latin1_only) (run (U := Py.latin1_only) Sample.adds
                  (init (map Sample.unstamped [Sample.tA; Sample.tB; Sample.tC]))))
  = [ mkMergedTable [0; 1; 2]%nat (columns Sample.tA)
                    (rows Sample.tA ++ rows Sample.tB ++ rows Sample.tC) (1, 3) ].
Proof. by vm_compute. Qed.

End MergeChainFacts.

(* ===================================================================== *)
(** * Boxes: overlap and alignment *)
(* ===================================================================== *)

Module BoxFacts.
Import Geometry PyFacts TableMergeFacts Spec Notions.

(** What [bbox_overlap] computes: nothing when the intersection has no
    area, the intersection over the union otherwise; the union is then
    positive, so the guard on it never fires. *)
Lemma bbox_overlap_cases a b :
  ((inter_w a b <= 0 \/ inter_h a b <= 0)%Q /\ bbox_overlap a b = 0%Q)
  \/ ((0 < inter_w a b)%Q /\ (0 < inter_h a b)%Q
      /\ (inter_area a b <= box_area a)%Q /\ (inter_area a b <= box_area b)%Q
      /\ (0 < inter_area a b)%Q
      /\ (bbox_overlap a b == inter_area a b / union_area a b)%Q).
Proof.
  unfold bbox_overlap, union_area. unfold inter_area, inter_w, inter_h, box_area.
  pose proof (max_Qmax (bx0 a) (bx0 b)) as HX0.
  pose proof (max_Qmax (by0 a) (by0 b)) as HY0.
  pose proof (min_Qmin (bx1 a) (bx1 b)) as HX1.
  pose proof (min_Qmin (by1 a) (by1 b)) as HY1.
  pose proof (Q.le_max_l (bx0 a) (bx0 b)). pose proof (Q.le_max_r (bx0 a) (bx0 b)).
  pose proof (Q.le_max_l (by0 a) (by0 b)). pose proof (Q.le_max_r (by0 a) (by0 b)).
  pose proof (Q.le_min_l (bx1 a) (bx1 b)). pose proof (Q.le_min_r (bx1 a) (bx1 b)).
  pose proof (Q.le_min_l (by1 a) (by1 b)). pose proof (Q.le_min_r (by1 a) (by1 b)).
  set (X0 := Py.max (bx0 a) (bx0 b)) in *. set (Y0 := Py.max (by0 a) (by0 b)) in *.
  set (X1 := Py.min (bx1 a) (bx1 b)) in *. set (Y1 := Py.min (by1 a) (by1 b)) in *.
  case_leb X1 X0; simpl; [left; split; [left; lra|done]|].
  case_leb Y1 Y0; simpl; [left; split; [right; lra|done]|].
  right.
  assert (Hw : (0 < X1 - X0)%Q) by lra. assert (Hh : (0 < Y1 - Y0)%Q) by lra.
  assert (Hi : (0 < (X1 - X0) * (Y1 - Y0))%Q) by nra.
  assert (Hia : ((X1 - X0) * (Y1 - Y0) <= (bx1 a - bx0 a) * (by1 a - by0 a))%Q) by nra.
  assert (Hib : ((X1 - X0) * (Y1 - Y0) <= (bx1 b - bx0 b) * (by1 b - by0 b))%Q) by nra.
  assert (Hu : Py.ltb 0 ((bx1 a - bx0 a) * (by1 a - by0 a)
                         + (bx1 b - bx0 b) * (by1 b - by0 b)
                         - (X1 - X0) * (Y1 - Y0)) = true) by (apply ltb_lt; lra).
  rewrite Hu. rewrite <- HX0, <- HY0, <- HX1, <- HY1.
  repeat split; lra.
Qed.

(** X1.  [bbox_overlap] lies between 0 and 1 for any two boxes, is positive
    exactly when the boxes intersect in a positive area, and is then the
    area of the intersection over the area of the union. *)
Theorem bbox_overlap_is_iou (bbox1 bbox2 : BBox) :
  (0 <= bbox_overlap bbox1 bbox2 <= 1)%Q
  /\ ((0 < bbox_overlap bbox1 bbox2)%Q <->
      (0 < inter_w bbox1 bbox2)%Q /\ (0 < inter_h bbox1 bbox2)%Q)
  /\ ((0 < inter_w bbox1 bbox2)%Q -> (0 < inter_h bbox1 bbox2)%Q ->
      (0 < union_area bbox1 bbox2)%Q
      /\ (bbox_overlap bbox1 bbox2
          == inter_area bbox1 bbox2 / union_area bbox1 bbox2)%Q).
Proof.
  destruct (bbox_overlap_cases bbox1 bbox2)
    as [[Hno ->]|(Hw & Hh & Ha & Hb & Hi & Heq)].
  - split; [split; lra|]. split.
    + split; [lra|]. intros [? ?]. lra.
    + intros ? ?. lra.
  - assert (Hu : (0 < union_area bbox1 bbox2)%Q) by (unfold union_area; lra).
    assert (Hpos : (0 < inter_area bbox1 bbox2 / union_area bbox1 bbox2)%Q).
    { apply Qlt_shift_div_l; [done|]. lra. }
    rewrite Heq. split; [split|split].
    + lra.
    + apply Qle_shift_div_r; [done|]. unfold union_area. lra.
    + split; [done|]. intros _. exact Hpos.
    + intros _ _. split; [done|reflexivity].
Qed.

(** X2.  [bbox_overlap] does not depend on the order of its arguments. *)
Theorem bbox_overlap_sym (bbox1 bbox2 : BBox) :
  (bbox_overlap bbox1 bbox2 == bbox_overlap bbox2 bbox1)%Q.
Proof.
  assert (Hw : (inter_w bbox1 bbox2 == inter_w bbox2 bbox1)%Q).
  { unfold inter_w. by rewrite Q.min_comm, Q.max_comm. }
  assert (Hh : (inter_h bbox1 bbox2 == inter_h bbox2 bbox1)%Q).
  { unfold inter_h. by rewrite Q.min_comm, Q.max_comm. }
  assert (Hi : (inter_area bbox1 bbox2 == inter_area bbox2 bbox1)%Q).
  { unfold inter_area. by rewrite Hw, Hh. }
  assert (Hu : (union_area bbox1 bbox2 == union_area bbox2 bbox1)%Q).
  { unfold union_area. rewrite Hi. ring. }
  destruct (bbox_overlap_cases bbox1 bbox2) as [[Hno ->]|(? & ? & _ & _ & _ & ->)];
    destruct (bbox_overlap_cases bbox2 bbox1) as [[Hno' ->]|(? & ? & _ & _ & _ & ->)];
    try reflexivity; try (exfalso; lra).
  by rewrite Hi, Hu.
Qed.

(** X3.  A box without an interior overlaps nothing: [bbox_overlap] is 0
    as soon as one of the two boxes has no interior.  A box with an
    interior, its area positive, and a box with the same coordinates (as
    numbers) overlap fully: the result is 1. *)
Theorem bbox_overlap_one (bbox1 bbox2 : BBox) :
  (solid bbox1 -> (0 < box_area bbox1)%Q -> same_box bbox1 bbox2 ->
   (bbox_overlap bbox1 bbox2 == 1)%Q)
  /\ (~ solid bbox1 ->
      bbox_overlap bbox1 bbox2 = 0%Q /\ bbox_overlap bbox2 bbox1 = 0%Q).
Proof.
  pose proof (Q.le_max_l (bx0 bbox1) (bx0 bbox2)).
  pose proof (Q.le_max_r (bx0 bbox1) (bx0 bbox2)).
  pose proof (Q.le_max_l (by0 bbox1) (by0 bbox2)).
  pose proof (Q.le_max_r (by0 bbox1) (by0 bbox2)).
  pose proof (Q.le_min_l (bx1 bbox1) (bx1 bbox2)).
  pose proof (Q.le_min_r (bx1 bbox1) (bx1 bbox2)).
  pose proof (Q.le_min_l (by1 bbox1) (by1 bbox2)).
  pose proof (Q.le_min_r (by1 bbox1) (by1 bbox2)).
  split.
  - intros [Hx Hy] _ (E1 & E2 & E3 & E4).
    destruct (bbox_overlap_cases bbox1 bbox2)
      as [[Hno _]|(Hw & Hh & Ha & Hb & Hi & ->)].
    + exfalso.
      unfold inter_w, inter_h in Hno. rewrite <- E1, <- E2, <- E3, <- E4 in Hno.
      rewrite !Q.min_id, !Q.max_id in Hno. lra.
    + assert (Hu : (0 < union_area bbox1 bbox2)%Q) by (unfold union_area; lra).
      assert (Heq : (inter_area bbox1 bbox2 == union_area bbox1 bbox2)%Q).
      { unfold union_area, inter_area, box_area, inter_w, inter_h.
        rewrite <- E1, <- E2, <- E3, <- E4. rewrite !Q.min_id, !Q.max_id. ring. }
      rewrite Heq. field. lra.
  - intros Hns. split.
    + destruct (bbox_overlap_cases bbox1 bbox2) as [[_ ->]|(Hw & Hh & _)]; [done|].
      exfalso. apply Hns. unfold inter_w, inter_h, solid in *. lra.
    + pose proof (Q.le_max_l (bx0 bbox2) (bx0 bbox1)).
      pose proof (Q.le_max_r (bx0 bbox2) (bx0 bbox1)).
      pose proof (Q.le_max_l (by0 bbox2) (by0 bbox1)).
      pose proof (Q.le_max_r (by0 bbox2) (by0 bbox1)).
      pose proof (Q.le_min_l (bx1 bbox2) (bx1 bbox1)).
      pose proof (Q.le_min_r (bx1 bbox2) (bx1 bbox1)).
      pose proof (Q.le_min_l (by1 bbox2) (by1 bbox1)).
      pose proof (Q.le_min_r (by1 bbox2) (by1 bbox1)).
      destruct (bbox_overlap_cases bbox2 bbox1) as [[_ ->]|(Hw & Hh & _)]; [done|].
      exfalso. apply Hns. unfold inter_w, inter_h, solid in *. lra.
Qed.

(** X4.  The two alignment tests compare centre lines: they are symmetric,
    hold between a box and itself for a tolerance that is not negative,
    and keep holding when the tolerance grows; the horizontal test looks at
    the y-coordinates only and the vertical test at the x-coordinates. *)
Theorem alignment_tests :
  (forall a b tol,
      is_aligned_horizontally a b tol = true
      <-> (Qabs (center_y a - center_y b) <= tol)%Q)
  /\ (forall a b tol,
        is_aligned_vertically a b tol = true
        <-> (Qabs (center_x a - center_x b) <= tol)%Q)
  /\ (forall a b tol,
        is_aligned_horizontally a b tol = is_aligned_horizontally b a tol
        /\ is_aligned_vertically a b tol = is_aligned_vertically b a tol)
  /\ (forall a tol,
        (0 <= tol)%Q ->
        is_aligned_horizontally a a tol = true /\ is_aligned_vertically a a tol = true)
  /\ (forall a b tol tol',
        (tol <= tol')%Q ->
        (is_aligned_horizontally a b tol = true ->
         is_aligned_horizontally a b tol' = true)
        /\ (is_aligned_vertically a b tol = true ->
            is_aligned_vertically a b tol' = true)).
Proof.
  assert (Hh : forall a b tol,
             is_aligned_horizontally a b tol = true
             <-> (Qabs (center_y a - center_y b) <= tol)%Q).
  { intros. unfold is_aligned_horizontally. apply Qle_bool_iff. }
  assert (Hv : forall a b tol,
             is_aligned_vertically a b tol = true
             <-> (Qabs (center_x a - center_x b) <= tol)%Q).
  { intros. unfold is_aligned_vertically. apply Qle_bool_iff. }
  assert (Habs : forall x y, (Qabs (x - y) == Qabs (y - x))%Q).
  { intros x y. rewrite <- (Qabs_opp (x - y)). apply Qabs_wd. ring. }
  split; [exact Hh|]. split; [exact Hv|]. split; [|split].
  - intros a b tol. split; apply eq_true_iff_eq.
    + by rewrite !Hh, Habs.
    + by rewrite !Hv, Habs.
  - intros a tol Htol. rewrite Hh, Hv.
    assert (forall x, (Qabs (x - x) == 0)%Q) as E.
    { intros x. assert (x - x == 0)%Q as -> by ring. reflexivity. }
    rewrite !E. done.
  - intros a b tol tol' Hle. rewrite !Hh, !Hv. split; intros; lra.
Qed.

End BoxFacts.

(* ===================================================================== *)
(** * Column clustering: edge cases and fixed point *)
(* ===================================================================== *)

Module ColumnFacts.
Import Geometry PyFacts GeometryFacts Spec.

Lemma sorted_Qle_fixed l :
  StronglySorted Qle l -> Py.sorted Qle_bool l = l.
Proof.
  intros H. apply sorted_fixed. eapply StronglySorted_impl; [|exact H].
  intros a b Hab. by apply Qle_bool_iff.
Qed.

Lemma sorted_sorted l :
  Py.sorted Qle_bool (Py.sorted Qle_bool l) = Py.sorted Qle_bool l.
Proof. apply sorted_Qle_fixed, sorted_Qle_sorted. Qed.

Lemma found_negative tol coord cols : (tol < 0)%Q -> found tol coord cols = false.
Proof.
  intros Htol. apply not_true_iff_false. rewrite found_true.
  intros (col & _ & Habs). pose proof (Qabs_nonneg (coord - col)). lra.
Qed.

Lemma cluster_negative tol xs : forall cols,
  (tol < 0)%Q -> fold_left (add_coord tol) xs cols = cols ++ xs.
Proof.
  induction xs as [|x xs IH]; intros cols Htol; simpl.
  - by rewrite app_nil_r.
  - rewrite IH by done. unfold add_coord. rewrite found_negative by done.
    by rewrite <- app_assoc.
Qed.

(** X5.  With a negative tolerance nothing is clustered: the columns are
    all the left edges, duplicates included, in ascending order. *)
Theorem get_column_positions_negative (bboxes : list BBox) (tolerance : Q) :
  (tolerance < 0)%Q ->
  get_column_positions bboxes tolerance = Py.sorted Qle_bool (map bx0 bboxes)
  /\ length (get_column_positions bboxes tolerance) = length bboxes.
Proof.
  intros Htol.
  assert (E : get_column_positions bboxes tolerance
              = Py.sorted Qle_bool (map bx0 bboxes)).
  { unfold get_column_positions. destruct bboxes as [|b bs]; [done|].
    rewrite cluster_negative by done. rewrite app_nil_l. apply sorted_sorted. }
  split; [done|]. rewrite E.
  by rewrite (Permutation_length (sorted_perm _ _)), length_map.
Qed.

Lemma get_column_positions_negative_witness :
  get_column_positions [Sample.box 12; Sample.box 0; Sample.box 12] (-1)
  = [0; 12; 12]%Q.
Proof.
  assert (H : (-1 < 0)%Q) by reflexivity.
  exact (proj1 (get_column_positions_negative
                  [Sample.box 12; Sample.box 0; Sample.box 12] (-1) H)).
Defined.

(** Columns that are already apart are all kept by the clustering loop. *)
Lemma cluster_apart_fixed tol xs : forall cols,
  (0 <= tol)%Q -> StronglySorted (apart tol) (cols ++ xs) ->
  fold_left (add_coord tol) xs cols = cols ++ xs.
Proof.
  induction xs as [|x xs IH]; intros cols Htol Hs; simpl.
  - by rewrite app_nil_r.
  - assert (Hf : found tol x cols = false).
    { apply not_true_iff_false. rewrite found_true. intros (col & Hcol & Habs).
      assert (Hap : apart tol col x).
      { eapply StronglySorted_app_1_elem_of; [exact Hs|done|left]. }
      unfold apart in Hap. rewrite Qabs_pos in Habs by lra. lra. }
    unfold add_coord at 2. rewrite Hf. rewrite IH; [by rewrite <- app_assoc|done|].
    by rewrite <- app_assoc.
Qed.

(** X6.  Clustering is a fixed point on its own result: boxes whose left
    edges are the columns returned for some input are given back those
    same columns. *)
Theorem get_column_positions_fixed_point
    (bboxes bboxes' : list BBox) (tolerance : Q) :
  (0 <= tolerance)%Q ->
  map bx0 bboxes' = get_column_positions bboxes tolerance ->
  get_column_positions bboxes' tolerance = get_column_positions bboxes tolerance.
Proof.
  intros Htol Hmap.
  pose proof (get_column_positions_apart bboxes tolerance Htol) as Hap.
  rewrite <- Hmap in Hap |- *.
  assert (Hle : StronglySorted Qle (map bx0 bboxes')).
  { eapply StronglySorted_impl; [|exact Hap]. intros a b Hab.
    unfold apart in Hab. lra. }
  unfold get_column_positions. destruct bboxes' as [|b bs]; [done|].
  rewrite (sorted_Qle_fixed _ Hle), (cluster_apart_fixed tolerance _ [] Htol Hap).
  rewrite app_nil_l. by apply sorted_Qle_fixed.
Qed.

Lemma get_column_positions_fixed_point_witness :
  get_column_positions [Sample.box 0; Sample.box 12; Sample.box 30] 10
  = get_column_positions
      [Sample.box 12; Sample.box 0; Sample.box 5; Sample.box 30] 10.
Proof.
  assert (H : (0 <= 10)%Q) by (unfold Qle; simpl; lia).
  apply (get_column_positions_fixed_point
           [Sample.box 12; Sample.box 0; Sample.box 5; Sample.box 30]
           [Sample.box 0; Sample.box 12; Sample.box 30] 10 H).
  reflexivity.
Defined.

Lemma cluster_length tol xs : forall cols,
  (length (fold_left (add_coord tol) xs cols) <= length cols + length xs)%nat.
Proof.
  induction xs as [|x xs IH]; intros cols; simpl; [lia|].
  etrans; [apply IH|]. unfold add_coord. destruct (found tol x cols); [lia|].
  rewrite length_app. simpl. lia.
Qed.

Lemma cluster_first tol x xs :
  exists ext, fold_left (add_coord tol) (x :: xs) [] = x :: ext.
Proof.
  simpl. unfold add_coord at 2. simpl.
  destruct (cluster_appends tol xs [x]) as (ext & -> & _). by exists ext.
Qed.

(** X7.  No boxes give no columns; otherwise there are at most as many
    columns as boxes, and the first column is the leftmost left edge of the
    input, whatever the tolerance. *)
Theorem get_column_positions_leftmost (bboxes : list BBox) (tolerance : Q) :
  get_column_positions [] tolerance = []
  /\ (length (get_column_positions bboxes tolerance) <= length bboxes)%nat
  /\ (bboxes <> [] ->
      exists c, head (get_column_positions bboxes tolerance) = Some c
                /\ (exists b, b ∈ bboxes /\ bx0 b = c)
                /\ (forall b, b ∈ bboxes -> (c <= bx0 b)%Q)).
Proof.
  split; [done|]. split.
  - unfold get_column_positions. destruct bboxes as [|b bs]; [done|].
    rewrite (Permutation_length (sorted_perm _ _)).
    etrans; [apply cluster_length|].
    rewrite (Permutation_length (sorted_perm _ _)), length_map. simpl. lia.
  - intros Hne.
    assert (Hmem := get_column_positions_members bboxes tolerance).
    unfold get_column_positions in *. destruct bboxes as [|b bs]; [done|].
    set (xs := Py.sorted Qle_bool (map bx0 (b :: bs))) in *.
    assert (Hxs : StronglySorted Qle xs) by apply sorted_Qle_sorted.
    assert (Hperm : xs ≡ₚ map bx0 (b :: bs)) by apply sorted_perm.
    destruct xs as [|x xs'] eqn:Exs.
    { apply Permutation_nil in Hperm. done. }
    destruct (cluster_first tolerance x xs') as [ext Hext].
    set (out := Py.sorted Qle_bool (fold_left (add_coord tolerance) (x :: xs') [])) in *.
    assert (Hout : StronglySorted Qle out) by apply sorted_Qle_sorted.
    assert (Hx : x ∈ out).
    { unfold out. rewrite sorted_perm, Hext. left. }
    assert (Hmin : forall y, y ∈ map bx0 (b :: bs) -> (x <= y)%Q).
    { intros y Hy. rewrite <- Hperm in Hy.
      apply StronglySorted_cons in Hxs as [Hall _]. rewrite Forall_forall in Hall.
      apply elem_of_cons in Hy as [->|Hy]; [lra|by apply Hall]. }
    destruct out as [|c out'] eqn:Eout; [by apply elem_of_nil in Hx|].
    exists c. split; [done|].
    assert (Hc : c ∈ map bx0 (b :: bs)) by (apply Hmem; left).
    split.
    + apply list_elem_of_fmap in Hc as (b' & -> & Hb'). eauto.
    + intros b' Hb'.
      assert (Hcx : (c <= x)%Q).
      { apply StronglySorted_cons in Hout as [Hall _]. rewrite Forall_forall in Hall.
        apply elem_of_cons in Hx as [->|Hx]; [lra|by apply Hall]. }
      assert ((x <= bx0 b')%Q) by (apply Hmin, list_elem_of_fmap; eauto).
      lra.
Qed.

End ColumnFacts.

(* ===================================================================== *)
(** * Grouping lines into tables *)
(* ===================================================================== *)

Module GroupingFacts.
Import TableExtractor PyFacts Spec Notions.

Section RunsFacts.
Context {A : Type} (R : A -> A -> bool).

Lemma runs_head x l :
  exists g gs, runs R (x :: l) = (x :: g) :: gs.
Proof.
  simpl. destruct (runs R l) as [|[|y g] gs]; eauto.
  destruct (R x y); eauto.
Qed.

Lemma runs_concat l : concat (runs R l) = l.
Proof.
  induction l as [|x l IH]; [done|].
  destruct l as [|y l]; [done|].
  change (runs R (x :: y :: l)) with
    (match runs R (y :: l) with
     | (y' :: g) :: gs => if R x y' then (x :: y' :: g) :: gs else [x] :: (y' :: g) :: gs
     | _ => [[x]]
     end).
  destruct (runs_head y l) as (g & gs & E). rewrite E in IH |- *.
  destruct (R x y); simpl in *; by rewrite IH.
Qed.

Lemma chained_nil : chained R [].
Proof. intros i a b Hi. done. Qed.

Lemma chained_singleton x : chained R [x].
Proof. intros [|i] a b Hi Hj; done. Qed.

Lemma chained_cons x y l :
  chained R (x :: y :: l) <-> R x y = true /\ chained R (y :: l).
Proof.
  split.
  - intros H. split; [by apply (H 0%nat)|].
    intros i a b Hi Hj. by apply (H (S i)).
  - intros [Hxy H] [|i] a b Hi Hj.
    + simpl in Hi, Hj. congruence.
    + by apply (H i).
Qed.

Lemma chained_snoc l p c :
  chained R l -> last l = Some p -> R p c = true -> chained R (l ++ [c]).
Proof.
  induction l as [|x [|y l] IH]; intros Hl Hp Hpc.
  - done.
  - simpl in Hp. injection Hp as ->. apply chained_cons.
    split; [done|apply chained_singleton].
  - apply chained_cons in Hl as [Hxy Hl].
    change ((x :: y :: l) ++ [c]) with (x :: y :: (l ++ [c])).
    apply chained_cons. split; [done|]. by apply IH.
Qed.

Lemma runs_chained_parts l :
  Forall (fun c => c <> [] /\ chained R c) (runs R l).
Proof.
  induction l as [|x l IH]; simpl; [constructor|].
  destruct (runs R l) as [|[|y g] gs] eqn:E.
  - repeat constructor; [done|apply chained_singleton].
  - repeat constructor; [done|apply chained_singleton].
  - apply Forall_cons in IH as [[_ Hc] Hgs].
    destruct (R x y) eqn:Exy.
    + constructor; [|done]. split; [done|]. by apply chained_cons.
    + constructor; [|by constructor]. split; [done|apply chained_singleton].
Qed.

Lemma broken_cons c1 c2 chunks :
  broken R (c1 :: c2 :: chunks) <->
  (forall a b, last c1 = Some a -> head c2 = Some b -> R a b = false)
  /\ broken R (c2 :: chunks).
Proof.
  split.
  - intros H. split; [intros a b; by apply (H 0%nat)|].
    intros i d1 d2 a b. by apply (H (S i)).
  - intros [H1 H2] [|i] d1 d2 a b Hi Hj.
    + simpl in Hi, Hj. injection Hi as <-. injection Hj as <-. by apply H1.
    + by apply (H2 i).
Qed.

Lemma runs_broken l : broken R (runs R l).
Proof.
  induction l as [|x l IH]; simpl.
  - intros i ? ? ? ? Hi. done.
  - destruct (runs R l) as [|[|y g] gs] eqn:E.
    + intros [|i] ? ? ? ? Hi Hj; done.
    + intros [|i] ? ? ? ? Hi Hj; done.
    + destruct (R x y) eqn:Exy.
      * destruct gs as [|c2 gs]; [intros [|i] ? ? ? ? Hi Hj; done|].
        apply broken_cons in IH as [H1 H2]. apply broken_cons. split; [|done].
        intros a b Ha Hb. apply H1; [|done]. by destruct g.
      * apply broken_cons. split; [|done].
        intros a b Ha Hb. simpl in Ha, Hb. congruence.
Qed.

(** A chained list is its own single run. *)
Lemma runs_chained l : l <> [] -> chained R l -> runs R l = [l].
Proof.
  induction l as [|x [|y l] IH]; intros Hne Hc; [done|done|].
  apply chained_cons in Hc as [Hxy Hc].
  change (runs R (x :: y :: l)) with
    (match runs R (y :: l) with
     | (y' :: g) :: gs => if R x y' then (x :: y' :: g) :: gs else [x] :: (y' :: g) :: gs
     | _ => [[x]]
     end).
  rewrite IH by done. by rewrite Hxy.
Qed.

(** Runs of a chained list followed by more elements. *)
Lemma runs_app_chained cg p c ls :
  chained R cg -> last cg = Some p ->
  runs R (cg ++ c :: ls)
  = if R p c
    then match runs R (c :: ls) with
         | g :: gs => (cg ++ g) :: gs
         | [] => [cg]
         end
    else cg :: runs R (c :: ls).
Proof.
  induction cg as [|x [|y cg] IH]; intros Hc Hp.
  - done.
  - simpl in Hp. injection Hp as ->. destruct (runs_head c ls) as (g & gs & E).
    change (runs R ([p] ++ c :: ls)) with
      (match runs R (c :: ls) with
       | (y' :: g) :: gs => if R p y' then (p :: y' :: g) :: gs else [p] :: (y' :: g) :: gs
       | _ => [[p]]
       end).
    rewrite E. by destruct (R p c).
  - apply chained_cons in Hc as [Hxy Hc].
    change (runs R ((x :: y :: cg) ++ c :: ls)) with
      (match runs R ((y :: cg) ++ c :: ls) with
       | (y' :: g) :: gs => if R x y' then (x :: y' :: g) :: gs else [x] :: (y' :: g) :: gs
       | _ => [[x]]
       end).
    rewrite IH by done. destruct (runs_head c ls) as (g & gs & E). rewrite E.
    destruct (R p c); simpl; by rewrite Hxy.
Qed.

End RunsFacts.

(** The grouping loop collects the runs of two or more lines. *)
Lemma group_loop_runs lines : forall table_groups current_group,
  current_group <> [] -> chained aligned current_group ->
  group_loop table_groups current_group lines
  = table_groups ++ List.filter plural (runs aligned (current_group ++ lines)).
Proof.
  induction lines as [|curr_line lines IH]; intros tg cg Hne Hc.
  - simpl. rewrite app_nil_r, runs_chained by done. simpl.
    unfold plural. destruct (1 <? length cg)%nat; [done|by rewrite app_nil_r].
  - simpl. destruct (last cg) as [prev_line|] eqn:Hlast.
    2: { by apply last_None in Hlast. }
    rewrite (runs_app_chained aligned cg prev_line) by done.
    change (lines_align_as_table prev_line curr_line default_tolerance)
      with (aligned prev_line curr_line).
    destruct (aligned prev_line curr_line) eqn:Eal.
    + rewrite IH.
      * rewrite <- app_assoc. simpl.
        rewrite (runs_app_chained aligned cg prev_line) by done. by rewrite Eal.
      * by destruct cg.
      * by eapply chained_snoc.
    + rewrite IH; [|done|apply chained_singleton].
      simpl List.filter. unfold plural at 2.
      destruct (1 <? length cg)%nat; [by rewrite <- app_assoc|done].
Qed.

Lemma group_lines_into_tables_runs lines :
  group_lines_into_tables lines = List.filter plural (runs aligned lines).
Proof.
  destruct lines as [|first lines]; [done|].
  unfold group_lines_into_tables.
  rewrite group_loop_runs; [done|done|apply chained_singleton].
Qed.

(** X8.  [group_lines_into_tables] cuts the lines wherever a line does not
    align with the next one and returns, in order, the pieces of two or
    more lines: the pieces partition the input, consecutive lines of a
    piece align, and adjacent pieces do not align at their border. *)
Theorem group_lines_into_tables_maximal_runs (lines : list Line) :
  exists chunks : list (list Line),
    concat chunks = lines
    /\ Forall (fun c => c <> [] /\ chained aligned c) chunks
    /\ broken aligned chunks
    /\ group_lines_into_tables lines = List.filter plural chunks.
Proof.
  exists (runs aligned lines). split; [apply runs_concat|].
  split; [apply runs_chained_parts|]. split; [apply runs_broken|].
  apply group_lines_into_tables_runs.
Qed.

(** X9.  Every group returned has at least two lines, its consecutive
    lines align, and the groups, one after the other, are a sublist of the
    input: no line is in two groups and the order of the lines is kept. *)
Theorem group_lines_into_tables_groups (lines : list Line) :
  Forall (fun g => (2 <= length g)%nat /\ chained aligned g)
         (group_lines_into_tables lines)
  /\ sublist (concat (group_lines_into_tables lines)) lines.
Proof.
  rewrite group_lines_into_tables_runs. split.
  - apply Forall_forall. intros g Hg%list_elem_of_In%filter_In.
    destruct Hg as [Hg Hp]. apply list_elem_of_In in Hg.
    pose proof (runs_chained_parts aligned lines) as Hall.
    rewrite Forall_forall in Hall. destruct (Hall g Hg) as [_ Hc].
    split; [|done]. unfold plural in Hp. apply Nat.ltb_lt in Hp. lia.
  - rewrite <- (runs_concat aligned lines) at 2.
    induction (runs aligned lines) as [|c cs IH]; simpl; [constructor|].
    destruct (plural c); simpl.
    + by apply sublist_app.
    + by apply sublist_inserts_l.
Qed.

(** X10.  Two or more lines each aligned with the next make one group, the
    whole input; lines none of which aligns with the next make no group. *)
Theorem group_lines_into_tables_extremes (lines : list Line) :
  ((2 <= length lines)%nat -> chained aligned lines ->
   group_lines_into_tables lines = [lines])
  /\ ((forall i a b, lines !! i = Some a -> lines !! S i = Some b ->
                     aligned a b = false) ->
      group_lines_into_tables lines = []).
Proof.
  rewrite group_lines_into_tables_runs. split.
  - intros Hlen Hc. rewrite runs_chained; [|intros ->; simpl in Hlen; lia|done].
    simpl. unfold plural. destruct (Nat.ltb_spec 1 (length lines)); [done|lia].
  - intros Hno. induction lines as [|x lines IH]; [done|].
    destruct lines as [|y lines]; [done|].
    change (runs aligned (x :: y :: lines)) with
      (match runs aligned (y :: lines) with
       | (y' :: g) :: gs =>
           if aligned x y' then (x :: y' :: g) :: gs else [x] :: (y' :: g) :: gs
       | _ => [[x]]
       end).
    destruct (runs_head aligned y lines) as (g & gs & E). rewrite E in IH |- *.
    rewrite (Hno 0%nat x y) by done. simpl List.filter.
    apply IH. intros i a b Hi Hj. by apply (Hno (S i)).
Qed.

End GroupingFacts.

(* ===================================================================== *)
(** * Stripping text *)
(* ===================================================================== *)

Module StripFacts.
Import PyFacts Spec Notions.

Lemma drop_spaces_head l c :
  head (Py.drop_spaces l) = Some c -> Py.isspace c = false.
Proof.
  induction l as [|x l IH]; simpl; [done|].
  destruct (Py.isspace x) eqn:E; [done|]. simpl. congruence.
Qed.

Lemma drop_spaces_id l :
  (forall c, head l = Some c -> Py.isspace c = false) -> Py.drop_spaces l = l.
Proof.
  destruct l as [|x l]; simpl; [done|]. intros H. by rewrite (H x).
Qed.

Lemma drop_spaces_suffix l :
  exists sp, l = sp ++ Py.drop_spaces l /\ Forall (fun c => Py.isspace c = true) sp.
Proof.
  induction l as [|x l (sp & IH & Hsp)]; simpl.
  - exists []. by split.
  - destruct (Py.isspace x) eqn:E.
    + exists (x :: sp). split; [simpl; congruence|by constructor].
    + exists []. by split.
Qed.

Lemma drop_spaces_last l :
  Py.drop_spaces l <> [] -> last (Py.drop_spaces l) = last l.
Proof.
  intros Hne. destruct (drop_spaces_suffix l) as (sp & E & _).
  rewrite E at 2. rewrite last_app.
  destruct (last (Py.drop_spaces l)) eqn:El; [done|].
  by apply last_None in El.
Qed.

Lemma head_rev {A} (l : list A) : head (rev l) = last l.
Proof. by rewrite rev_alt, <- head_reverse. Qed.

Lemma last_rev {A} (l : list A) : last (rev l) = head l.
Proof. by rewrite rev_alt, <- last_reverse. Qed.

Lemma strip_ends l :
  (forall c, head (Py.strip l) = Some c -> Py.isspace c = false)
  /\ (forall c, last (Py.strip l) = Some c -> Py.isspace c = false).
Proof.
  unfold Py.strip. set (l1 := Py.drop_spaces l).
  set (d := Py.drop_spaces (rev l1)). split; intros c Hc.
  - rewrite head_rev in Hc. destruct d as [|y d'] eqn:Ed; [done|].
    rewrite <- Ed in Hc. unfold d in Hc.
    rewrite drop_spaces_last in Hc by (fold d; by rewrite Ed).
    rewrite last_rev in Hc. by apply (drop_spaces_head l).
  - rewrite last_rev in Hc. by apply (drop_spaces_head (rev l1)).
Qed.

Lemma strip_fixed l :
  (forall c, head l = Some c -> Py.isspace c = false) ->
  (forall c, last l = Some c -> Py.isspace c = false) ->
  Py.strip l = l.
Proof.
  intros Hh Hl. unfold Py.strip. rewrite (drop_spaces_id l) by done.
  rewrite drop_spaces_id; [apply rev_involutive|].
  intros c Hc. rewrite head_rev in Hc. by apply Hl.
Qed.

(** Stripping twice is stripping once. *)
Lemma strip_idemp s : Py.strip (Py.strip s) = Py.strip s.
Proof. apply strip_fixed; apply strip_ends. Qed.

Lemma truthy_true (s : str) : Py.truthy s = true <-> s <> [].
Proof. destruct s; simpl; split; congruence. Qed.

Lemma truthy_false (s : str) : Py.truthy s = false <-> s = [].
Proof. destruct s; simpl; split; congruence. Qed.

Lemma filled_strip s : Py.truthy (Py.strip s) = true -> filled (Py.strip s).
Proof. intros H. split; [apply strip_idemp|by apply truthy_true]. Qed.

Lemma drop_spaces_blank l :
  Forall (fun c => Py.isspace c = true) l -> Py.drop_spaces l = [].
Proof. induction 1 as [|x l Hx _ IH]; simpl; [done|]. by rewrite Hx. Qed.

(** A blank text strips to the empty text, and only a blank text does. *)
Lemma strip_blank s : Py.strip s = [] <-> blank s.
Proof.
  unfold blank. split.
  - intros E. unfold Py.strip in E.
    apply (f_equal (@rev N)) in E. rewrite rev_involutive in E. simpl in E.
    destruct (drop_spaces_suffix (rev (Py.drop_spaces s))) as (sp & E1 & Hsp).
    rewrite E, app_nil_r in E1.
    destruct (drop_spaces_suffix s) as (sp' & E2 & Hsp').
    apply (f_equal (@rev N)) in E1. rewrite rev_involutive in E1.
    rewrite E2, E1. apply Forall_app. split; [done|].
    apply Forall_forall. intros c Hc%list_elem_of_In%in_rev%list_elem_of_In.
    rewrite Forall_forall in Hsp. by apply Hsp.
  - intros H. unfold Py.strip. by rewrite (drop_spaces_blank _ H).
Qed.

End StripFacts.

(* ===================================================================== *)
(** * Table areas and candidates of a page *)
(* ===================================================================== *)

Module AreaFacts.
Import TableExtractor TableAreas PyFacts GroupingFacts StripFacts Spec Notions.

(** ** [min] and [max] of a sequence *)

Lemma fold_min l : forall x,
  (fold_left Py.min l x <= x)%Q /\ Forall (fun y => (fold_left Py.min l x <= y)%Q) l.
Proof.
  induction l as [|y l IH]; intros x; simpl; [split; [lra|constructor]|].
  destruct (IH (Py.min x y)) as [H1 H2].
  assert (Hm : (Py.min x y <= x /\ Py.min x y <= y)%Q).
  { unfold Py.min. destruct (Qlt_le_dec y x); split; lra. }
  split; [lra|]. constructor; [lra|done].
Qed.

Lemma min_of_le l m :
  Py.min_of l = Some m -> Forall (fun y => (m <= y)%Q) l.
Proof.
  destruct l as [|x l]; simpl; [done|]. intros [= <-].
  destruct (fold_min l x). by constructor.
Qed.

Lemma min_of_Some l : l <> [] -> is_Some (Py.min_of l).
Proof. destruct l; [done|]. simpl. eauto. Qed.

Lemma max_of_Some l : l <> [] -> is_Some (Py.max_of l).
Proof. destruct l; [done|]. simpl. eauto. Qed.

(** ** Sorting by a rational key *)

Lemma insert_Qkey_sorted {A} (key : A -> Q) x l :
  StronglySorted (fun a b => (key a <= key b)%Q) l ->
  StronglySorted (fun a b => (key a <= key b)%Q)
                 (Py.insert (fun a b => Qle_bool (key a) (key b)) x l).
Proof.
  induction 1 as [|y l Hl IH Hy]; simpl.
  - repeat constructor.
  - case_leb (key x) (key y).
    + constructor; [by constructor|].
      constructor; [done|]. eapply Forall_impl; [exact Hy|].
      intros z Hz. simpl in Hz. lra.
    + constructor; [done|].
      rewrite (insert_perm _ x l). constructor; [lra|done].
Qed.

Lemma sorted_Qkey_sorted {A} (key : A -> Q) l :
  StronglySorted (fun a b => (key a <= key b)%Q)
                 (Py.sorted (fun a b => Qle_bool (key a) (key b)) l).
Proof.
  induction l as [|x l IH]; simpl; [constructor|]. by apply insert_Qkey_sorted.
Qed.

Lemma StronglySorted_map {A B} (f : A -> B) (R : relation B) l :
  StronglySorted (fun a b => R (f a) (f b)) l -> StronglySorted R (map f l).
Proof.
  induction 1 as [|x l _ IH Hx]; simpl; constructor; [done|].
  by apply Forall_map.
Qed.

(** ** The lines [find_table_areas] works on *)

Lemma kept_spans_clean line :
  Forall (fun span => filled (span_text span)) (kept_spans line)
  /\ StronglySorted Qle (map (fun span => bx0 (span_bbox span)) (kept_spans line)).
Proof.
  unfold kept_spans. split.
  - rewrite sorted_perm. apply Forall_forall.
    intros span Hs%list_elem_of_In%in_flat_map. destruct Hs as (sp & _ & Hin).
    destruct (Py.truthy (Py.strip (span_text sp))) eqn:E; [|done].
    destruct Hin as [<-|[]]. simpl. by apply filled_strip.
  - apply StronglySorted_map, (sorted_Qkey_sorted (fun s => bx0 (span_bbox s))).
Qed.

Lemma text_lines_of_clean blocks : Forall clean_line (text_lines_of blocks).
Proof.
  unfold text_lines_of. apply Forall_forall.
  intros line Hl%list_elem_of_In%in_flat_map. destruct Hl as (block & _ & Hin).
  destruct (block_lines block) as [lines|]; [|done].
  apply in_flat_map in Hin as (l0 & _ & Hin).
  destruct (Py.nonempty (kept_spans l0)) eqn:E; [|done].
  destruct Hin as [<-|[]]. apply nonempty_true in E.
  destruct (kept_spans_clean l0) as [H1 H2].
  split; [done|]. split; [|done]. unfold texts. simpl. by apply Forall_map.
Qed.

Lemma groups_clean lines :
  Forall clean_line lines ->
  Forall (fun g => (2 <= length g)%nat /\ Forall clean_line g)
         (group_lines_into_tables lines).
Proof.
  intros Hlines. rewrite group_lines_into_tables_runs.
  apply Forall_forall. intros g Hg%list_elem_of_In%filter_In.
  destruct Hg as [Hg Hp]. split.
  - unfold plural in Hp. apply Nat.ltb_lt in Hp. lia.
  - rewrite <- (runs_concat aligned lines) in Hlines.
    apply Forall_concat in Hlines. rewrite Forall_forall in Hlines.
    by apply Hlines, list_elem_of_In.
Qed.

(** ** One candidate for each group *)

Lemma group_bbox_Some g :
  g <> [] -> Forall clean_line g -> is_Some (group_bbox g).
Proof.
  intros Hne Hg. unfold group_bbox.
  assert (H1 : is_Some (mapM (fun line => Py.min_of
              (map (fun span => bx0 (span_bbox span)) (line_spans line))) g)).
  { apply mapM_is_Some. eapply Forall_impl; [exact Hg|].
    intros line (Hs & _). simpl. apply min_of_Some. by destruct (line_spans line). }
  assert (H2 : is_Some (mapM (fun line => Py.max_of
              (map (fun span => bx1 (span_bbox span)) (line_spans line))) g)).
  { apply mapM_is_Some. eapply Forall_impl; [exact Hg|].
    intros line (Hs & _). simpl. apply max_of_Some. by destruct (line_spans line). }
  destruct H1 as [mins E1], H2 as [maxs E2]. rewrite E1, E2. simpl.
  apply mapM_Some_1, Forall2_length in E1. apply mapM_Some_1, Forall2_length in E2.
  destruct (min_of_Some mins) as [mx ->]; [destruct g, mins; done|]. simpl.
  destruct (max_of_Some maxs) as [Mx ->]; [destruct g, maxs; done|]. simpl.
  destruct (min_of_Some (map (fun line => by0 (line_bbox line)) g)) as [my ->];
    [by destruct g|]. simpl.
  destruct (max_of_Some (map (fun line => by1 (line_bbox line)) g)) as [My ->];
    [by destruct g|]. simpl. eauto.
Qed.

(** The box of a group starts at or before every run of its lines. *)
Lemma group_bbox_left g box line x :
  group_bbox g = Some box -> line ∈ g -> x ∈ lefts line -> (bx0 box <= x)%Q.
Proof.
  unfold group_bbox. intros H Hline Hx.
  destruct (mapM (fun line => Py.min_of _) g) as [mins|] eqn:E1; simpl in H; [|done].
  destruct (Py.min_of mins) as [mx|] eqn:Emx; simpl in H; [|done].
  destruct (mapM (fun line => Py.max_of _) g) as [maxs|] eqn:E2; simpl in H; [|done].
  destruct (Py.max_of maxs) as [Mx|]; simpl in H; [|done].
  destruct (Py.min_of (map _ g)) as [my|]; simpl in H; [|done].
  destruct (Py.max_of (map _ g)) as [My|]; simpl in H; [|done].
  injection H as <-. simpl.
  apply mapM_Some_1 in E1.
  apply list_elem_of_lookup in Hline as [i Hi].
  destruct (Forall2_lookup_l _ _ _ _ _ E1 Hi) as (m & Hm & Hmin).
  apply min_of_le in Hmin. rewrite Forall_forall in Hmin.
  apply min_of_le in Emx. rewrite Forall_forall in Emx.
  specialize (Emx m (list_elem_of_lookup_2 _ _ _ Hm)).
  specialize (Hmin x Hx). lra.
Qed.

Lemma table_data_of_group g :
  (2 <= length g)%nat -> Forall clean_line g ->
  exists first rest box,
    g = first :: rest /\ rest <> []
    /\ group_bbox g = Some box
    /\ table_data_of g = Some [mkTableData (texts first) (map texts rest) box (lefts first)].
Proof.
  intros Hlen Hg. destruct g as [|first [|second rest]]; simpl in Hlen; try lia.
  destruct (group_bbox_Some (first :: second :: rest)) as [box Hbox]; [done|done|].
  exists first, (second :: rest), box. split; [done|]. split; [done|]. split; [done|].
  unfold table_data_of. rewrite Hbox.
  apply Forall_cons in Hg as [(Hs & _) _].
  replace (2 <=? length (first :: second :: rest))%nat with true by done.
  unfold extract_headers_from_group, extract_rows_from_group, extract_column_coordinates.
  assert (Py.nonempty (map span_text (line_spans first)) = true) as ->.
  { by destruct (line_spans first). }
  done.
Qed.

Lemma concat_singletons {A} (l : list A) : List.concat (map (fun x => [x]) l) = l.
Proof. induction l as [|x l IH]; simpl; [done|]. by rewrite IH. Qed.

Lemma table_data_of_groups groups :
  Forall (fun g => (2 <= length g)%nat /\ Forall clean_line g) groups ->
  exists tds,
    mapM table_data_of groups = Some (map (fun td => [td]) tds)
    /\ Forall2 (fun g td =>
                  exists first rest,
                    g = first :: rest /\ rest <> []
                    /\ group_bbox g = Some (td_bbox td)
                    /\ td = mkTableData (texts first) (map texts rest)
                                        (td_bbox td) (lefts first))
               groups tds.
Proof.
  induction 1 as [|g gs [Hlen Hclean] _ (tds & Htds & Hall)].
  - exists []. split; [done|constructor].
  - destruct (table_data_of_group g Hlen Hclean)
      as (first & rest & box & -> & Hrest & Hbox & Htd).
    exists (mkTableData (texts first) (map texts rest) box (lefts first) :: tds).
    split.
    + change (mapM table_data_of ((first :: rest) :: gs)) with
        (y ← table_data_of (first :: rest); k ← mapM table_data_of gs; mret (y :: k)).
      rewrite Htd, Htds. done.
    + constructor; [|done]. exists first, rest. by repeat split.
Qed.

(** The candidates of a page, one for each group of its lines. *)
Lemma extract_tables_groups page :
  exists tables,
    extract_tables page = Some tables
    /\ Forall2 (built_from (page_number page))
               (group_lines_into_tables (text_lines_of (page_blocks page))) tables.
Proof.
  unfold extract_tables, find_table_areas.
  destruct (table_data_of_groups _
              (groups_clean _ (text_lines_of_clean (page_blocks page))))
    as (tds & -> & Hall).
  simpl. rewrite concat_singletons. eexists. split; [done|].
  induction Hall as [|g td gs tds (first & rest & -> & Hrest & Hbox & Htd) _ IH];
    simpl; constructor; [|done].
  exists first, rest. rewrite Htd. simpl. by repeat split.
Qed.

Lemma built_from_well_shaped page g t :
  (2 <= length g)%nat -> Forall clean_line g ->
  built_from page g t -> well_shaped t.
Proof.
  intros Hlen Hg (first & rest & -> & Hs & He & Hc & Hr & Hx & Hbox).
  apply Forall_cons in Hg as [(Hspans & Hfilled & Hsorted) Hrest].
  unfold well_shaped. rewrite Hs, He, Hc, Hr, Hx.
  split; [done|]. split.
  { unfold texts. by destruct (line_spans first). }
  split; [unfold lefts, texts; by rewrite !length_map|]. split.
  { destruct rest; [simpl in Hlen; lia|done]. }
  split; [done|]. split.
  { apply Forall_map. eapply Forall_impl; [exact Hrest|].
    intros line (Hsp & Hf & _). simpl. split; [|done].
    unfold texts. by destruct (line_spans line). }
  split; [done|].
  apply Forall_forall. intros x Hx'.
  eapply group_bbox_left; [exact Hbox|left|done].
Qed.

Lemma extract_tables_shapes page tables :
  extract_tables page = Some tables ->
  Forall (fun t => well_shaped t /\ page_start t = page_number page) tables.
Proof.
  intros E. destruct (extract_tables_groups page) as (tables' & E' & Hall).
  rewrite E in E'. injection E' as <-.
  pose proof (groups_clean _ (text_lines_of_clean (page_blocks page))) as Hg.
  clear E. induction Hall as [|g t gs ts Hb _ IH]; constructor.
  - apply Forall_cons in Hg as [[Hlen Hclean] _]. split.
    + by eapply built_from_well_shaped.
    + by destruct Hb as (? & ? & _ & ? & _).
  - apply Forall_cons in Hg as [_ Hg]. by apply IH.
Qed.

(** X11.  [extract_tables] never fails: every line it groups has a run, so
    no [min] or [max] meets an empty sequence.  It returns one candidate
    for each group of lines, in order, built from that group: on the
    page's number, the first line giving the headers and the
    x-coordinates, the remaining lines the rows. *)
Theorem extract_tables_total (page : Page) :
  exists tables : list TableBlock,
    extract_tables page = Some tables
    /\ Forall2 (built_from (page_number page))
               (group_lines_into_tables (text_lines_of (page_blocks page)))
               tables.
Proof. apply extract_tables_groups. Qed.

(** X12.  Every candidate [extract_tables] returns lies on one page, has at
    least one header and at least one row, as many x-coordinates as
    headers, headers and cells that are stripped and not empty, no empty
    row, x-coordinates in ascending order, and a box that starts at or
    before each of them. *)
Theorem extract_tables_well_shaped (page : Page) (tables : list TableBlock) :
  extract_tables page = Some tables ->
  Forall (fun t => well_shaped t /\ page_start t = page_number page) tables.
Proof. apply extract_tables_shapes. Qed.

Lemma extract_tables_well_shaped_witness :
  Forall (fun t => well_shaped t /\ page_start t = 4) Sample2.grid_tables.
Proof.
  apply (extract_tables_well_shaped Sample2.grid_page Sample2.grid_tables).
  reflexivity.
Defined.

End AreaFacts.

(* ===================================================================== *)
(** * Text density and the page profile *)
(* ===================================================================== *)

Module ProfileFacts.
Import PageClassifier PyFacts StripFacts PageClassifierFacts Spec Notions.

Lemma inject_nat_nonneg n : (0 <= inject_Z (Z.of_nat n))%Q.
Proof. unfold Qle. simpl. lia. Qed.

Lemma Qdiv_nonneg a b : (0 <= a)%Q -> (0 <= b)%Q -> (0 <= a / b)%Q.
Proof.
  intros Ha Hb. destruct (Qeq_dec b 0) as [E|E].
  - unfold Qdiv. rewrite E. unfold Qinv. simpl. lra.
  - apply Qle_shift_div_l; lra.
Qed.

(** The estimated character area is never negative. *)
Lemma calculate_text_density_cases text_lines page_area :
  ((page_area <= 0)%Q /\ calculate_text_density text_lines page_area = 0%Q)
  \/ ((0 < page_area)%Q /\
      exists est,
        (0 <= est)%Q
        /\ (est == inject_Z (Z.of_nat (length (List.filter
                      (fun line => Py.truthy (Py.strip line)) text_lines)))
                   * (inject_Z (Z.of_nat (list_sum (map Py.len text_lines)))
                      / inject_Z (Z.of_nat (Nat.max (length text_lines) 1)))
                   * 72)%Q
        /\ calculate_text_density text_lines page_area = Py.min (est / page_area) 1).
Proof.
  unfold calculate_text_density. case_leb page_area 0%Q; [left; by split|].
  right. split; [done|]. eexists. split; [|split; [|reflexivity]].
  - pose proof (inject_nat_nonneg (length (List.filter
                  (fun line => Py.truthy (Py.strip line)) text_lines))) as H1.
    pose proof (Qdiv_nonneg _ _ (inject_nat_nonneg (list_sum (map Py.len text_lines)))
                  (inject_nat_nonneg (Nat.max (length text_lines) 1))) as H2.
    nra.
  - ring.
Qed.

Lemma filter_blank text_lines :
  Forall blank text_lines ->
  List.filter (fun line => Py.truthy (Py.strip line)) text_lines = [].
Proof.
  induction 1 as [|line ls Hl _ IH]; simpl; [done|].
  apply strip_blank in Hl. by rewrite Hl.
Qed.

Lemma text_density_bounds (text_lines : list str) (page_area : Q) :
  (0 <= calculate_text_density text_lines page_area <= 1)%Q
  /\ ((page_area <= 0)%Q -> calculate_text_density text_lines page_area = 0%Q)
  /\ (Forall blank text_lines ->
      (calculate_text_density text_lines page_area == 0)%Q).
Proof.
  destruct (calculate_text_density_cases text_lines page_area)
    as [[Ha ->]|(Ha & est & Hest & Eest & ->)].
  - split; [lra|]. split; [done|]. intros _. reflexivity.
  - assert (Hq : (0 <= est / page_area)%Q) by (apply Qdiv_nonneg; lra).
    split; [|split].
    + unfold Py.min. destruct (Qlt_le_dec 1 (est / page_area)); lra.
    + intros Hle. lra.
    + intros Hblank.
      rewrite (filter_blank _ Hblank) in Eest. simpl in Eest.
      assert (E0 : (est == 0)%Q) by (rewrite Eest; ring).
      unfold Py.min. destruct (Qlt_le_dec 1 (est / page_area)) as [Hlt|_].
      * rewrite E0 in Hlt. unfold Qdiv in Hlt. rewrite Qmult_0_l in Hlt. lra.
      * rewrite E0. unfold Qdiv. apply Qmult_0_l.
Qed.

(** X13.  The text density lies between 0 and 1 for any lines and any page
    area; it is 0 when the area is not positive and when no line has
    anything but whitespace. *)
Theorem calculate_text_density_range (text_lines : list str) (page_area : Q) :
  (0 <= calculate_text_density text_lines page_area <= 1)%Q
  /\ ((page_area <= 0)%Q -> calculate_text_density text_lines page_area = 0%Q)
  /\ (Forall blank text_lines ->
      (calculate_text_density text_lines page_area == 0)%Q).
Proof. apply text_density_bounds. Qed.

(** ** Splitting a text into lines *)

Lemma split_blank sep s : blank s -> Forall blank (Py.split sep s).
Proof.
  unfold blank. induction 1 as [|c l Hc _ IH]; simpl; [by repeat constructor|].
  destruct (c =? sep)%N; [by repeat constructor|].
  destruct (Py.split sep l) as [|piece pieces]; [by repeat constructor|].
  apply Forall_cons in IH as [H1 H2]. constructor; [by constructor|done].
Qed.

Section WithUnicode.
Context {U : Py.Unicode}.

Lemma determine_if_scan_short {P} char_count density images (paths : list P) text :
  char_count < 10 -> determine_if_scan char_count density images paths text = true.
Proof. intros H. unfold determine_if_scan. by destruct (Z.ltb_spec char_count 10); [|lia]. Qed.

Lemma determine_if_scan_dense {P} char_count density images (paths : list P) text :
  10 <= char_count -> (1 # 10 <= density)%Q ->
  determine_if_scan char_count density images paths text = false.
Proof.
  intros Hc Hd. unfold determine_if_scan.
  destruct (Z.ltb_spec char_count 10); [lia|].
  assert (Py.ltb density (5 # 100) = false) as -> by (apply ltb_ge; lra).
  assert (Py.ltb density (1 # 10) = false) as -> by (apply ltb_ge; lra).
  done.
Qed.

(** X14.  The profile of a page: the density it reports lies between 0 and
    1; a page whose text is nothing but whitespace has no text, density 0
    and is a scan; a page with fewer than 10 characters of trimmed text is
    a scan and has no text; a page that is not a scan has at least 10
    characters; and a page whose density is at least 0.1 is a scan only
    when it has fewer than 10 characters. *)
Theorem classify_page_profile (page : Page) (n : Z) :
  let profile := classify_page page n in
  (0 <= text_density profile <= 1)%Q
  /\ page_num profile = n
  /\ has_table profile = detect_table_structure (page_blocks page)
  /\ (has_images profile = true <-> page_images page <> [])
  /\ (blank (page_text page) ->
      char_count profile = 0 /\ has_text profile = false
      /\ is_scan profile = true /\ (text_density profile == 0)%Q)
  /\ (char_count profile < 10 ->
      is_scan profile = true /\ has_text profile = false)
  /\ (is_scan profile = false -> 10 <= char_count profile)
  /\ ((1 # 10 <= text_density profile)%Q ->
      (is_scan profile = true <-> char_count profile < 10)).
Proof.
  simpl. split; [apply text_density_bounds|]. split; [done|].
  split; [done|]. split.
  { destruct (page_images page); simpl; split; done. }
  split.
  { intros Hblank. pose proof Hblank as Hs. apply strip_blank in Hs. rewrite Hs.
    simpl. split; [done|]. split; [done|]. split; [done|].
    apply text_density_bounds. by apply split_blank. }
  split.
  { intros Hc. split; [by apply determine_if_scan_short|].
    apply Z.ltb_ge. lia. }
  split.
  { intros Hs. destruct (Z.lt_ge_cases (Z.of_nat (Py.len (Py.strip (page_text page)))) 10)
      as [Hlt|Hge]; [|done].
    rewrite determine_if_scan_short in Hs; done. }
  intros Hd. split.
  - intros Hs. destruct (Z.lt_ge_cases (Z.of_nat (Py.len (Py.strip (page_text page)))) 10)
      as [Hlt|Hge]; [done|].
    rewrite determine_if_scan_dense in Hs; done.
  - apply determine_if_scan_short.
Qed.

End WithUnicode.

End ProfileFacts.

(* ===================================================================== *)
(** * Header similarity, the merge test and the merge, continued *)
(* ===================================================================== *)

Module MergeMoreFacts.
Import TableMerge PyFacts StripFacts TableMergeFacts Spec Notions.

Section Headers.
Context {U : Py.Unicode}.

Lemma header_match_sym a b : header_match (a, b) = header_match (b, a).
Proof. unfold header_match, Py.eqb. simpl. apply bool_decide_ext. by split. Qed.

Lemma matches_sym h1 h2 :
  length (List.filter header_match (combine h1 h2))
  = length (List.filter header_match (combine h2 h1)).
Proof.
  revert h2. induction h1 as [|a h1 IH]; intros [|b h2]; simpl; try done.
  rewrite (header_match_sym a b). destruct (header_match (b, a)); simpl; by rewrite IH.
Qed.

Lemma matches_same h :
  length (List.filter header_match (combine h h)) = length h.
Proof.
  induction h as [|a h IH]; simpl; [done|].
  unfold header_match at 1, Py.eqb. cbn [fst snd].
  rewrite bool_decide_eq_true_2 by done. simpl. by rewrite IH.
Qed.

Lemma matches_le h1 h2 :
  (length (List.filter header_match (combine h1 h2)) <= length h1)%nat.
Proof.
  etrans; [apply List.filter_length_le|]. rewrite length_combine. lia.
Qed.

Lemma header_match_strip a b : header_match (Py.strip a, b) = header_match (a, b).
Proof. unfold header_match. cbn [fst snd]. by rewrite strip_idemp. Qed.

Lemma matches_strip_l h1 h2 :
  length (List.filter header_match (combine (map Py.strip h1) h2))
  = length (List.filter header_match (combine h1 h2)).
Proof.
  revert h2. induction h1 as [|a h1 IH]; intros [|b h2]; try done.
  cbn [map combine List.filter]. rewrite header_match_strip.
  destruct (header_match (a, b)); cbn [length]; by rewrite IH.
Qed.

Lemma ratio_le_one m n :
  (0 < n)%nat -> (m <= n)%nat ->
  (0 <= inject_Z (Z.of_nat m) / inject_Z (Z.of_nat n) <= 1)%Q.
Proof.
  intros Hn Hm.
  assert (H0 : (0 < inject_Z (Z.of_nat n))%Q) by (unfold Qlt; simpl; lia).
  assert (H1 : (0 <= inject_Z (Z.of_nat m))%Q) by (unfold Qle; simpl; lia).
  assert (H2 : (inject_Z (Z.of_nat m) <= inject_Z (Z.of_nat n))%Q).
  { rewrite <- Zle_Qle. lia. }
  split.
  - apply Qle_shift_div_l; lra.
  - apply Qle_shift_div_r; lra.
Qed.

Lemma compare_headers_sym h1 h2 : compare_headers h1 h2 = compare_headers h2 h1.
Proof.
  unfold compare_headers.
  destruct (Nat.eqb_spec (length h1) (length h2)) as [E|E].
  - rewrite E, Nat.eqb_refl, matches_sym. simpl.
    destruct h1, h2; simpl in *; done.
  - destruct (Nat.eqb_spec (length h2) (length h1)); [congruence|done].
Qed.

Lemma compare_headers_refl h : (compare_headers h h == 1)%Q.
Proof.
  unfold compare_headers. rewrite Nat.eqb_refl. simpl.
  destruct h as [|a h]; [reflexivity|].
  rewrite matches_same. simpl Py.nonempty. cbv iota.
  apply Qmult_inv_r. by unfold Qeq.
Qed.

(** X15.  The header similarity lies between 0 and 1, does not depend on
    the order of the two lists, is 1 on a list and itself, and is not
    changed by stripping the headers beforehand. *)
Theorem compare_headers_properties (headers1 headers2 : list str) :
  (0 <= compare_headers headers1 headers2 <= 1)%Q
  /\ compare_headers headers1 headers2 = compare_headers headers2 headers1
  /\ (compare_headers headers1 headers1 == 1)%Q
  /\ compare_headers (map Py.strip headers1) headers2
     = compare_headers headers1 headers2
  /\ TableBuffer._compare_headers headers1 headers2
     = compare_headers headers1 headers2.
Proof.
  split; [|split; [apply compare_headers_sym|split; [apply compare_headers_refl|split]]].
  - unfold compare_headers.
    destruct (Nat.eqb_spec (length headers1) (length headers2)); simpl; [|lra].
    destruct headers1 as [|a h1]; simpl Py.nonempty; cbv iota; [lra|].
    apply ratio_le_one; [simpl; lia|apply matches_le].
  - unfold compare_headers. rewrite length_map, matches_strip_l.
    by destruct headers1.
  - done.
Qed.

(** ** The merge test *)

Lemma alignment_ok_mono tol tol' t1 t2 :
  (tol <= tol')%Q -> alignment_ok tol t1 t2 = true -> alignment_ok tol' t1 t2 = true.
Proof.
  intros Hle. rewrite !alignment_ok_spec. unfold coordinates_aligned.
  intros H Hx1 Hx2. destruct (H Hx1 Hx2) as [Hlen Hall]. split; [done|].
  eapply Forall2_impl; [exact Hall|]. intros a b Hab.
  eapply Qle_trans; [exact Hab|exact Hle].
Qed.

(** X16.  [is_table_continuation] only becomes more permissive when the
    allowed page gap or the column tolerance grows. *)
Theorem is_table_continuation_monotone
    (table1 table2 : TableBlock) (gap gap' : Z) (tol tol' : Q) :
  gap <= gap' -> (tol <= tol')%Q ->
  is_table_continuation table1 table2 gap tol = true ->
  is_table_continuation table1 table2 gap' tol' = true.
Proof.
  intros Hg Ht. unfold is_table_continuation.
  destruct (Z.ltb_spec gap (Z.abs (page_start table2 - page_end table1))); [done|].
  destruct (Z.ltb_spec gap' (Z.abs (page_start table2 - page_end table1))); [lia|].
  destruct (column_counts_ok table1 table2); simpl; [|done].
  destruct (alignment_ok tol table1 table2) eqn:E; simpl; [|done].
  by rewrite (alignment_ok_mono tol tol' _ _ Ht E).
Qed.

End Headers.

Lemma is_table_continuation_monotone_witness :
  is_table_continuation (U := Py.latin1_only) Sample.tA Sample.tB 2 (25 # 2) = true.
Proof.
  apply (is_table_continuation_monotone (U := Py.latin1_only)
           Sample.tA Sample.tB 1 2 10 (25 # 2)).
  - lia.
  - unfold Qle; simpl; lia.
  - reflexivity.
Defined.

Section Symmetry.
Context {U : Py.Unicode}.

Lemma column_counts_ok_sym t1 t2 : column_counts_ok t1 t2 = column_counts_ok t2 t1.
Proof.
  apply eq_true_iff_eq. rewrite !column_counts_ok_spec.
  unfold column_counts_compatible. intuition congruence.
Qed.

Lemma Qabs_sym x y : (Qabs (x - y) == Qabs (y - x))%Q.
Proof. rewrite <- (Qabs_opp (x - y)). apply Qabs_wd. ring. Qed.

Lemma alignment_ok_sym tol t1 t2 : alignment_ok tol t1 t2 = alignment_ok tol t2 t1.
Proof.
  assert (H : forall u v, coordinates_aligned tol u v -> coordinates_aligned tol v u).
  { intros u v Huv Hv Hu. destruct (Huv Hu Hv) as [Hlen Hall]. split; [done|].
    apply Forall2_flip. eapply Forall2_impl; [exact Hall|].
    intros a b Hab. change (Qabs (b - a) <= tol)%Q.
    rewrite (Qabs_sym b a). exact Hab. }
  apply eq_true_iff_eq. rewrite !alignment_ok_spec. split; apply H.
Qed.

Lemma headers_ok_sym t1 t2 : headers_ok t1 t2 = headers_ok t2 t1.
Proof.
  unfold headers_ok. rewrite (compare_headers_sym (columns t1)), andb_comm. done.
Qed.

Lemma alignment_ok_refl tol t : (0 <= tol)%Q -> alignment_ok tol t t = true.
Proof.
  intros Htol. apply alignment_ok_spec. intros _ _. split; [done|].
  induction (x_coordinates t) as [|x xs IH]; constructor; [|done].
  assert (x - x == 0)%Q as -> by ring. done.
Qed.

Lemma headers_ok_refl t : headers_ok t t = true.
Proof.
  unfold headers_ok. destruct (Py.nonempty (columns t)); simpl; [|done].
  apply negb_true_iff, ltb_ge. rewrite compare_headers_refl. by unfold Qle.
Qed.

(** X17.  On tables that lie on one page each, the merge test of the buffer
    does not depend on the order of the two tables, and a table passes it
    with itself. *)
Theorem can_merge_tables_one_page (table1 table2 : TableBlock) :
  page_end table1 = page_start table1 ->
  page_end table2 = page_start table2 ->
  TableBuffer._can_merge_tables table1 table2
  = TableBuffer._can_merge_tables table2 table1
  /\ TableBuffer._can_merge_tables table1 table1 = true.
Proof.
  intros E1 E2. rewrite !can_merge_tables_checks. split.
  - rewrite (column_counts_ok_sym table1), (alignment_ok_sym _ table1),
      (headers_ok_sym table1), E1, E2.
    do 3 f_equal. apply eq_true_iff_eq. rewrite !Z.leb_le. lia.
  - assert (alignment_ok 10 table1 table1 = true) as ->.
    { apply alignment_ok_refl. by unfold Qle. }
    rewrite headers_ok_refl, E1.
    assert (column_counts_ok table1 table1 = true) as ->.
    { apply column_counts_ok_spec. by left. }
    rewrite Z.sub_diag. done.
Qed.

End Symmetry.

Lemma can_merge_tables_one_page_witness :
  TableBuffer._can_merge_tables (U := Py.latin1_only) Sample.tA Sample.tB
  = TableBuffer._can_merge_tables (U := Py.latin1_only) Sample.tB Sample.tA
  /\ TableBuffer._can_merge_tables (U := Py.latin1_only) Sample.tA Sample.tA = true.
Proof.
  apply (can_merge_tables_one_page (U := Py.latin1_only) Sample.tA Sample.tB);
    reflexivity.
Defined.

(** ** The merge *)

Lemma min_assoc a b c : Py.min (Py.min a b) c = Py.min a (Py.min b c).
Proof.
  unfold Py.min.
  destruct (Qlt_le_dec b a), (Qlt_le_dec c b);
    repeat match goal with
           | |- context [Qlt_le_dec ?x ?y] => destruct (Qlt_le_dec x y)
           end; try reflexivity; exfalso; lra.
Qed.

Lemma max_assoc a b c : Py.max (Py.max a b) c = Py.max a (Py.max b c).
Proof.
  unfold Py.max.
  destruct (Qlt_le_dec a b), (Qlt_le_dec b c);
    repeat match goal with
           | |- context [Qlt_le_dec ?x ?y] => destruct (Qlt_le_dec x y)
           end; try reflexivity; exfalso; lra.
Qed.

(** The merge when the first table does not start after the second. *)
Lemma merge_ordered t1 t2 :
  page_start t1 <= page_start t2 ->
  merge_tables_if_compatible t1 t2
  = mkTableBlock (page_start t1) (Z.max (page_end t1) (page_end t2))
      (if Py.nonempty (columns t1) then columns t1 else columns t2)
      (rows t1 ++ rows t2)
      (mkBBox (Py.min (bx0 (bbox t1)) (bx0 (bbox t2)))
              (Py.min (by0 (bbox t1)) (by0 (bbox t2)))
              (Py.max (bx1 (bbox t1)) (bx1 (bbox t2)))
              (Py.max (by1 (bbox t1)) (by1 (bbox t2))))
      (if Py.nonempty (x_coordinates t1) then x_coordinates t1 else x_coordinates t2).
Proof.
  intros H. unfold merge_tables_if_compatible.
  destruct (Z.leb_spec (page_start t1) (page_start t2)); [|lia].
  f_equal. lia.
Qed.

(** X18.  When the two tables start on different pages the merge does not
    depend on the order in which they are given. *)
Theorem merge_tables_if_compatible_order (table1 table2 : TableBlock) :
  page_start table1 <> page_start table2 ->
  merge_tables_if_compatible table1 table2
  = merge_tables_if_compatible table2 table1.
Proof.
  intros Hne. unfold merge_tables_if_compatible.
  destruct (Z.leb_spec (page_start table1) (page_start table2));
    destruct (Z.leb_spec (page_start table2) (page_start table1));
    try lia; reflexivity.
Qed.

Lemma merge_tables_if_compatible_order_witness :
  merge_tables_if_compatible Sample.tA Sample.tB
  = merge_tables_if_compatible Sample.tB Sample.tA.
Proof.
  apply (merge_tables_if_compatible_order Sample.tA Sample.tB). discriminate.
Defined.

(** X19.  Along the page order the merge is associative: merging [A] with
    [B] and the result with [C] gives the same table as merging [A] with
    the merge of [B] and [C]. *)
Theorem merge_tables_if_compatible_assoc (A B C : TableBlock) :
  page_start A <= page_start B -> page_start B <= page_start C ->
  merge_tables_if_compatible (merge_tables_if_compatible A B) C
  = merge_tables_if_compatible A (merge_tables_if_compatible B C).
Proof.
  intros HAB HBC.
  rewrite (merge_ordered A B HAB), (merge_ordered B C HBC).
  rewrite !merge_ordered by (simpl; lia). simpl.
  f_equal.
  - lia.
  - by destruct (columns A), (columns B).
  - by rewrite app_assoc.
  - by rewrite !min_assoc, !max_assoc.
  - by destruct (x_coordinates A), (x_coordinates B).
Qed.

Lemma merge_tables_if_compatible_assoc_witness :
  merge_tables_if_compatible (merge_tables_if_compatible Sample.tA Sample.tB) Sample.tC
  = merge_tables_if_compatible Sample.tA (merge_tables_if_compatible Sample.tB Sample.tC).
Proof.
  apply (merge_tables_if_compatible_assoc Sample.tA Sample.tB Sample.tC);
    discriminate.
Defined.

End MergeMoreFacts.

(* ===================================================================== *)
(** * The two normalisers *)
(* ===================================================================== *)

Module NormalizeFacts.
Import TableMerge TableBuffer PyFacts StripFacts TableBufferFacts Spec Notions.

Lemma filter_all {A} (p : A -> bool) l :
  Forall (fun x => p x = true) l -> List.filter p l = l.
Proof. induction 1 as [|x l Hx _ IH]; simpl; [done|]. by rewrite Hx, IH. Qed.

Lemma map_fixed {A} (f : A -> A) l : Forall (fun x => f x = x) l -> map f l = l.
Proof. induction 1 as [|x l Hx _ IH]; simpl; [done|]. by rewrite Hx, IH. Qed.

Lemma filter_map_swap {A B} (p : B -> bool) (f : A -> B) l :
  List.filter p (map f l) = map f (List.filter (fun x => p (f x)) l).
Proof.
  induction l as [|x l IH]; simpl; [done|]. destruct (p (f x)); simpl; by rewrite IH.
Qed.

Lemma map_strip_idemp row : map Py.strip (map Py.strip row) = map Py.strip row.
Proof. rewrite map_map. apply map_ext. intros. apply strip_idemp. Qed.

(** A row has something in it exactly when it is not blank. *)
Lemma kept_not_blank row :
  existsb Py.truthy (map Py.strip row) = negb (blank_row row).
Proof.
  unfold blank_row. induction row as [|cell row IH]; simpl; [done|].
  rewrite IH. by destruct (Py.truthy (Py.strip cell)).
Qed.

Lemma blank_row_strip row : blank_row (map Py.strip row) = blank_row row.
Proof.
  unfold blank_row. induction row as [|cell row IH]; simpl; [done|].
  by rewrite strip_idemp, IH.
Qed.

(** The rows both normalisers return. *)
Lemma normalize_merged_table_rows t :
  rows (normalize_merged_table t)
  = map (map Py.strip) (List.filter (fun row => negb (blank_row row)) (rows t)).
Proof.
  unfold normalize_merged_table. simpl. rewrite filter_map_swap.
  f_equal. apply List.filter_ext. intros row. apply kept_not_blank.
Qed.

Lemma cleaned_rows_fixed rs :
  map (map Py.strip)
      (List.filter (fun row => negb (blank_row row))
                   (map (map Py.strip) (List.filter (fun row => negb (blank_row row)) rs)))
  = map (map Py.strip) (List.filter (fun row => negb (blank_row row)) rs).
Proof.
  rewrite filter_map_swap, map_map.
  rewrite (List.filter_ext _ (fun row => negb (blank_row row)))
    by (intros row; by rewrite blank_row_strip).
  assert (Hf : forall l : list (list str),
             List.filter (fun row => negb (blank_row row))
                         (List.filter (fun row => negb (blank_row row)) l)
             = List.filter (fun row => negb (blank_row row)) l).
  { intros l. apply filter_all. apply Forall_forall.
    intros row Hrow%list_elem_of_In%filter_In. by destruct Hrow. }
  rewrite Hf. apply map_ext. intros row. apply map_strip_idemp.
Qed.

Lemma cleaned_rows_clean rs :
  Forall (fun row => Forall stripped row /\ exists cell, cell ∈ row /\ cell <> [])
         (map (map Py.strip) (List.filter (fun row => negb (blank_row row)) rs)).
Proof.
  apply Forall_map, Forall_forall.
  intros row Hrow%list_elem_of_In%filter_In. destruct Hrow as [_ Hnb]. simpl. split.
  - apply Forall_map, Forall_forall. intros cell _. apply strip_idemp.
  - rewrite <- kept_not_blank in Hnb.
    apply existsb_exists in Hnb as (cell & Hin & Ht).
    exists cell. split; [by apply list_elem_of_In|by apply truthy_true].
Qed.

(** X20.  [normalize_merged_table] is idempotent, and in its result every
    header and every cell is stripped and every row has a cell that is not
    empty. *)
Theorem normalize_merged_table_idempotent (table : TableBlock) :
  normalize_merged_table (normalize_merged_table table) = normalize_merged_table table
  /\ Forall stripped (columns (normalize_merged_table table))
  /\ Forall (fun row => Forall stripped row
                        /\ exists cell, cell ∈ row /\ cell <> [])
            (rows (normalize_merged_table table)).
Proof.
  split; [|split].
  - pose proof (normalize_merged_table_rows (normalize_merged_table table)) as Hr.
    rewrite (normalize_merged_table_rows table), cleaned_rows_fixed,
      <- (normalize_merged_table_rows table) in Hr.
    destruct (normalize_merged_table (normalize_merged_table table)) eqn:E1.
    destruct (normalize_merged_table table) eqn:E2.
    unfold normalize_merged_table in E1. simpl in *.
    injection E1 as <- <- <- _ <- <-. f_equal; [|done].
    unfold normalize_merged_table in E2. injection E2 as _ _ <- _ _ _.
    apply map_strip_idemp.
  - simpl. apply Forall_map, Forall_forall. intros h _. apply strip_idemp.
  - rewrite normalize_merged_table_rows. apply cleaned_rows_clean.
Qed.

(** X21.  [normalize_table] is idempotent; in its result every cell is
    stripped and every row has a cell that is not empty, and it never has
    more rows than its input. *)
Theorem normalize_table_idempotent (table : MergedTable) :
  normalize_table (normalize_table table) = normalize_table table
  /\ Forall (fun row => Forall stripped row
                        /\ exists cell, cell ∈ row /\ cell <> [])
            (merged_rows (normalize_table table))
  /\ (length (merged_rows (normalize_table table)) <= length (merged_rows table))%nat.
Proof.
  split; [|split].
  - pose proof (normalize_table_rows (normalize_table table)) as Hr.
    rewrite (normalize_table_rows table), cleaned_rows_fixed,
      <- (normalize_table_rows table) in Hr.
    destruct (normalize_table (normalize_table table)) eqn:E1.
    destruct (normalize_table table) eqn:E2.
    unfold normalize_table in E1. simpl in *.
    injection E1 as <- <- _ <-. by f_equal.
  - rewrite normalize_table_rows. apply cleaned_rows_clean.
  - rewrite normalize_table_rows, length_map. apply List.filter_length_le.
Qed.

(** X22.  The two normalisers return the same rows on the same rows:
    stripping the cells and then dropping the empty rows, as
    [normalize_merged_table] does, is dropping the blank rows and then
    stripping, as [normalize_table] does. *)
Theorem normalizers_agree_on_rows (table : TableBlock) (merged : MergedTable) :
  merged_rows merged = rows table ->
  merged_rows (normalize_table merged) = rows (normalize_merged_table table).
Proof.
  intros E. by rewrite normalize_table_rows, normalize_merged_table_rows, E.
Qed.

Lemma normalizers_agree_on_rows_witness :
  merged_rows (normalize_table Sample.padded)
  = rows (normalize_merged_table
            (mkTableBlock 1 1 (merged_columns Sample.padded)
                          (merged_rows Sample.padded) (Sample.box 0) [])).
Proof.
  apply (normalizers_agree_on_rows
           (mkTableBlock 1 1 (merged_columns Sample.padded)
                         (merged_rows Sample.padded) (Sample.box 0) [])
           Sample.padded).
  reflexivity.
Defined.

End NormalizeFacts.

(* ===================================================================== *)
(** * The groups [merge] returns *)
(* ===================================================================== *)

Module MergeGroupFacts.
Import TableBuffer TableMerge PyFacts TableBufferFacts Spec Notions.

Section WithUnicode.
Context {U : Py.Unicode}.

(** ** Every candidate lands in one group *)

Lemma group_originals σ first rest current k :
  original_tables (group_result σ first rest current k) = first :: take k rest.
Proof.
  unfold group_result. simpl. destruct k as [|k]; simpl; [|done]. by rewrite take_0.
Qed.

Lemma merge_loop_concat sorted_tables : forall σ,
  List.concat (map original_tables (snd (merge_loop σ sorted_tables))) = sorted_tables
  /\ Forall (fun m => original_tables m <> []) (snd (merge_loop σ sorted_tables))
  /\ (length (snd (merge_loop σ sorted_tables)) <= length sorted_tables)%nat.
Proof.
  induction sorted_tables as [sorted_tables IH] using (induction_ltof1 _ (@length loc)).
  intros σ. destruct sorted_tables as [|first rest]; simp merge_loop.
  - simpl. by repeat split.
  - cbn [snd map List.concat length].
    destruct (IH (drop (snd (absorb σ first rest)) rest)) with
      (σ := fst (fst (absorb σ first rest))) as (Hcat & Hne & Hlen).
    { unfold ltof. rewrite length_drop. simpl. lia. }
    rewrite length_drop in Hlen.
    split; [|split].
    + rewrite Hcat, group_originals. simpl. by rewrite take_drop.
    + constructor; [by rewrite group_originals|done].
    + lia.
Qed.

(** ** What a sweep leaves *)

Lemma merge_first t1 t2 :
  page_start t1 <= page_start t2 ->
  rows (merge_tables_if_compatible t1 t2) = rows t1 ++ rows t2
  /\ columns (merge_tables_if_compatible t1 t2)
     = (if Py.nonempty (columns t1) then columns t1 else columns t2)
  /\ page_start (merge_tables_if_compatible t1 t2) = page_start t1
  /\ page_end (merge_tables_if_compatible t1 t2) = Z.max (page_end t1) (page_end t2).
Proof.
  intros H. unfold merge_tables_if_compatible.
  apply Z.leb_le in H as Hb. rewrite Hb. simpl. repeat split. lia.
Qed.

Lemma map_deref_old σ ext ls :
  Forall (fun l => (l < length σ)%nat) ls ->
  map (deref (σ ++ ext)) ls = map (deref σ) ls.
Proof.
  induction 1 as [|l ls Hl _ IH]; simpl; [done|]. by rewrite IH, deref_old.
Qed.

Lemma taken_alone t : taken_together [t] t.
Proof.
  unfold taken_together. simpl. rewrite app_nil_r.
  split; [done|]. split; [by destruct (columns t)|].
  split; [by exists t|]. split; [by repeat constructor|by constructor].
Qed.

Lemma absorb_taken rest : forall σ current,
  Forall (fun l => (l < length σ)%nat) rest ->
  Forall (fun l => page_start (deref σ current) <= page_start (deref σ l)) rest ->
  taken_together
    (deref σ current :: map (deref σ) (take (snd (absorb σ current rest)) rest))
    (deref (fst (fst (absorb σ current rest))) (snd (fst (absorb σ current rest)))).
Proof.
  induction rest as [|next rest IH]; intros σ current Hvalid Hord.
  - apply taken_alone.
  - apply Forall_cons_1 in Hvalid as [Hnext Hvalid].
    apply Forall_cons_1 in Hord as [Hle Hord].
    simpl. destruct (_can_merge_tables _ _) eqn:Hcan.
    + unfold alloc.
      set (merged := merge_tables_if_compatible (deref σ current) (deref σ next)).
      destruct (merge_first (deref σ current) (deref σ next) Hle)
        as (Hrows & Hcols & Hstart & Hend).
      fold merged in Hrows, Hcols, Hstart, Hend.
      specialize (IH (σ ++ [merged]) (length σ)).
      rewrite deref_new in IH.
      rewrite map_deref_old in IH
        by (apply Forall_take; done).
      destruct (absorb (σ ++ [merged]) (length σ) rest) as [[σ2 cur'] k].
      cbn [fst snd] in *. cbn [take map].
      destruct IH as (Hr & Hc & (t0 & Ht0 & Hs) & Hall & Hex).
      * eapply Forall_impl; [exact Hvalid|]. intros l Hl. simpl in Hl.
        rewrite length_app. simpl. lia.
      * apply Forall_forall. intros l Hl.
        rewrite Forall_forall in Hvalid, Hord.
        rewrite deref_old by (by apply Hvalid). rewrite Hstart. by apply Hord.
      * simpl in Ht0. injection Ht0 as <-.
        apply Forall_cons_1 in Hall as [Hm Hall]. rewrite Hend in Hm.
        unfold taken_together. split; [|split; [|split; [|split]]].
        -- rewrite Hr. simpl. by rewrite Hrows, <- app_assoc.
        -- rewrite Hc. simpl. rewrite Hcols.
           destruct (Py.nonempty (columns (deref σ current))) eqn:E1; [by rewrite E1|].
           done.
        -- exists (deref σ current). split; [done|]. by rewrite Hs.
        -- constructor; [lia|]. constructor; [lia|done].
        -- apply Exists_cons in Hex as [Hex|Hex].
           ++ rewrite Hend in Hex.
              destruct (Z.max_spec (page_end (deref σ current)) (page_end (deref σ next)))
                as [[_ Hmax]|[_ Hmax]]; rewrite Hmax in Hex.
              ** apply Exists_cons_tl, Exists_cons_hd. done.
              ** by apply Exists_cons_hd.
           ++ by apply Exists_cons_tl, Exists_cons_tl.
    + apply taken_alone.
Qed.

(** X23.  The inner loop of [merge] is greedy: it stops only at the end of
    the sorted buffer or at the first candidate that fails the merge test
    against the table merged so far. *)
Theorem absorb_until_refused (rest : list loc) : forall (σ : store) (current : loc),
  Forall (fun l => (l < length σ)%nat) rest ->
  match rest !! snd (absorb σ current rest) with
  | Some next =>
      _can_merge_tables
        (deref (fst (fst (absorb σ current rest))) (snd (fst (absorb σ current rest))))
        (deref σ next) = false
  | None => snd (absorb σ current rest) = length rest
  end.
Proof.
  induction rest as [|next rest IH]; intros σ current Hvalid; [done|].
  apply Forall_cons_1 in Hvalid as [Hnext Hvalid].
  simpl. destruct (_can_merge_tables _ _) eqn:Hcan; [|done].
  unfold alloc.
  set (merged := merge_tables_if_compatible (deref σ current) (deref σ next)).
  specialize (IH (σ ++ [merged]) (length σ)).
  destruct (absorb (σ ++ [merged]) (length σ) rest) as [[σ2 cur'] k].
  cbn [fst snd] in *. simpl.
  assert (Hv : Forall (fun l => (l < length (σ ++ [merged]))%nat) rest).
  { eapply Forall_impl; [exact Hvalid|]. intros l Hl. simpl in Hl.
    rewrite length_app. simpl. lia. }
  specialize (IH Hv).
  destruct (rest !! k) as [n|] eqn:En; [|by rewrite IH].
  rewrite deref_old in IH; [done|].
  rewrite Forall_forall in Hvalid. apply Hvalid. by eapply list_elem_of_lookup_2.
Qed.

(** ** The groups of the outer loop *)

Lemma sorted_drop {A} (R : relation A) k : forall l,
  StronglySorted R l -> StronglySorted R (drop k l).
Proof.
  induction k as [|k IHk]; intros l Hs; [by rewrite drop_0|].
  destruct l as [|x l]; [done|]. simpl.
  apply IHk. by apply StronglySorted_inv in Hs as [? _].
Qed.

Lemma merge_loop_groups sorted_tables : forall σ0 ext,
  Forall (fun l => (l < length σ0)%nat) sorted_tables ->
  StronglySorted (fun a b => page_start (deref σ0 a) <= page_start (deref σ0 b))
                 sorted_tables ->
  Forall (fun m => merged_from (map (deref σ0) (original_tables m)) m)
         (snd (merge_loop (σ0 ++ ext) sorted_tables)).
Proof.
  induction sorted_tables as [sorted_tables IH] using (induction_ltof1 _ (@length loc)).
  intros σ0 ext Hvalid Hsorted.
  destruct sorted_tables as [|first rest]; simp merge_loop; [by constructor|].
  cbn [snd].
  apply Forall_cons_1 in Hvalid as [Hfirst Hrest].
  apply StronglySorted_inv in Hsorted as [Hsorted Hle].
  constructor.
  - rewrite group_originals.
    pose proof (absorb_taken rest (σ0 ++ ext) first) as H.
    rewrite deref_old in H by done.
    rewrite map_deref_old in H by (by apply Forall_take).
    destruct H as (Hr & Hc & (t0 & Ht0 & Hs) & Hall & Hex).
    + eapply Forall_impl; [exact Hrest|]. intros l Hl. simpl in Hl.
      rewrite length_app. lia.
    + apply Forall_forall. intros l Hl. rewrite Forall_forall in Hle, Hrest.
      rewrite deref_old by (by apply Hrest). by apply Hle.
    + unfold merged_from, group_result. cbn [merged_rows merged_columns page_range fst snd map].
      split; [done|]. split; [done|]. split; [by exists t0|]. done.
  - destruct (absorb_extends rest (σ0 ++ ext) first) as [ext1 Hext].
    rewrite Hext, <- app_assoc. apply IH.
    + unfold ltof. rewrite length_drop. simpl. lia.
    + by apply Forall_drop.
    + by apply sorted_drop.
Qed.

Lemma merge_loop_starts sorted_tables σ m :
  m ∈ snd (merge_loop σ sorted_tables) ->
  exists c others, original_tables m = c :: others /\ c ∈ sorted_tables.
Proof.
  intros Hm.
  destruct (merge_loop_concat sorted_tables σ) as (Hcat & Hne & _).
  rewrite Forall_forall in Hne. specialize (Hne _ Hm).
  destruct (original_tables m) as [|c others] eqn:E; [done|].
  exists c, others. split; [done|]. rewrite <- Hcat.
  apply list_elem_of_In, in_concat. exists (c :: others). split.
  - apply in_map_iff. exists m. split; [done|]. by apply list_elem_of_In.
  - by left.
Qed.

Lemma merge_loop_ordered sorted_tables : forall σ0 ext,
  Forall (fun l => (l < length σ0)%nat) sorted_tables ->
  StronglySorted (fun a b => page_start (deref σ0 a) <= page_start (deref σ0 b))
                 sorted_tables ->
  StronglySorted (fun m m' => fst (page_range m) <= fst (page_range m'))
                 (snd (merge_loop (σ0 ++ ext) sorted_tables)).
Proof.
  intros σ0 ext Hvalid Hsorted.
  pose proof (merge_loop_groups sorted_tables σ0 ext Hvalid Hsorted) as Hgroups.
  revert σ0 ext Hvalid Hsorted Hgroups.
  induction sorted_tables as [sorted_tables IH] using (induction_ltof1 _ (@length loc)).
  intros σ0 ext Hvalid Hsorted Hgroups.
  destruct sorted_tables as [|first rest]; revert Hgroups; simp merge_loop;
    [constructor|].
  cbn [snd]. intros Hgroups.
  apply Forall_cons_1 in Hgroups as [Hgroup Htail].
  apply Forall_cons_1 in Hvalid as [Hfirst Hrest].
  apply StronglySorted_inv in Hsorted as [Hsorted Hle].
  destruct (absorb_extends rest (σ0 ++ ext) first) as [ext1 Hext].
  constructor.
  - revert Htail. rewrite Hext, <- app_assoc. intros Htail. apply IH; try done.
    + unfold ltof. rewrite length_drop. simpl. lia.
    + by apply Forall_drop.
    + by apply sorted_drop.
  - apply Forall_forall. intros m Hm.
    rewrite Forall_forall in Htail. pose proof (Htail _ Hm) as Hmf.
    apply merge_loop_starts in Hm as (c & others & Ho & Hc).
    destruct Hmf as (_ & _ & (t0 & Ht0 & Hs) & _). rewrite Ho in Ht0.
    simpl in Ht0. injection Ht0 as <-. rewrite Hs.
    destruct Hgroup as (_ & _ & (t1 & Ht1 & Hs1) & _).
    rewrite group_originals in Ht1. simpl in Ht1. injection Ht1 as <-.
    rewrite Hs1. rewrite Forall_forall in Hle. apply Hle.
    revert Hc. apply subseteq_drop.
Qed.

Lemma sorted_by_page σ ls :
  StronglySorted (fun a b => page_start (deref σ a) <= page_start (deref σ b))
                 (Py.sorted (by_page_start σ) ls).
Proof. apply (sorted_key_sorted (fun l => page_start (deref σ l))). Qed.

Lemma sorted_valid σ (n : nat) ls :
  Forall (fun l => (l < n)%nat) ls ->
  Forall (fun l => (l < n)%nat) (Py.sorted (by_page_start σ) ls).
Proof. intros H. by rewrite sorted_perm. Qed.

(** ** Sweeping again *)

Lemma absorb_agree rest : forall σ σ' current current',
  Forall (fun l => (l < length σ)%nat /\ (l < length σ')%nat
                   /\ deref σ l = deref σ' l) rest ->
  deref σ current = deref σ' current' ->
  snd (absorb σ current rest) = snd (absorb σ' current' rest)
  /\ deref (fst (fst (absorb σ current rest))) (snd (fst (absorb σ current rest)))
     = deref (fst (fst (absorb σ' current' rest))) (snd (fst (absorb σ' current' rest))).
Proof.
  induction rest as [|next rest IH]; intros σ σ' current current' Hrest Hcur; [done|].
  apply Forall_cons_1 in Hrest as [(Hn & Hn' & Hnext) Hrest].
  simpl. rewrite <- Hcur, <- Hnext.
  destruct (_can_merge_tables _ _); [|done].
  unfold alloc.
  set (merged := merge_tables_if_compatible (deref σ current) (deref σ next)).
  destruct (IH (σ ++ [merged]) (σ' ++ [merged]) (length σ) (length σ')) as [Hk Hd].
  - eapply Forall_impl; [exact Hrest|]. intros l (Hl & Hl' & Hll). simpl.
    rewrite !length_app, !deref_old by done. simpl. split; [lia|]. split; [lia|done].
  - by rewrite !deref_new.
  - destruct (absorb (σ ++ [merged]) (length σ) rest) as [[σ2 c2] k].
    destruct (absorb (σ' ++ [merged]) (length σ') rest) as [[σ2' c2'] k'].
    cbn [fst snd] in *. by rewrite Hk.
Qed.

Lemma merge_loop_agree sorted_tables : forall σ σ',
  Forall (fun l => (l < length σ)%nat /\ (l < length σ')%nat
                   /\ deref σ l = deref σ' l) sorted_tables ->
  snd (merge_loop σ sorted_tables) = snd (merge_loop σ' sorted_tables).
Proof.
  induction sorted_tables as [sorted_tables IH] using (induction_ltof1 _ (@length loc)).
  intros σ σ' Hall. destruct sorted_tables as [|first rest]; simp merge_loop; [done|].
  cbn [snd].
  apply Forall_cons_1 in Hall as [(Hf & Hf' & Hfirst) Hrest].
  destruct (absorb_agree rest σ σ' first first Hrest Hfirst) as [Hk Hd].
  destruct (absorb_extends rest σ first) as [ext Hext].
  destruct (absorb_extends rest σ' first) as [ext' Hext'].
  f_equal.
  - unfold group_result. rewrite Hd, Hk. done.
  - rewrite <- Hk. apply IH.
    + unfold ltof. rewrite length_drop. simpl. lia.
    + apply Forall_drop. rewrite Hext, Hext'.
      eapply Forall_impl; [exact Hrest|]. intros l (Hl & Hl' & Hll). simpl.
      rewrite !length_app, !deref_old by done. split; [lia|]. split; [lia|done].
Qed.

Lemma insert_agree {A} (leb leb' : A -> A -> bool) x l :
  Forall (fun y => leb x y = leb' x y) l -> Py.insert leb x l = Py.insert leb' x l.
Proof.
  induction 1 as [|y l Hy _ IH]; simpl; [done|]. by rewrite Hy, IH.
Qed.

Lemma sorted_agree {A} (leb leb' : A -> A -> bool) l :
  (forall x y, x ∈ l -> y ∈ l -> leb x y = leb' x y) ->
  Py.sorted leb l = Py.sorted leb' l.
Proof.
  induction l as [|x l IH]; intros H; simpl; [done|].
  fold (Py.sorted leb l). fold (Py.sorted leb' l).
  rewrite IH by (intros; apply H; by right).
  apply insert_agree, Forall_forall. intros y Hy. rewrite sorted_perm in Hy.
  apply H; [by left|by right].
Qed.

Lemma merge_concat s :
  List.concat (map original_tables (snd (merge s)))
  = Py.sorted (by_page_start (objects s)) (tables s)
  /\ Forall (fun m => original_tables m <> []) (snd (merge s))
  /\ (length (snd (merge s)) <= length (tables s))%nat.
Proof.
  unfold merge. destruct (tables s) as [|l ls] eqn:E.
  - simpl. by repeat split.
  - destruct (merge_loop_concat (Py.sorted (by_page_start (objects s)) (l :: ls))
                                (objects s)) as (Hcat & Hne & Hlen).
    destruct (merge_loop _ _) as [σ merged]. cbn [fst snd] in *.
    split; [done|]. split; [done|].
    by rewrite (Permutation_length (sorted_perm _ (l :: ls))) in Hlen.
Qed.

Lemma merge_groups s :
  references_ok s ->
  Forall (fun m => merged_from (map (deref (objects s)) (original_tables m)) m)
         (snd (merge s)).
Proof.
  intros Hvalid. unfold merge. destruct (tables s) as [|l ls] eqn:E; [by constructor|].
  pose proof (merge_loop_groups (Py.sorted (by_page_start (objects s)) (l :: ls))
                                (objects s) []) as H.
  rewrite app_nil_r in H.
  destruct (merge_loop _ _) as [σ merged]. cbn [fst snd] in *.
  apply H.
  - apply sorted_valid. unfold references_ok in Hvalid. by rewrite E in Hvalid.
  - apply sorted_by_page.
Qed.

Lemma merge_sorted s :
  references_ok s ->
  StronglySorted (fun m m' => fst (page_range m) <= fst (page_range m'))
                 (snd (merge s)).
Proof.
  intros Hvalid. unfold merge. destruct (tables s) as [|l ls] eqn:E; [by constructor|].
  pose proof (merge_loop_ordered (Py.sorted (by_page_start (objects s)) (l :: ls))
                                 (objects s) []) as H.
  rewrite app_nil_r in H.
  destruct (merge_loop _ _) as [σ merged]. cbn [fst snd] in *.
  apply H.
  - apply sorted_valid. unfold references_ok in Hvalid. by rewrite E in Hvalid.
  - apply sorted_by_page.
Qed.

(** X24.  [merge] puts every buffered candidate into exactly one group:
    the original tables of the merged tables, one after the other, are the
    buffer in the order of [sorted] by first page.  No group is empty, and
    there are at most as many groups as candidates. *)
Theorem merge_partitions_buffer (s : State) :
  List.concat (map original_tables (snd (merge s)))
  = Py.sorted (by_page_start (objects s)) (tables s)
  /\ List.concat (map original_tables (snd (merge s))) ≡ₚ tables s
  /\ Forall (fun m => original_tables m <> []) (snd (merge s))
  /\ (length (snd (merge s)) <= length (tables s))%nat.
Proof.
  destruct (merge_concat s) as (Hcat & Hne & Hlen). split; [done|]. split; [|done].
  rewrite Hcat. apply sorted_perm.
Qed.

(** X25.  In a buffer whose references point into the store, every merged
    table is its original tables taken together: its rows are their rows
    one after the other, its headers are the first of their header lists
    that is not empty, its page range starts on the first page of the first
    of them and ends on the last page any of them ends on. *)
Theorem merge_group_contents (s : State) :
  references_ok s ->
  Forall (fun m => merged_from (map (deref (objects s)) (original_tables m)) m)
         (snd (merge s)).
Proof. apply merge_groups. Qed.

(** X26.  In a buffer whose references point into the store, the merged
    tables come in the order of the page they start on. *)
Theorem merge_result_by_page (s : State) :
  references_ok s ->
  StronglySorted (fun m m' => fst (page_range m) <= fst (page_range m'))
                 (snd (merge s)).
Proof. apply merge_sorted. Qed.

(** X27.  In a buffer whose references point into the store, calling
    [merge] again returns the same merged tables: the first call only
    allocates new objects and keeps the buffered candidates as they are.
    When the buffer is not empty the result is also what [merged_tables]
    holds afterwards. *)
Theorem merge_again (s : State) :
  references_ok s ->
  snd (merge (fst (merge s))) = snd (merge s)
  /\ merged_tables (fst (merge (fst (merge s)))) = merged_tables (fst (merge s))
  /\ (tables s <> [] -> merged_tables (fst (merge s)) = snd (merge s)).
Proof.
  intros Hvalid.
  assert (H2 : forall s', tables s' <> [] ->
                          merged_tables (fst (merge s')) = snd (merge s')).
  { intros s'. unfold merge. destruct (tables s') as [|l ls]; [done|].
    by destruct (merge_loop _ _) as [σ merged]. }
  assert (H1 : snd (merge (fst (merge s))) = snd (merge s)).
  { pose proof (merge_tables s) as Ht. destruct (merge_extends s) as [ext Hext].
    unfold merge at 1. rewrite Ht, Hext.
    unfold merge at 2. destruct (tables s) as [|l ls] eqn:E; [done|].
    assert (Hs : Py.sorted (by_page_start (objects s ++ ext)) (l :: ls)
                 = Py.sorted (by_page_start (objects s)) (l :: ls)).
    { apply sorted_agree. intros x y Hx Hy. unfold by_page_start.
      unfold references_ok in Hvalid. rewrite E, Forall_forall in Hvalid.
      by rewrite !deref_old by (by apply Hvalid). }
    rewrite Hs.
    pose proof (merge_loop_agree (Py.sorted (by_page_start (objects s)) (l :: ls))
                                 (objects s ++ ext) (objects s)) as Hagree.
    destruct (merge_loop (objects s ++ ext) _) as [σ1 m1].
    destruct (merge_loop (objects s) _) as [σ2 m2]. cbn [fst snd] in *.
    apply Hagree. rewrite sorted_perm.
    unfold references_ok in Hvalid. rewrite E in Hvalid.
    eapply Forall_impl; [exact Hvalid|]. intros x Hx. simpl in Hx.
    rewrite length_app, deref_old by done. split; [lia|]. split; [lia|done]. }
  split; [done|]. split; [|apply H2].
  destruct (tables s) as [|l ls] eqn:E.
  - unfold merge. rewrite E. simpl. by rewrite E.
  - rewrite !H2; [done|by rewrite E|by rewrite merge_tables, E].
Qed.

End WithUnicode.

Lemma absorb_until_refused_witness :
  let r := absorb (U := Py.latin1_only) (objects Sample2.two_groups) 0%nat
                  [1; 2; 3]%nat in
  _can_merge_tables (U := Py.latin1_only)
                    (deref (fst (fst r)) (snd (fst r))) Sample2.tD = false.
Proof.
  refine (absorb_until_refused (U := Py.latin1_only) [1; 2; 3]%nat
                               (objects Sample2.two_groups) 0%nat _).
  simpl. repeat constructor.
Defined.

Lemma merge_group_contents_witness :
  Forall (fun m => merged_from (map (deref (objects Sample2.two_groups))
                                    (original_tables m)) m)
         (snd (merge (U := Py.latin1_only) Sample2.two_groups)).
Proof.
  apply (merge_group_contents (U := Py.latin1_only) Sample2.two_groups).
  unfold references_ok. simpl. repeat constructor.
Defined.

Lemma merge_result_by_page_witness :
  StronglySorted (fun m m' => fst (page_range m) <= fst (page_range m'))
                 (snd (merge (U := Py.latin1_only) Sample2.two_groups)).
Proof.
  apply (merge_result_by_page (U := Py.latin1_only) Sample2.two_groups).
  unfold references_ok. simpl. repeat constructor.
Defined.

Lemma merge_again_witness :
  snd (merge (U := Py.latin1_only)
             (fst (merge (U := Py.latin1_only) Sample2.two_groups)))
  = snd (merge (U := Py.latin1_only) Sample2.two_groups).
Proof.
  refine (proj1 (merge_again (U := Py.latin1_only) Sample2.two_groups _)).
  unfold references_ok. simpl. repeat constructor.
Defined.

End MergeGroupFacts.

(* ===================================================================== *)
(** * The page loop *)
(* ===================================================================== *)

Module PipelineFacts.
Import PageClassifier TableAreas TableBuffer CleanText Main PyFacts TableBufferFacts
       StripFacts AreaFacts MergeGroupFacts Spec Notions.

Section WithUnicode.
Context {U : Py.Unicode}.

(** ** The branch taken for a page *)

(** X28.  What [process_single_pdf] does with the text of a classified
    page.  The text is extracted exactly when the page has more than 20
    characters and no table was detected; a page with fewer than 10
    characters goes to OCR whether or not it has a table; captions are
    asked for only when the page has 10 to 20 characters, an image, no
    table and a text density of at least 0.05; and on a page where a table
    was detected neither the text is extracted nor captions are made. *)
Theorem content_branch_of_page (page : Page) (page_idx : Z) :
  let profile := classify_page page page_idx in
  (content_branch profile = ExtractText
   <-> 20 < char_count profile /\ has_table profile = false)
  /\ (char_count profile < 10 -> content_branch profile = OcrPage)
  /\ (content_branch profile = CaptionImages ->
      10 <= char_count profile <= 20 /\ 0 < image_count profile
      /\ has_table profile = false /\ (5 # 100 <= text_density profile)%Q)
  /\ (has_table profile = true ->
      content_branch profile = OcrPage \/ content_branch profile = NoContent).
Proof.
  unfold content_branch, classify_page. cbn [has_text has_table is_scan has_images
                                             char_count image_count text_density].
  set (cc := Z.of_nat (Py.len (Py.strip (page_text page)))).
  set (td := calculate_text_density _ _).
  set (ic := Z.of_nat (length (page_images page))).
  unfold determine_if_scan.
  destruct (detect_table_structure (page_blocks page));
    destruct (Z.ltb_spec 20 cc), (Z.ltb_spec cc 10), (Z.ltb_spec 0 ic);
    destruct (Py.ltb td (5 # 100)) eqn:Etd;
    destruct (Py.ltb td (1 # 10) && Py.ltb (3 # 10) (special_chars_ratio (page_text page)));
    cbn [andb negb orb];
    try apply ltb_ge in Etd;
    repeat match goal with
           | |- _ /\ _ => split
           | |- _ <-> _ => split
           end;
    intros;
    repeat match goal with
           | H : _ /\ _ |- _ => destruct H
           end;
    first [done | lia | by left | by right].
Qed.

(** ** The tables the loop buffers *)

Lemma alloc_all_spec new_tables : forall σ,
  alloc_all σ new_tables = (σ ++ new_tables, seq (length σ) (length new_tables)).
Proof.
  induction new_tables as [|t ts IH]; intros σ; simpl.
  - by rewrite app_nil_r.
  - rewrite IH, <- app_assoc, length_app. simpl.
    by replace (length σ + 1)%nat with (S (length σ)) by lia.
Qed.

Lemma add_all_new page_idx ts : forall σ refs merged,
  fold_left (fun s table => add table (Some page_idx) s)
            (seq (length σ) (length ts))
            (mkState (σ ++ ts) refs merged)
  = mkState (σ ++ map (stamped page_idx) ts)
            (refs ++ seq (length σ) (length ts)) merged.
Proof.
  induction ts as [|t ts IH]; intros σ refs merged; simpl.
  - by rewrite !app_nil_r.
  - unfold add at 2. cbn [objects tables merged_tables].
    assert (Ha : forall f x, alter f (length σ) (σ ++ x :: ts) = σ ++ f x :: ts).
    { intros f x. replace (length σ) with (length σ + 0)%nat at 1 by lia.
      by rewrite alter_app_r. }
    rewrite !Ha.
    replace (σ ++ set_page_end page_idx (set_page_start page_idx t) :: ts)
      with ((σ ++ [stamped page_idx t]) ++ ts) by (by rewrite <- app_assoc).
    replace (S (length σ)) with (length (σ ++ [stamped page_idx t]))
      by (rewrite length_app; simpl; lia).
    rewrite IH, <- !app_assoc. simpl. done.
Qed.

Lemma buffer_tables_spec page page_idx s :
  exists ts,
    Forall well_shaped ts
    /\ buffer_tables page page_idx s
       = Some (mkState (objects s ++ map (stamped page_idx) ts)
                       (tables s ++ seq (length (objects s)) (length ts))
                       (merged_tables s)).
Proof.
  unfold buffer_tables.
  destruct (has_table (classify_page page page_idx)).
  - destruct (extract_tables_groups page) as (ts & E & _).
    exists ts. split.
    + eapply Forall_impl; [exact (extract_tables_shapes page ts E)|].
      by intros t [? _].
    + rewrite E. simpl. rewrite alloc_all_spec. by rewrite add_all_new.
  - exists []. split; [constructor|]. simpl. rewrite !app_nil_r. by destruct s.
Qed.

Lemma stamped_well_shaped page_idx t :
  well_shaped t ->
  well_shaped (stamped page_idx t)
  /\ page_start (stamped page_idx t) = page_idx
  /\ page_end (stamped page_idx t) = page_idx.
Proof.
  intros (_ & H). split; [|done]. split; [done|]. exact H.
Qed.

(** ** The calls that may raise *)

Lemma clean_text_cases text :
  (text = [] -> clean_text text = Some []) /\ (text <> [] -> clean_text text = None).
Proof. unfold clean_text. destruct text; simpl; split; congruence. Qed.

(** A text is appended only if it is cleaned, and no text that is not
    blank is ever cleaned. *)
Lemma append_text_blank text doc_blocks :
  blank text -> append_text text doc_blocks = Some doc_blocks.
Proof. intros H%strip_blank. unfold append_text. by rewrite H. Qed.

Lemma append_text_raises text doc_blocks :
  ~ blank text -> append_text text doc_blocks = None.
Proof.
  intros H. unfold append_text.
  destruct (Py.strip text) as [|c l] eqn:E; [by apply strip_blank in E|]. simpl.
  unfold clean_text. destruct text; [done|done].
Qed.

Lemma content_branch_text profile :
  content_branch profile = ExtractText ->
  has_text profile = true /\ has_table profile = false.
Proof.
  unfold content_branch.
  destruct (has_text profile), (has_table profile), (is_scan profile),
    (has_images profile); simpl; intros H; try discriminate H; done.
Qed.

Lemma text_page_not_blank page page_idx :
  has_text (classify_page page page_idx) = true -> ~ blank (extract_text page).
Proof.
  unfold classify_page, extract_text. cbn [has_text].
  intros H Hb%strip_blank. rewrite Hb in H. discriminate H.
Qed.

Section Services.
Variable ocr_page : Page -> str.
Variable caption_images : Page -> option (list str).

Lemma add_content_passes page page_idx doc_blocks :
  passes ocr_page caption_images page page_idx ->
  exists captions,
    add_content ocr_page caption_images page page_idx doc_blocks
    = Some (doc_blocks ++ map ImageCaption captions).
Proof.
  unfold passes, add_content. intros (Htext & Hocr & Hcap).
  destruct (content_branch (classify_page page page_idx)).
  - done.
  - exists []. rewrite app_nil_r. by apply append_text_blank, Hocr.
  - destruct Hcap as [captions ->]; [done|]. by exists captions.
  - exists []. by rewrite app_nil_r.
Qed.

Lemma add_content_completes page page_idx doc_blocks :
  is_Some (add_content ocr_page caption_images page page_idx doc_blocks) ->
  passes ocr_page caption_images page page_idx.
Proof.
  unfold passes, add_content.
  destruct (content_branch (classify_page page page_idx)) eqn:E; intros [r Hr].
  - apply content_branch_text in E as [E _].
    rewrite append_text_raises in Hr by (by eapply text_page_not_blank). done.
  - split; [done|]. split; [|done]. intros _.
    destruct (strip_blank (ocr_page page)) as [H _].
    destruct (Py.strip (ocr_page page)) as [|c l] eqn:Es; [by apply H|].
    rewrite append_text_raises in Hr; [done|].
    intros Hb%strip_blank. congruence.
  - split; [done|]. split; [done|]. intros _.
    destruct (caption_images page); [done|done].
  - done.
Qed.

(** What holds of the buffer and of the blocks before the page [page_idx]
    is processed, and when the loop goes through. *)
Lemma page_loop_invariant doc : forall page_idx s doc_blocks,
  0 <= page_idx ->
  tables s = seq 0 (length (objects s)) ->
  Forall (fun t => well_shaped t /\ 0 <= page_start t < page_idx) (objects s) ->
  StronglySorted (fun a b => page_start a <= page_start b) (objects s) ->
  captions_only doc_blocks ->
  (is_Some (page_loop ocr_page caption_images doc page_idx s doc_blocks)
   <-> forall i page,
         doc !! i = Some page ->
         passes ocr_page caption_images page (page_idx + Z.of_nat i))
  /\ forall s' doc_blocks',
       page_loop ocr_page caption_images doc page_idx s doc_blocks
       = Some (s', doc_blocks') ->
       merged_tables s' = merged_tables s
       /\ tables s' = seq 0 (length (objects s'))
       /\ Forall (fun t => well_shaped t
                           /\ 0 <= page_start t < page_idx + Z.of_nat (length doc))
                 (objects s')
       /\ StronglySorted (fun a b => page_start a <= page_start b) (objects s')
       /\ captions_only doc_blocks'.
Proof.
  induction doc as [|page doc IH];
    intros page_idx s doc_blocks Hidx Htabs Hall Hsorted Hcaps.
  - simpl. split; [split; [by intros _ i page|by eexists]|].
    intros s' doc_blocks' [= <- <-]. split; [done|]. split; [done|].
    split; [|done]. eapply Forall_impl; [exact Hall|]. intros t [? ?]. split; [done|lia].
  - cbn [page_loop].
    destruct (buffer_tables_spec page page_idx s) as (ts & Hts & ->). cbn [mbind option_bind].
    set (s1 := mkState (objects s ++ map (stamped page_idx) ts)
                       (tables s ++ seq (length (objects s)) (length ts))
                       (merged_tables s)).
    assert (H1 : tables s1 = seq 0 (length (objects s1))).
    { unfold s1. cbn [objects tables]. rewrite Htabs, length_app, length_map.
      by rewrite seq_app. }
    assert (H2 : Forall (fun t => well_shaped t /\ 0 <= page_start t < page_idx + 1)
                        (objects s1)).
    { unfold s1. cbn [objects]. apply Forall_app. split.
      - eapply Forall_impl; [exact Hall|]. intros t [? ?]. split; [done|lia].
      - apply Forall_map. eapply Forall_impl; [exact Hts|]. intros t Ht. cbn beta.
        destruct (stamped_well_shaped page_idx t Ht) as (? & -> & _).
        split; [done|lia]. }
    assert (H3 : StronglySorted (fun a b => page_start a <= page_start b) (objects s1)).
    { unfold s1. cbn [objects]. apply StronglySorted_app. split; [|split; [done|]].
      - intros a b Ha Hb. rewrite Forall_forall in Hall.
        destruct (Hall _ Ha) as [_ Hlt].
        apply list_elem_of_fmap in Hb as (t & -> & _). simpl. lia.
      - clear. induction ts as [|t ts IHts]; simpl; constructor; [done|].
        apply Forall_map, Forall_forall. intros. simpl. lia. }
    split.
    + split.
      * intros Hsome i page' Hi.
        destruct (add_content ocr_page caption_images page page_idx doc_blocks)
          as [doc_blocks1|] eqn:Ec; [|by destruct Hsome].
        cbn [mbind option_bind] in Hsome.
        destruct i as [|i]; simpl in Hi.
        -- injection Hi as <-. rewrite Z.add_0_r.
           apply (add_content_completes _ _ doc_blocks). by rewrite Ec.
        -- destruct (add_content_passes page page_idx doc_blocks) as [captions Ec'].
           { apply (add_content_completes _ _ doc_blocks). by rewrite Ec. }
           rewrite Ec in Ec'. injection Ec' as ->.
           destruct (IH (page_idx + 1) s1 (doc_blocks ++ map ImageCaption captions))
             as [[Hiff _] _]; try done; [lia| |].
           { apply Forall_app. split; [done|].
             apply Forall_map, Forall_forall. intros c _. by exists c. }
           specialize (Hiff Hsome i page' Hi).
           by replace (page_idx + Z.of_nat (S i)) with (page_idx + 1 + Z.of_nat i) by lia.
      * intros Hpass.
        destruct (add_content_passes page page_idx doc_blocks) as [captions ->].
        { specialize (Hpass 0%nat page eq_refl). by rewrite Z.add_0_r in Hpass. }
        cbn [mbind option_bind].
        destruct (IH (page_idx + 1) s1 (doc_blocks ++ map ImageCaption captions))
          as [[_ Hiff] _]; try done; [lia| |].
        { apply Forall_app. split; [done|].
          apply Forall_map, Forall_forall. intros c _. by exists c. }
        apply Hiff. intros i page' Hi.
        replace (page_idx + 1 + Z.of_nat i) with (page_idx + Z.of_nat (S i)) by lia.
        by apply Hpass.
    + intros s' doc_blocks' Hloop.
      destruct (add_content ocr_page caption_images page page_idx doc_blocks)
        as [doc_blocks1|] eqn:Ec; [|done].
      cbn [mbind option_bind] in Hloop.
      destruct (add_content_passes page page_idx doc_blocks) as [captions Ec'].
      { apply (add_content_completes _ _ doc_blocks). by rewrite Ec. }
      rewrite Ec in Ec'. injection Ec' as ->.
      destruct (IH (page_idx + 1) s1 (doc_blocks ++ map ImageCaption captions))
        as [_ Hres]; try done; [lia| |].
      { apply Forall_app. split; [done|].
        apply Forall_map, Forall_forall. intros c _. by exists c. }
      destruct (Hres _ _ Hloop) as (Hm & Ht & Ha & Hs & Hc).
      split; [done|]. split; [done|]. split; [|done].
      eapply Forall_impl; [exact Ha|]. intros t [? ?]. split; [done|].
      rewrite length_cons, Nat2Z.inj_succ. lia.
Qed.

Lemma sorted_objects σ :
  StronglySorted (fun a b => page_start a <= page_start b) σ ->
  forall k, (k <= length σ)%nat ->
  StronglySorted (fun a b => by_page_start σ a b = true) (seq (length σ - k) k).
Proof.
  intros Hs k. induction k as [|k IH]; intros Hk; simpl; constructor.
  - replace (S (length σ - S k)) with (length σ - k)%nat by lia. apply IH. lia.
  - apply Forall_forall. intros j Hj%elem_of_seq.
    unfold by_page_start, deref. apply Z.leb_le.
    destruct (lookup_lt_is_Some_2 σ (length σ - S k)) as [a Ea]; [lia|].
    destruct (lookup_lt_is_Some_2 σ j) as [b Eb]; [lia|].
    rewrite Ea, Eb. cbn [default from_option id].
    apply (StronglySorted_lookup_lt (fun a b => page_start a <= page_start b)
                                    σ (length σ - S k) j a b); [done|lia|done|done].
Qed.

Lemma collected_spec (doc : list Page) :
  (is_Some (collected ocr_page caption_images doc)
   <-> forall i page,
         doc !! i = Some page ->
         passes ocr_page caption_images page (Z.of_nat i))
  /\ forall table_buffer doc_blocks,
       collected ocr_page caption_images doc = Some (table_buffer, doc_blocks) ->
       tables table_buffer = seq 0 (length (objects table_buffer))
       /\ references_ok table_buffer
       /\ NoDup (tables table_buffer)
       /\ Forall (fun t => well_shaped t /\ 0 <= page_start t < Z.of_nat (length doc))
                 (objects table_buffer)
       /\ StronglySorted (fun a b => page_start a <= page_start b)
                         (objects table_buffer)
       /\ Py.sorted (by_page_start (objects table_buffer)) (tables table_buffer)
          = tables table_buffer
       /\ captions_only doc_blocks.
Proof.
  destruct (page_loop_invariant doc 0 (init []) []) as [Hiff Hres];
    [done|done|by constructor|by constructor|by constructor|].
  refine (conj Hiff _).
  intros s doc_blocks E. destruct (Hres _ _ E) as (_ & Ht & Ha & Hs & Hc).
  split; [done|]. split.
  { unfold references_ok. rewrite Ht. apply Forall_forall.
    intros l Hl%elem_of_seq. lia. }
  split; [rewrite Ht; apply NoDup_seq|]. split; [done|]. split; [done|].
  split; [|done].
  rewrite Ht. apply sorted_fixed.
  pose proof (sorted_objects (objects s) Hs (length (objects s))) as H.
  rewrite Nat.sub_diag in H. by apply H.
Qed.

(** X29.  The page loop of [process_single_pdf] goes through exactly when
    every page passes: no page takes the text branch, where [clean_text]
    raises on the text of the page; the OCR engine finds nothing but
    whitespace on the pages of the OCR branch; and the caption service
    returns on the pages of the caption branch.  In particular the loop
    raises on a page with more than 20 characters of text and no table.
    When the loop goes through, the buffer holds every object of the store
    once, in the order the pages come; each candidate is well shaped and
    lies on one page whose number is an index of the document, whatever
    number the page itself carries; the candidates are in page order
    already, so [merge]'s sort leaves them in place; and the blocks are
    image captions, all of them. *)
Theorem collected_buffer (doc : list Page) :
  (is_Some (collected ocr_page caption_images doc)
   <-> forall i page,
         doc !! i = Some page ->
         passes ocr_page caption_images page (Z.of_nat i))
  /\ (forall i page,
        doc !! i = Some page ->
        20 < char_count (classify_page page (Z.of_nat i)) ->
        has_table (classify_page page (Z.of_nat i)) = false ->
        collected ocr_page caption_images doc = None)
  /\ (forall table_buffer doc_blocks,
        collected ocr_page caption_images doc = Some (table_buffer, doc_blocks) ->
        tables table_buffer = seq 0 (length (objects table_buffer))
        /\ references_ok table_buffer
        /\ NoDup (tables table_buffer)
        /\ Forall (fun t => well_shaped t
                            /\ 0 <= page_start t < Z.of_nat (length doc))
                  (objects table_buffer)
        /\ StronglySorted (fun a b => page_start a <= page_start b)
                          (objects table_buffer)
        /\ Py.sorted (by_page_start (objects table_buffer)) (tables table_buffer)
           = tables table_buffer
        /\ captions_only doc_blocks).
Proof.
  destruct (collected_spec doc) as [Hiff Hres].
  refine (conj Hiff (conj _ Hres)).
  intros i page Hi Hc Ht.
  destruct (collected ocr_page caption_images doc) as [r|] eqn:E; [|done].
  exfalso. destruct Hiff as [Hiff _].
  destruct (Hiff (ltac:(by eexists)) i page Hi) as [Hb _]. apply Hb.
  revert Hc Ht. unfold content_branch, classify_page.
  cbn [has_text has_table char_count]. intros Hc ->.
  by destruct (Z.ltb_spec 20 (Z.of_nat (Py.len (Py.strip (page_text page))))); [|lia].
Qed.

(** X30.  What [process_single_pdf] hands to [assemble_document] when the
    page loop goes through: the image captions of the loop followed by one
    block for each merged table; the sort by [page_num] leaves the blocks
    in place.  The original tables of the merged tables, one after the
    other, are the buffered candidates in the order they were found; the
    merged tables come in the order of their first page; each has the
    headers of its first candidate, at least one header and one row, no
    empty row, only stripped cells that are not empty, and a page range
    inside the document that does not end before it starts. *)
Theorem process_single_pdf_blocks_result (doc : list Page)
    (table_buffer : State) (doc_blocks : list DocBlock) :
  collected ocr_page caption_images doc = Some (table_buffer, doc_blocks) ->
  let merged := snd (merge table_buffer) in
  process_single_pdf_blocks ocr_page caption_images doc
  = Some (doc_blocks ++ map table_doc merged)
  /\ captions_only doc_blocks
  /\ List.concat (map original_tables merged)
     = seq 0 (length (objects table_buffer))
  /\ StronglySorted (fun m m' => fst (page_range m) <= fst (page_range m')) merged
  /\ Forall (fun m =>
               (exists first others,
                   original_tables m = first :: others
                   /\ merged_columns m = columns (deref (objects table_buffer) first))
               /\ merged_columns m <> []
               /\ Forall filled (merged_columns m)
               /\ merged_rows m <> []
               /\ Forall (fun row => row <> [] /\ Forall filled row) (merged_rows m)
               /\ 0 <= fst (page_range m) <= snd (page_range m)
               /\ snd (page_range m) < Z.of_nat (length doc))
            merged.
Proof.
  intros E. set (s := table_buffer) in *.
  destruct (collected_spec doc) as [_ Hres].
  destruct (Hres _ _ E) as (Ht & Hok & _ & Hall & _ & Hfix & Hcaps).
  cbn zeta. split.
  { unfold process_single_pdf_blocks. rewrite E. cbn [mbind option_bind]. f_equal.
    apply sorted_fixed.
    generalize (doc_blocks ++ map table_doc (snd (merge s))). intros l.
    induction l as [|x l IHl]; constructor; [done|].
    apply Forall_forall. by intros. }
  split; [done|].
  destruct (merge_concat s) as (Hcat & Hne & _). rewrite Hfix, Ht in Hcat.
  split; [done|]. split; [by apply merge_sorted|].
  pose proof (merge_groups s Hok) as Hgroups.
  apply Forall_forall. intros m Hm.
  rewrite Forall_forall in Hgroups, Hne. specialize (Hgroups _ Hm). specialize (Hne _ Hm).
  assert (Hin : forall l, l ∈ original_tables m ->
                          well_shaped (deref (objects s) l)
                          /\ 0 <= page_start (deref (objects s) l)
                             < Z.of_nat (length doc)).
  { intros l Hl.
    assert (Hl' : l ∈ seq 0 (length (objects s))).
    { rewrite <- Hcat. apply list_elem_of_In, in_concat. exists (original_tables m).
      split; [|by apply list_elem_of_In].
      apply in_map_iff. exists m. split; [done|]. by apply list_elem_of_In. }
    apply elem_of_seq in Hl'.
    destruct (lookup_lt_is_Some_2 (objects s) l) as [t Et]; [lia|].
    rewrite (deref_Some _ _ _ Et). rewrite Forall_forall in Hall. apply Hall.
    by eapply list_elem_of_lookup_2. }
  destruct (original_tables m) as [|first others] eqn:Eo; [done|].
  destruct Hgroups as (Hrows & Hcols & (t0 & Ht0 & Hstart) & Hends & Hend).
  simpl in Ht0. injection Ht0 as <-.
  destruct (Hin first) as [Hshape Hpage]; [by left|].
  destruct Hshape as (Hone & Hc & _ & Hr & Hfc & Hfr & _).
  assert (Hcols' : merged_columns m = columns (deref (objects s) first)).
  { rewrite Hcols. simpl. by apply nonempty_true in Hc as ->. }
  split; [by exists first, others|].
  split; [by rewrite Hcols'|]. split; [by rewrite Hcols'|]. split; [|split; [|split]].
  - rewrite Hrows. simpl. destruct (rows (deref (objects s) first)); done.
  - rewrite Hrows. apply Forall_concat, Forall_map, Forall_map, Forall_forall.
    intros l Hl. destruct (Hin l Hl) as [(_ & _ & _ & _ & _ & H & _) _]. exact H.
  - rewrite Hstart. split; [lia|].
    apply Forall_cons_1 in Hends as [H0 _]. lia.
  - apply Exists_exists in Hend as (c & Hc' & <-).
    apply list_elem_of_fmap in Hc' as (l & -> & Hl).
    destruct (Hin l Hl) as [(Hone' & _) Hp]. lia.
Qed.


End Services.

End WithUnicode.

Lemma process_single_pdf_blocks_result_witness :
  process_single_pdf_blocks (U := Py.latin1_only) Sample2.no_text Sample2.no_captions
                            [Sample2.grid_page; Sample2.grid_page]
  = Some ([] ++ map table_doc (snd (merge (U := Py.latin1_only) Sample2.grid_buffer))).
Proof.
  refine (proj1 (process_single_pdf_blocks_result (U := Py.latin1_only)
                   Sample2.no_text Sample2.no_captions
                   [Sample2.grid_page; Sample2.grid_page] Sample2.grid_buffer [] _)).
  vm_compute. reflexivity.
Defined.

(** Two pages with the same grid, whatever number they carry, give one
    table of the pages 0 and 1. *)
Example process_single_pdf_blocks_grid :
  process_single_pdf_blocks (U := Py.latin1_only) Sample2.no_text Sample2.no_captions
                            [Sample2.grid_page; Sample2.grid_page]
  = Some [ TableDoc (map Py.lit ["name"; "qty"; "unit"]%string)
             (map (map Py.lit)
                  [["a"; "1"; "kg"]; ["b"; "2"; "kg"]; ["c"; "3"; "l"];
                   ["a"; "1"; "kg"]; ["b"; "2"; "kg"]; ["c"; "3"; "l"]]%string)
             (0, 1) ].
Proof. by vm_compute. Qed.

(** A page of forty letters makes the loop raise, whatever the services
    do. *)
Example letter_page_raises (ocr_page : Page -> str)
    (caption_images : Page -> option (list str)) :
  collected (U := Py.latin1_only) ocr_page caption_images [Sample2.letter_page] = None.
Proof. by vm_compute. Qed.

End PipelineFacts.
